(** * Sales filter dashboard (streamlit_app.py): the data pipeline

    A shallow embedding of the pipeline of [streamlit_app.py]:
    loading ([_ensure_download_param], [load_csv_from_onedrive]),
    normalisation ([cargar_datos]), the four sidebar filters, the monthly
    aggregation, the summary figures and the suggested export file name.

    Conventions of the embedding.
    - A Python [str] is a [string] whose characters are code points below
      256; the letter n-tilde of "varios_años" is the character 241.
    - A missing cell of a DataFrame (NaN, None, NaT) is [None].
    - The numbers of the quantity and of the amount column are those of
      the dtype of the column.  The tables are parametric in the two
      dtypes (class [Dtype]); int64 is given in full, as [Z] with its
      wrap-around; float64 is given with its comparisons, its rounded
      sums being left open, and only what holds of any dtype is stated
      of it.
    - Text decoded from the fetched bytes is a list of code points, since
      cp1252 and utf-8 reach beyond 255.
    - Streamlit calls that only display something are recorded in a log
      where a statement is about them, and left out otherwise. *)

From Stdlib Require Import ZArith NArith List String Ascii Bool Lia.
From Stdlib Require Import DecimalString.
From Stdlib Require Import Strings.Byte.
From Stdlib Require Import Sorting.Sorted Sorting.Permutation.
From Stdlib Require Import Structures.OrderedTypeEx.
From Stdlib Require Import PrimFloat.
Import ListNotations.

Local Open Scope string_scope.
Local Open Scope Z_scope.

(* ================================================================= *)
(** * Part I. The embedding *)
(* ================================================================= *)

(** ** Python built-ins the script relies on *)

Module Py.

(** [sub in s] on strings. *)
Fixpoint contains (sub s : string) : bool :=
  prefix sub s ||
  match s with
  | EmptyString => false
  | String _ s' => contains sub s'
  end.

(** [sep.join(l)] is [String.concat sep l]. *)
Definition join (sep : string) (l : list string) : string :=
  String.concat sep l.

(** [str.lower()] on code points below 256: the ASCII capitals and the
    Latin-1 capitals 192..222, the multiplication sign 215 apart. *)
Definition lower_char (c : ascii) : ascii :=
  let n := N_of_ascii c in
  if ((65 <=? n) && (n <=? 90))%N then ascii_of_N (n + 32)
  else if ((192 <=? n) && (n <=? 222) && negb (n =? 215))%N
       then ascii_of_N (n + 32)
  else c.

Fixpoint lower (s : string) : string :=
  match s with
  | EmptyString => EmptyString
  | String c s' => String (lower_char c) (lower s')
  end.

(** [s[:n]]. *)
Definition slice_to (n : nat) (s : string) : string := substring 0 n s.

(** [str(y)] of an integer. *)
Definition str_of_int (z : Z) : string :=
  NilZero.string_of_int (Z.to_int z).

(** [bool(l)] of a list: non-empty. *)
Definition truthy {A : Type} (l : list A) : bool :=
  match l with [] => false | _ :: _ => true end.

(** [sorted(l)]: Python's sort is stable; a stable insertion sort
    computes the same list. *)
Section Sorted.
Context {A : Type} (leb : A -> A -> bool).

Fixpoint insert (x : A) (l : list A) : list A :=
  match l with
  | [] => [x]
  | y :: l' => if leb x y then x :: l else y :: insert x l'
  end.

Fixpoint sorted (l : list A) : list A :=
  match l with
  | [] => []
  | x :: l' => insert x (sorted l')
  end.
End Sorted.

End Py.

(** Orders used by [sorted] and by pandas: integers, and strings by code
    point. *)
Definition cmp_leb (c : comparison) : bool :=
  match c with Gt => false | _ => true end.

Definition lex (c1 c2 : comparison) : comparison :=
  match c1 with Eq => c2 | _ => c1 end.

Definition Z_leb (x y : Z) : bool := cmp_leb (Z.compare x y).
Definition str_leb (x y : string) : bool := cmp_leb (String.compare x y).

(** ** Text encodings: the four Python codecs of the encoding list *)

Module Codec.

Inductive Encoding : Type := latin1 | iso_8859_1 | cp1252 | utf_8.

(** Decoded text: a list of Unicode code points. *)
Definition text : Type := list N.

(** latin1 maps every byte to the code point of the same number;
    iso-8859-1 is the same codec under another name. *)
Definition latin1_decode (bs : list byte) : option text :=
  Some (map Byte.to_N bs).

(** cp1252 differs from latin1 on 0x80..0x9F, where five bytes are
    undefined and make the codec raise. *)
Definition cp1252_char (n : N) : option N :=
  if ((n <? 0x80) || (0xA0 <=? n))%N then Some n
  else match n with
       | 0x80 => Some 0x20AC | 0x82 => Some 0x201A | 0x83 => Some 0x0192
       | 0x84 => Some 0x201E | 0x85 => Some 0x2026 | 0x86 => Some 0x2020
       | 0x87 => Some 0x2021 | 0x88 => Some 0x02C6 | 0x89 => Some 0x2030
       | 0x8A => Some 0x0160 | 0x8B => Some 0x2039 | 0x8C => Some 0x0152
       | 0x8E => Some 0x017D | 0x91 => Some 0x2018 | 0x92 => Some 0x2019
       | 0x93 => Some 0x201C | 0x94 => Some 0x201D | 0x95 => Some 0x2022
       | 0x96 => Some 0x2013 | 0x97 => Some 0x2014 | 0x98 => Some 0x02DC
       | 0x99 => Some 0x2122 | 0x9A => Some 0x0161 | 0x9B => Some 0x203A
       | 0x9C => Some 0x0153 | 0x9E => Some 0x017E | 0x9F => Some 0x0178
       | _ => None
       end%N.

Fixpoint cp1252_decode (bs : list byte) : option text :=
  match bs with
  | [] => Some []
  | b :: r =>
      match cp1252_char (Byte.to_N b), cp1252_decode r with
      | Some c, Some t => Some (c :: t)
      | _, _ => None
      end
  end.

(** utf-8, strict: no overlong forms, no surrogates, nothing above
    U+10FFFF. *)
Definition between (lo hi n : N) : bool := ((lo <=? n) && (n <=? hi))%N.

Definition cont (n : N) : bool := between 0x80 0xBF n.

Fixpoint utf8_points (bs : list N) : option text :=
  match bs with
  | [] => Some []
  | b0 :: r0 =>
      if (b0 <? 0x80)%N then option_map (cons b0) (utf8_points r0)
      else if between 0xC2 0xDF b0 then
        match r0 with
        | b1 :: r1 =>
            if cont b1
            then option_map (cons ((b0 - 0xC0) * 64 + (b1 - 0x80))%N)
                            (utf8_points r1)
            else None
        | _ => None
        end
      else if between 0xE0 0xEF b0 then
        match r0 with
        | b1 :: b2 :: r2 =>
            if between (if (b0 =? 0xE0)%N then 0xA0 else 0x80)
                       (if (b0 =? 0xED)%N then 0x9F else 0xBF) b1
               && cont b2
            then option_map
                   (cons ((b0 - 0xE0) * 4096 + (b1 - 0x80) * 64
                          + (b2 - 0x80))%N)
                   (utf8_points r2)
            else None
        | _ => None
        end
      else if between 0xF0 0xF4 b0 then
        match r0 with
        | b1 :: b2 :: b3 :: r3 =>
            if between (if (b0 =? 0xF0)%N then 0x90 else 0x80)
                       (if (b0 =? 0xF4)%N then 0x8F else 0xBF) b1
               && cont b2 && cont b3
            then option_map
                   (cons ((b0 - 0xF0) * 262144 + (b1 - 0x80) * 4096
                          + (b2 - 0x80) * 64 + (b3 - 0x80))%N)
                   (utf8_points r3)
            else None
        | _ => None
        end
      else None
  end.

Definition utf8_decode (bs : list byte) : option text :=
  utf8_points (map Byte.to_N bs).

(** [None]: the codec raises UnicodeDecodeError. *)
Definition decode (e : Encoding) (bs : list byte) : option text :=
  match e with
  | latin1 | iso_8859_1 => latin1_decode bs
  | cp1252 => cp1252_decode bs
  | utf_8 => utf8_decode bs
  end.

End Codec.

(** ** The loader: [_ensure_download_param], [load_csv_from_onedrive] *)

(** What a call can do besides returning: raise. *)
Inductive Exception : Type :=
| RequestException        (* requests.get: timeout, connection failure *)
| HTTPError (status : Z)  (* resp.raise_for_status() *)
| UnicodeDecodeError      (* the codec rejects the bytes *)
| OtherException          (* anything else pd.read_csv raises *)
| ValueError              (* idxmax, idxmin of an empty column *)
| KeyError.               (* .loc with a label the index lacks *)

Inductive Raises (A : Type) : Type :=
| Raise (e : Exception)
| Return (a : A).
Arguments Raise {A} e.
Arguments Return {A} a.

(** What the loader shows on the page. *)
Inductive Msg : Type :=
| st_success_loaded (enc : Codec.Encoding)   (* "Archivo cargado con encoding: .." *)
| st_error_with (enc : Codec.Encoding)       (* "Error con ..: .." *)
| st_error_no_encoding.                      (* "No se pudo cargar con ningun encoding" *)

(** The answer of [requests.get]: it raised, or a response arrived. *)
Inductive Fetch : Type :=
| fetch_raised
| fetched (status_code : Z) (content : list byte).

Definition _ensure_download_param (url : string) : string :=
  if Py.contains "download=1" url then url
  else
    let joiner := if Py.contains "?" url then "&" else "?" in
    url ++ joiner ++ "download=1".

(** [resp.raise_for_status()] raises for the 4xx and 5xx codes. *)
Definition raise_for_status (status_code : Z) : bool :=
  (400 <=? status_code) && (status_code <? 600).

Definition encodings : list Codec.Encoding :=
  [Codec.latin1; Codec.iso_8859_1; Codec.cp1252; Codec.utf_8].

Section Loader.

(** The table type and the two library calls the loader makes.
    [parse] is the python-engine parser of [pd.read_csv] with
    [sep=None], run on the decoded text: [None] when it raises (no
    columns, no delimiter found, ragged lines).  [requests_get url
    timeout] is [requests.get(url, timeout=.., allow_redirects=True)]. *)
Context {DataFrame : Type}.
Variable parse : Codec.text -> option DataFrame.
Variable requests_get : string -> Z -> Fetch.

(** [pd.read_csv(io.BytesIO(content), sep=None, engine="python",
    encoding=enc, dayfirst=True, parse_dates=False)]: with
    [parse_dates=False] no column is parsed as a date, so [dayfirst] has
    nothing to act on. *)
Definition read_csv (enc : Codec.Encoding) (content : list byte)
  : Raises DataFrame :=
  match Codec.decode enc content with
  | None => Raise UnicodeDecodeError
  | Some t =>
      match parse t with
      | None => Raise OtherException
      | Some df => Return df
      end
  end.

(** The [for encoding in encodings] loop with its two [except]
    clauses, and the two statements after it.  Decoding is taken to come
    before parsing, so that a content the codec rejects ends in
    UnicodeDecodeError. *)
Fixpoint for_encoding (content : list byte) (encs : list Codec.Encoding)
  : option DataFrame * list Msg :=
  match encs with
  | [] => (None, [st_error_no_encoding])
  | enc :: rest =>
      match read_csv enc content with
      | Return df => (Some df, [st_success_loaded enc])
      | Raise UnicodeDecodeError => for_encoding content rest
      | Raise _ =>
          let '(r, log) := for_encoding content rest in
          (r, st_error_with enc :: log)
      end
  end.

(** One run of the body; the decorator [st.cache_data(ttl=600)], which
    replays the outcome of an earlier run for ten minutes, is left out. *)
Definition load_csv_from_onedrive (url : string)
  : Raises (option DataFrame) * list Msg :=
  let final_url := _ensure_download_param url in
  match requests_get final_url 60 with
  | fetch_raised => (Raise RequestException, [])
  | fetched status_code content =>
      if raise_for_status status_code
      then (Raise (HTTPError status_code), [])
      else
        let '(r, log) := for_encoding content encodings in
        (Return r, log)
  end.

End Loader.

(** ** Dates: [pd.to_datetime] and [.dt.strftime('%B')] *)

Record Timestamp : Type := mkTimestamp
  { ts_year : Z; ts_month : Z; ts_day : Z }.

Module Dates.

Definition digit (c : ascii) : option Z :=
  let n := Z.of_N (N_of_ascii c) in
  if (48 <=? n) && (n <=? 57) then Some (n - 48) else None.

(** A run of digits: its value, its length, and what follows it. *)
Fixpoint number (s : string) (acc : Z) (len : nat) : Z * nat * string :=
  match s with
  | EmptyString => (acc, len, s)
  | String c s' =>
      match digit c with
      | Some d => number s' (10 * acc + d) (S len)
      | None => (acc, len, s)
      end
  end.

Definition is_sep (c : ascii) : bool :=
  Ascii.eqb c "/" || Ascii.eqb c "-".

(** The written form the model covers: three numbers around one
    separator used twice, as in 2024-03-05 or 05/03/2024. *)
Definition shape (s : string)
  : option (ascii * (Z * nat) * (Z * nat) * (Z * nat)) :=
  let '(n1, l1, r1) := number s 0 0 in
  match r1 with
  | String c1 r1' =>
      let '(n2, l2, r2) := number r1' 0 0 in
      match r2 with
      | String c2 r2' =>
          let '(n3, l3, r3) := number r2' 0 0 in
          match r3 with
          | EmptyString =>
              if is_sep c1 && Ascii.eqb c1 c2
              then Some (c1, (n1, l1), (n2, l2), (n3, l3))
              else None
          | String _ _ => None
          end
      | EmptyString => None
      end
  | EmptyString => None
  end.

Definition short (l : nat) : bool := Nat.eqb l 1 || Nat.eqb l 2.

Inductive DateFormat : Type :=
| YMD (sep : ascii)   (* %Y-%m-%d *)
| MDY (sep : ascii)   (* %m/%d/%Y *)
| DMY (sep : ascii).  (* %d/%m/%Y *)

(** The format pandas infers from one date text.  A leading four-digit
    year is read year, month, day (ISO 8601, with the hyphen).  With the
    year last, the first number is the day when it exceeds 12, or when
    [dayfirst] is asked for and the second number can be a month; in
    every other case the first number is the month. *)
Definition guess_datetime_format (dayfirst : bool) (s : string)
  : option DateFormat :=
  match shape s with
  | Some (c, (n1, l1), (n2, l2), (n3, l3)) =>
      if Nat.eqb l1 4 then
        if Ascii.eqb c "-" && short l2 && short l3
        then Some (YMD c) else None
      else if short l1 && short l2 && Nat.eqb l3 4 then
        Some (if (12 <? n1) || (dayfirst && (n2 <=? 12))
              then DMY c else MDY c)
      else None
  | None => None
  end.

Definition is_leap (y : Z) : bool :=
  ((y mod 4 =? 0) && negb (y mod 100 =? 0)) || (y mod 400 =? 0).

Definition days_in_month (y m : Z) : Z :=
  match m with
  | 1 | 3 | 5 | 7 | 8 | 10 | 12 => 31
  | 4 | 6 | 9 | 11 => 30
  | 2 => if is_leap y then 29 else 28
  | _ => 0
  end.

(** Dates a nanosecond Timestamp can hold at midnight:
    1677-09-22 .. 2262-04-11. *)
Definition in_bounds (y m d : Z) : bool :=
  cmp_leb (lex (1677 ?= y) (lex (9 ?= m) (22 ?= d)))
  && cmp_leb (lex (y ?= 2262) (lex (m ?= 4) (d ?= 11))).

Definition make_date (y m d : Z) : option Timestamp :=
  if (1 <=? m) && (m <=? 12) && (1 <=? d) && (d <=? days_in_month y m)
     && in_bounds y m d
  then Some (mkTimestamp y m d) else None.

(** Strict parsing of one text with a format. *)
Definition strptime (fmt : DateFormat) (s : string) : option Timestamp :=
  match shape s with
  | Some (c, (n1, l1), (n2, l2), (n3, l3)) =>
      match fmt with
      | YMD c' =>
          if Ascii.eqb c c' && Nat.eqb l1 4 && short l2 && short l3
          then make_date n1 n2 n3 else None
      | MDY c' =>
          if Ascii.eqb c c' && short l1 && short l2 && Nat.eqb l3 4
          then make_date n3 n1 n2 else None
      | DMY c' =>
          if Ascii.eqb c c' && short l1 && short l2 && Nat.eqb l3 4
          then make_date n3 n2 n1 else None
      end
  | None => None
  end.

Fixpoint first_text (col : list (option string)) : option string :=
  match col with
  | [] => None
  | Some s :: _ => Some s
  | None :: col' => first_text col'
  end.

Fixpoint parse_column (fmt : DateFormat) (col : list (option string))
  : option (list (option Timestamp)) :=
  match col with
  | [] => Some []
  | None :: col' => option_map (cons None) (parse_column fmt col')
  | Some s :: col' =>
      match strptime fmt s, parse_column fmt col' with
      | Some t, Some ts => Some (Some t :: ts)
      | _, _ => None
      end
  end.

(** [pd.to_datetime(col, dayfirst=..)] on a column of dates written as
    three numbers: the format is inferred from the first text present
    and every text is parsed with it; a missing cell gives NaT.  [None]:
    the call raises.  No other written form is covered: on a text with a
    time of day, say, which pandas parses, and on a date outside
    1677-2262, which pandas accepts from version 3 on, the answer here is
    [None] all the same.  So this parser stands for [pd.to_datetime] on
    dates of the covered forms only; what holds whatever the parser
    answers is stated of [normalize_with] below, which leaves it open. *)
Definition to_datetime (dayfirst : bool) (col : list (option string))
  : option (list (option Timestamp)) :=
  match first_text col with
  | None => Some (map (fun _ => None) col)
  | Some s0 =>
      match guess_datetime_format dayfirst s0 with
      | Some fmt => parse_column fmt col
      | None => None
      end
  end.

(** The locale of month names.  At start the script asks for
    es_ES.UTF-8 and carries on with the process default, the C locale,
    when that raises. *)
Inductive Locale : Type := es_ES | C_locale.

Definition setlocale_at_start (es_ES_available : bool) : Locale :=
  if es_ES_available then es_ES else C_locale.

(** [strftime('%B')]. *)
Definition month_name (loc : Locale) (m : Z) : string :=
  match loc, m with
  | C_locale, 1 => "January" | C_locale, 2 => "February"
  | C_locale, 3 => "March" | C_locale, 4 => "April"
  | C_locale, 5 => "May" | C_locale, 6 => "June"
  | C_locale, 7 => "July" | C_locale, 8 => "August"
  | C_locale, 9 => "September" | C_locale, 10 => "October"
  | C_locale, 11 => "November" | C_locale, 12 => "December"
  | es_ES, 1 => "enero" | es_ES, 2 => "febrero"
  | es_ES, 3 => "marzo" | es_ES, 4 => "abril"
  | es_ES, 5 => "mayo" | es_ES, 6 => "junio"
  | es_ES, 7 => "julio" | es_ES, 8 => "agosto"
  | es_ES, 9 => "septiembre" | es_ES, 10 => "octubre"
  | es_ES, 11 => "noviembre" | es_ES, 12 => "diciembre"
  | _, _ => ""
  end.

End Dates.

(** ** Number columns *)

(** The quantity and the amount column each have the dtype pandas gave
    them when it read the file: int64 when every cell of the column is an
    integer, float64 when a cell is a decimal or is missing.  What the
    script asks of the numbers of a column is gathered here; the two
    columns need not have the same dtype. *)
Class Dtype (num : Type) : Type := mkDtype
  { (* x != 0 and x > 0 *)
    ne_zero : num -> bool;
    gt_zero : num -> bool;
    (* x > y and x < y, as idxmax and idxmin compare *)
    num_gtb : num -> num -> bool;
    num_ltb : num -> num -> bool;
    (* the larger and the smaller of two numbers: Series.max(), Series.min() *)
    num_max : num -> num -> num;
    num_min : num -> num -> num;
    (* the 'sum' of a group: its cells that are present, in the order of
       the group; no cell present gives 0 *)
    group_sum : list num -> num;
    (* Series.sum() of a column without missing cells *)
    series_sum : list num -> num }.

(** int64: the integers from -2^63 to 2^63 - 1.  An addition that leaves
    the range wraps around. *)
Definition wrap64 (z : Z) : Z := (z + 2 ^ 63) mod 2 ^ 64 - 2 ^ 63.

Definition add64 (x y : Z) : Z := wrap64 (x + y).

Definition sum64 (l : list Z) : Z := fold_left add64 l 0.

#[global] Instance int64 : Dtype Z :=
  {| ne_zero := fun z => negb (z =? 0);
     gt_zero := fun z => z >? 0;
     num_gtb := Z.gtb;
     num_ltb := Z.ltb;
     num_max := Z.max;
     num_min := Z.min;
     group_sum := sum64;
     series_sum := sum64 |}.

(** float64: the binary64 numbers of IEEE 754 with their comparisons;
    NaN stands for a missing cell and is no number of a column.  The two
    sums round, and how they round depends on the way pandas and numpy
    add, which the script does not fix: they are left open.  Statements
    that hold whatever the dtype are made for every instance of
    [Dtype]. *)
Definition float64 (gsum ssum : list float -> float) : Dtype float :=
  {| ne_zero := fun x => negb (PrimFloat.eqb x 0%float);
     gt_zero := fun x => PrimFloat.ltb 0%float x;
     num_gtb := fun x y => PrimFloat.ltb y x;
     num_ltb := fun x y => PrimFloat.ltb x y;
     num_max := fun x y => if PrimFloat.ltb x y then y else x;
     num_min := fun x y => if PrimFloat.ltb y x then y else x;
     group_sum := gsum;
     series_sum := ssum |}.

(** ** Tables *)

(** A row as read from the file. *)
Record RawRowOf (qty amt : Type) : Type := mkRawRow
  { raw_FECHA_DOCUMENTO : option string;
    raw_CODIGO_PRODUCTO : option string;
    raw_NOMBRE_PRODUCTO : option string;
    raw_CLASE_CLIENTE : option string;
    raw_CANTIDAD : option qty;
    raw_PRECIO_TOTAL_ORIG : option amt;
    raw_ESTADO_DOCUMENTO : option string }.

Arguments mkRawRow {qty amt} _ _ _ _ _ _ _.
Arguments raw_FECHA_DOCUMENTO {qty amt} _.
Arguments raw_CODIGO_PRODUCTO {qty amt} _.
Arguments raw_NOMBRE_PRODUCTO {qty amt} _.
Arguments raw_CLASE_CLIENTE {qty amt} _.
Arguments raw_CANTIDAD {qty amt} _.
Arguments raw_PRECIO_TOTAL_ORIG {qty amt} _.
Arguments raw_ESTADO_DOCUMENTO {qty amt} _.

(** A row of [df_original]: the date parsed, and the three derived
    columns. *)
Record RowOf (qty amt : Type) : Type := mkRow
  { FECHA_DOCUMENTO : option Timestamp;
    CODIGO_PRODUCTO : option string;
    NOMBRE_PRODUCTO : option string;
    CLASE_CLIENTE : option string;
    CANTIDAD : option qty;
    PRECIO_TOTAL_ORIG : option amt;
    ESTADO_DOCUMENTO : option string;
    AÑO : option Z;
    MES_NUM : option Z;
    MES : option string }.

Arguments mkRow {qty amt} _ _ _ _ _ _ _ _ _ _.
Arguments FECHA_DOCUMENTO {qty amt} _.
Arguments CODIGO_PRODUCTO {qty amt} _.
Arguments NOMBRE_PRODUCTO {qty amt} _.
Arguments CLASE_CLIENTE {qty amt} _.
Arguments CANTIDAD {qty amt} _.
Arguments PRECIO_TOTAL_ORIG {qty amt} _.
Arguments ESTADO_DOCUMENTO {qty amt} _.
Arguments AÑO {qty amt} _.
Arguments MES_NUM {qty amt} _.
Arguments MES {qty amt} _.

(** The tables whose two number columns are int64. *)
Abbreviation RawRow := (RawRowOf Z Z).
Abbreviation Row := (RowOf Z Z).

(** [col != 0] on a number cell: NaN differs from 0. *)
Definition ne0 {num : Type} {D : Dtype num} (c : option num) : bool :=
  match c with
  | Some v => ne_zero v
  | None => true
  end.

(** [Series.dropna()]: the cells that are present. *)
Fixpoint dropna {A : Type} (col : list (option A)) : list A :=
  match col with
  | [] => []
  | Some x :: col' => x :: dropna col'
  | None :: col' => dropna col'
  end.

(** ** The normaliser: [cargar_datos] *)

Definition onedrive_url : string :=
  "https://1drv.ms/x/c/dc44eeb8f33dc5b8/EcDIdi0xIWNMjI630nuNjQsBgMr_B1R9ojE-Vam5ZSZ_OQ?e=4UvUUr".

Section Normalize.

Context {qty amt : Type} {Dq : Dtype qty}.

(** The three assignments after [pd.to_datetime], on one row. *)
Definition add_date_columns (loc : Dates.Locale) (r : RawRowOf qty amt)
  (fecha : option Timestamp) : RowOf qty amt :=
  {| FECHA_DOCUMENTO := fecha;
     CODIGO_PRODUCTO := raw_CODIGO_PRODUCTO r;
     NOMBRE_PRODUCTO := raw_NOMBRE_PRODUCTO r;
     CLASE_CLIENTE := raw_CLASE_CLIENTE r;
     CANTIDAD := raw_CANTIDAD r;
     PRECIO_TOTAL_ORIG := raw_PRECIO_TOTAL_ORIG r;
     ESTADO_DOCUMENTO := raw_ESTADO_DOCUMENTO r;
     AÑO := option_map ts_year fecha;
     MES_NUM := option_map ts_month fecha;
     MES := option_map (fun t => Dates.month_name loc (ts_month t)) fecha |}.

(** Lines 572-577 on a loaded table, the parser of dates left open: the
    rows of quantity 0 go first, then the date column of what is left is
    handed to the parser.  [None]: the parser raised. *)
Definition normalize_with
  (to_datetime : list (option string) -> option (list (option Timestamp)))
  (loc : Dates.Locale) (df : list (RawRowOf qty amt))
  : option (list (RowOf qty amt)) :=
  let df1 := filter (fun r => ne0 (raw_CANTIDAD r)) df in
  match to_datetime (map raw_FECHA_DOCUMENTO df1) with
  | Some fechas => Some (map (fun p => add_date_columns loc (fst p) (snd p))
                             (combine df1 fechas))
  | None => None
  end.

(** [pd.to_datetime] is called without [dayfirst], that is with its
    default [False]. *)
Definition normalize (loc : Dates.Locale) (df : list (RawRowOf qty amt))
  : option (list (RowOf qty amt)) :=
  normalize_with (Dates.to_datetime false) loc df.

End Normalize.

Section Normalizer.

Context {qty amt : Type} {Dq : Dtype qty}.
Variable parse : Codec.text -> option (list (RawRowOf qty amt)).
Variable requests_get : string -> Z -> Fetch.
Variable loc : Dates.Locale.

(** [cargar_datos()]: whatever is raised inside the [try] ends in the
    empty table [pd.DataFrame()], here [[]]; so does the loader's
    [None], on which [df['CANTIDAD']] raises TypeError. *)
Definition cargar_datos : list (RowOf qty amt) :=
  match fst (load_csv_from_onedrive parse requests_get onedrive_url) with
  | Raise _ => []
  | Return None => []
  | Return (Some df) =>
      match normalize loc df with
      | Some df' => df'
      | None => []
      end
  end.

End Normalizer.

(** ** The four sidebar selections and the filters (lines 626-633) *)

Record Selection : Type := mkSelection
  { año_seleccionado : list Z;
    mes_seleccionado : list string;
    codigo_seleccionado : list string;
    clase_seleccionada : list string }.

(** [Series.isin(values)] on one cell; the selections hold plain values,
    so a missing cell is never in them. *)
Definition isin {A : Type} (eqb : A -> A -> bool) (cell : option A)
  (values : list A) : bool :=
  match cell with
  | Some x => existsb (eqb x) values
  | None => false
  end.

Definition df_filtrado {qty amt : Type} (sel : Selection)
  (df_original : list (RowOf qty amt)) : list (RowOf qty amt) :=
  let df := df_original in
  let df := filter (fun r => isin Z.eqb (AÑO r) (año_seleccionado sel)) df in
  let df := filter (fun r => isin String.eqb (MES r) (mes_seleccionado sel)) df in
  let df :=
    if Py.truthy (codigo_seleccionado sel)
    then filter (fun r => isin String.eqb (CODIGO_PRODUCTO r)
                               (codigo_seleccionado sel)) df
    else df in
  filter (fun r => isin String.eqb (CLASE_CLIENTE r) (clase_seleccionada sel)) df.

(** ** The aggregation (lines 639-662) *)

(** The columns of [df_agrupado] and of [df_final]. *)
Module Agg.
Record RowOf (qty amt : Type) : Type := mkRow
  { CODIGO_PRODUCTO : string;
    AÑO : Z;
    MES_NUM : Z;
    MES : string;
    FECHA_DOCUMENTO : option Timestamp;
    NOMBRE_PRODUCTO : option string;
    CLASE_CLIENTE : option string;
    CANTIDAD : qty;
    PRECIO_TOTAL_ORIG : amt;
    ESTADO_DOCUMENTO : option string }.

Arguments mkRow {qty amt} _ _ _ _ _ _ _ _ _ _.
Arguments CODIGO_PRODUCTO {qty amt} _.
Arguments AÑO {qty amt} _.
Arguments MES_NUM {qty amt} _.
Arguments MES {qty amt} _.
Arguments FECHA_DOCUMENTO {qty amt} _.
Arguments NOMBRE_PRODUCTO {qty amt} _.
Arguments CLASE_CLIENTE {qty amt} _.
Arguments CANTIDAD {qty amt} _.
Arguments PRECIO_TOTAL_ORIG {qty amt} _.
Arguments ESTADO_DOCUMENTO {qty amt} _.

Abbreviation Row := (RowOf Z Z).
End Agg.

Module Final.
Record RowOf (qty amt : Type) : Type := mkRow
  { FECHA_DOCUMENTO : option Timestamp;
    CODIGO_PRODUCTO : string;
    NOMBRE_PRODUCTO : option string;
    CLASE_CLIENTE : option string;
    CANTIDAD : qty;
    PRECIO_TOTAL_ORIG : amt;
    ESTADO_DOCUMENTO : option string }.

Arguments mkRow {qty amt} _ _ _ _ _ _ _.
Arguments FECHA_DOCUMENTO {qty amt} _.
Arguments CODIGO_PRODUCTO {qty amt} _.
Arguments NOMBRE_PRODUCTO {qty amt} _.
Arguments CLASE_CLIENTE {qty amt} _.
Arguments CANTIDAD {qty amt} _.
Arguments PRECIO_TOTAL_ORIG {qty amt} _.
Arguments ESTADO_DOCUMENTO {qty amt} _.

Abbreviation Row := (RowOf Z Z).
End Final.

(** A table whose rows carry their index label. *)
Definition Indexed (A : Type) : Type := list (nat * A).

(** The group key: the four [groupby] columns.  With its default
    [dropna=True], [groupby] drops the rows in which one of the key
    columns is missing: they belong to no group. *)
Definition Key : Type := (string * Z * Z * string)%type.

Definition key_compare (k1 k2 : Key) : comparison :=
  let '(c1, y1, m1, n1) := k1 in
  let '(c2, y2, m2, n2) := k2 in
  lex (String.compare c1 c2)
      (lex (y1 ?= y2) (lex (m1 ?= m2) (String.compare n1 n2))).

Definition key_leb (k1 k2 : Key) : bool := cmp_leb (key_compare k1 k2).

Definition key_eqb (k1 k2 : Key) : bool :=
  match key_compare k1 k2 with Eq => true | _ => false end.

Fixpoint unique {A : Type} (eqb : A -> A -> bool) (l : list A) : list A :=
  match l with
  | [] => []
  | x :: l' => if existsb (eqb x) l' then unique eqb l' else x :: unique eqb l'
  end.

(** [reset_index()]: the labels 0, 1, 2, ... *)
Definition reset_index {A : Type} (rows : list A) : Indexed A :=
  combine (seq 0 (List.length rows)) rows.

Section Aggregation.

Context {qty amt : Type} {Dq : Dtype qty} {Da : Dtype amt}.

Definition key_of (r : RowOf qty amt) : option Key :=
  match CODIGO_PRODUCTO r, AÑO r, MES_NUM r, MES r with
  | Some c, Some y, Some m, Some n => Some (c, y, m, n)
  | _, _, _, _ => None
  end.

Fixpoint present_keys (df : list (RowOf qty amt)) : list Key :=
  match df with
  | [] => []
  | r :: df' =>
      match key_of r with
      | Some k => k :: present_keys df'
      | None => present_keys df'
      end
  end.

Definition in_group (k : Key) (r : RowOf qty amt) : bool :=
  match key_of r with
  | Some k' => key_eqb k k'
  | None => false
  end.

(** [df.groupby([...])]: the distinct keys in ascending order (its
    default [sort=True]), each with its rows in the order of [df]. *)
Definition groupby (df : list (RowOf qty amt))
  : list (Key * list (RowOf qty amt)) :=
  map (fun k => (k, filter (in_group k) df))
      (Py.sorted key_leb (unique key_eqb (present_keys df))).

(** The aggregation ['first'] of a pandas group: the first entry of the
    column in the group, missing entries skipped (its default); so the
    first value that is present, in the order of the group, and not
    always the value of the first row. *)
Fixpoint first {A : Type} (col : RowOf qty amt -> option A)
  (g : list (RowOf qty amt)) : option A :=
  match g with
  | [] => None
  | r :: g' =>
      match col r with
      | Some v => Some v
      | None => first col g'
      end
  end.

(** The aggregation ['sum']: missing entries are skipped (its default);
    the cells that are present are added in the dtype of the column, in
    the order of the group. *)
Definition sum {num : Type} {D : Dtype num}
  (col : RowOf qty amt -> option num) (g : list (RowOf qty amt)) : num :=
  group_sum (dropna (map col g)).

Definition agg (kg : Key * list (RowOf qty amt)) : Agg.RowOf qty amt :=
  let '((c, y, m, n), g) := kg in
  {| Agg.CODIGO_PRODUCTO := c;
     Agg.AÑO := y;
     Agg.MES_NUM := m;
     Agg.MES := n;
     Agg.FECHA_DOCUMENTO := first FECHA_DOCUMENTO g;
     Agg.NOMBRE_PRODUCTO := first NOMBRE_PRODUCTO g;
     Agg.CLASE_CLIENTE := first CLASE_CLIENTE g;
     Agg.CANTIDAD := sum CANTIDAD g;
     Agg.PRECIO_TOTAL_ORIG := sum PRECIO_TOTAL_ORIG g;
     Agg.ESTADO_DOCUMENTO := first ESTADO_DOCUMENTO g |}.

(** [sort_values(['AÑO', 'MES_NUM', 'CODIGO_PRODUCTO'])]: ascending,
    stable on several columns; each row keeps its label. *)
Definition sort_compare (a b : Agg.RowOf qty amt) : comparison :=
  lex (Agg.AÑO a ?= Agg.AÑO b)
      (lex (Agg.MES_NUM a ?= Agg.MES_NUM b)
           (String.compare (Agg.CODIGO_PRODUCTO a) (Agg.CODIGO_PRODUCTO b))).

Definition sort_leb (p q : nat * Agg.RowOf qty amt) : bool :=
  cmp_leb (sort_compare (snd p) (snd q)).

Definition sort_values (df : Indexed (Agg.RowOf qty amt))
  : Indexed (Agg.RowOf qty amt) :=
  Py.sorted sort_leb df.

Definition df_agrupado (df_filtrado : list (RowOf qty amt))
  : Indexed (Agg.RowOf qty amt) :=
  sort_values (reset_index (map agg (groupby df_filtrado))).

Definition select_columns (a : Agg.RowOf qty amt) : Final.RowOf qty amt :=
  {| Final.FECHA_DOCUMENTO := Agg.FECHA_DOCUMENTO a;
     Final.CODIGO_PRODUCTO := Agg.CODIGO_PRODUCTO a;
     Final.NOMBRE_PRODUCTO := Agg.NOMBRE_PRODUCTO a;
     Final.CLASE_CLIENTE := Agg.CLASE_CLIENTE a;
     Final.CANTIDAD := Agg.CANTIDAD a;
     Final.PRECIO_TOTAL_ORIG := Agg.PRECIO_TOTAL_ORIG a;
     Final.ESTADO_DOCUMENTO := Agg.ESTADO_DOCUMENTO a |}.

(** Lines 651-662: the seven columns, then the two zero filters. *)
Definition df_final (df_agrupado : Indexed (Agg.RowOf qty amt))
  : Indexed (Final.RowOf qty amt) :=
  let df := map (fun p => (fst p, select_columns (snd p))) df_agrupado in
  let df := filter (fun p => ne_zero (Final.CANTIDAD (snd p))) df in
  filter (fun p => ne_zero (Final.PRECIO_TOTAL_ORIG (snd p))) df.

End Aggregation.

(** ** The summary figures (lines 664-687) *)

Record SummaryOf (qty amt : Type) : Type := mkSummary
  { s_total_ventas : amt;
    s_max_valor : option amt;
    s_fila_max : Final.RowOf qty amt;
    s_min_valor : option amt;
    s_fila_min : Final.RowOf qty amt;
    s_len : nat }.

Arguments mkSummary {qty amt} _ _ _ _ _ _.
Arguments s_total_ventas {qty amt} _.
Arguments s_max_valor {qty amt} _.
Arguments s_fila_max {qty amt} _.
Arguments s_min_valor {qty amt} _.
Arguments s_fila_min {qty amt} _.
Arguments s_len {qty amt} _.

Abbreviation Summary := (SummaryOf Z Z).

Section SummaryFigures.

Context {qty amt : Type} {Da : Dtype amt}.

(** [df['PRECIO_TOTAL_ORIG'].sum()], in the dtype of the column. *)
Definition total_ventas (df : Indexed (Final.RowOf qty amt)) : amt :=
  series_sum (map (fun p => Final.PRECIO_TOTAL_ORIG (snd p)) df).

(** [Series.idxmax()] and [Series.idxmin()]: the label of the first
    occurrence of the extreme value; [None] is the ValueError they raise
    on an empty column.  The scan keeps its candidate unless a later
    value is strictly better. *)
Fixpoint scan (better : amt -> amt -> bool) (best : nat * Final.RowOf qty amt)
  (rest : Indexed (Final.RowOf qty amt)) : nat * Final.RowOf qty amt :=
  match rest with
  | [] => best
  | p :: rest' =>
      scan better
           (if better (Final.PRECIO_TOTAL_ORIG (snd p))
                      (Final.PRECIO_TOTAL_ORIG (snd best))
            then p else best)
           rest'
  end.

Definition idxmax (df : Indexed (Final.RowOf qty amt)) : option nat :=
  match df with
  | [] => None
  | p :: rest => Some (fst (scan num_gtb p rest))
  end.

Definition idxmin (df : Indexed (Final.RowOf qty amt)) : option nat :=
  match df with
  | [] => None
  | p :: rest => Some (fst (scan num_ltb p rest))
  end.

(** [Series.max()], [Series.min()]; [None] is the NaN of an empty
    column. *)
Definition max_valor (df : Indexed (Final.RowOf qty amt)) : option amt :=
  match df with
  | [] => None
  | p :: rest =>
      Some (fold_left num_max
                      (map (fun q => Final.PRECIO_TOTAL_ORIG (snd q)) rest)
                      (Final.PRECIO_TOTAL_ORIG (snd p)))
  end.

Definition min_valor (df : Indexed (Final.RowOf qty amt)) : option amt :=
  match df with
  | [] => None
  | p :: rest =>
      Some (fold_left num_min
                      (map (fun q => Final.PRECIO_TOTAL_ORIG (snd q)) rest)
                      (Final.PRECIO_TOTAL_ORIG (snd p)))
  end.

(** [df.loc[label]]: the row carrying the label; [None] is KeyError. *)
Definition loc (df : Indexed (Final.RowOf qty amt)) (label : nat)
  : option (Final.RowOf qty amt) :=
  option_map snd (find (fun p => Nat.eqb (fst p) label) df).

(** Lines 664-687 in order; the first statement that raises ends them. *)
Definition summary (df : Indexed (Final.RowOf qty amt))
  : Raises (SummaryOf qty amt) :=
  let total := total_ventas df in
  let vmax := max_valor df in
  match idxmax df with
  | None => Raise ValueError
  | Some imax =>
      match loc df imax with
      | None => Raise KeyError
      | Some fmax =>
          let vmin := min_valor df in
          match idxmin df with
          | None => Raise ValueError
          | Some imin =>
              match loc df imin with
              | None => Raise KeyError
              | Some fmin =>
                  Return (mkSummary total vmax fmax vmin fmin (List.length df))
              end
          end
      end
  end.

End SummaryFigures.

(** ** The suggested file name (lines 838-840) *)

Definition varios_años : string := "varios_a" ++ String "241" "os".

Definition años_str (años : list Z) : string :=
  if (List.length años <=? 3)%nat
  then Py.join "_" (map Py.str_of_int (Py.sorted Z_leb años))
  else varios_años.

Definition meses_str (meses : list string) : string :=
  if (List.length meses <=? 3)%nat
  then Py.join "_" (map (fun m => Py.lower (Py.slice_to 3 m))
                        (Py.sorted str_leb meses))
  else "varios_meses".

Definition nombre_default (sel : Selection) : string :=
  "ventas_" ++ años_str (año_seleccionado sel) ++ "_"
  ++ meses_str (mes_seleccionado sel) ++ ".csv".

(** ** The script from [df_original] to the summary (lines 592-687)

    The page as far as the summary figures, with the file name it will
    suggest (lines 838-840).  What the page does between the two and
    after (the charts, the table by article of lines 813-820, the
    download of lines 842-858) is not part of [script]: [report] says
    that the summary was computed and the page goes on to them. *)

Inductive PageOf (qty amt : Type) : Type :=
| st_stop                 (* line 593: df_original is empty *)
| st_warning_no_data      (* line 860: nothing matches the filters *)
| uncaught (e : Exception) (* a statement of lines 639-687 raised *)
| report (df : Indexed (Final.RowOf qty amt)) (s : SummaryOf qty amt)
         (nombre : string).

Arguments st_stop {qty amt}.
Arguments st_warning_no_data {qty amt}.
Arguments uncaught {qty amt} _.
Arguments report {qty amt} _ _ _.

Abbreviation Page := (PageOf Z Z).

Definition is_empty {A : Type} (df : list A) : bool :=
  match df with [] => true | _ :: _ => false end.

Definition script {qty amt : Type} {Dq : Dtype qty} {Da : Dtype amt}
  (df_original : list (RowOf qty amt)) (sel : Selection) : PageOf qty amt :=
  if is_empty df_original then st_stop
  else
    let filtrado := df_filtrado sel df_original in
    if negb (is_empty filtrado) then
      let final := df_final (df_agrupado filtrado) in
      match summary final with
      | Raise e => uncaught e
      | Return s => report final s (nombre_default sel)
      end
    else st_warning_no_data.

(** ** Vocabulary of the statements *)

(** How reading the content under one encoding ends. *)
Definition fails {DataFrame : Type} (parse : Codec.text -> option DataFrame)
  (content : list byte) (enc : Codec.Encoding) : bool :=
  match read_csv parse enc content with
  | Raise _ => true
  | Return _ => false
  end.

(** It ends in an exception other than UnicodeDecodeError: the second
    [except] clause, which shows a message. *)
Definition noisy {DataFrame : Type} (parse : Codec.text -> option DataFrame)
  (content : list byte) (enc : Codec.Encoding) : bool :=
  match read_csv parse enc content with
  | Raise UnicodeDecodeError => false
  | Raise _ => true
  | Return _ => false
  end.

(** A stand-in for the parser in examples: the table is the decoded text
    itself, and the empty text is rejected, as [pd.read_csv] rejects it
    with EmptyDataError. *)
Definition text_parser (t : Codec.text) : option Codec.text :=
  match t with
  | [] => None
  | _ :: _ => Some t
  end.

(** A server that answers every request with the same response. *)
Definition always (status_code : Z) (content : list byte)
  : string -> Z -> Fetch :=
  fun _ _ => fetched status_code content.

(** The bytes of the four-cell file
<<
a;b
X;1
>>
    where X is the single byte 0x80, the euro sign of cp1252. *)
Definition euro_file : list byte :=
  [x61; x3b; x62; x0a; x80; x3b; x31; x0a].

(** A comparison function that is a total order. *)
Record Order {A : Type} (cmp : A -> A -> comparison) : Prop := mkOrder
  { ord_eq : forall x y, cmp x y = Eq <-> x = y;
    ord_opp : forall x y, cmp y x = CompOpp (cmp x y);
    ord_trans : forall x y z, cmp x y = Lt -> cmp y z = Lt -> cmp x z = Lt }.

(** The comparison of pairs, first component first. *)
Definition pair_compare {A B : Type} (c1 : A -> A -> comparison)
  (c2 : B -> B -> comparison) (p q : A * B) : comparison :=
  lex (c1 (fst p) (fst q)) (c2 (snd p) (snd q)).

(** A row of March 2024 of a retail customer, for examples. *)
Definition march_row (day : Z) (code : string) (nombre : option string)
  (cantidad precio : Z) : Row :=
  {| FECHA_DOCUMENTO := Some (mkTimestamp 2024 3 day);
     CODIGO_PRODUCTO := Some code;
     NOMBRE_PRODUCTO := nombre;
     CLASE_CLIENTE := Some "Minorista";
     CANTIDAD := Some cantidad;
     PRECIO_TOTAL_ORIG := Some precio;
     ESTADO_DOCUMENTO := Some "Emitido";
     AÑO := Some 2024;
     MES_NUM := Some 3;
     MES := Some "March" |}.

(** The selection of the whole of March 2024, retail, with the given
    product codes. *)
Definition march_selection (codes : list string) : Selection :=
  mkSelection [2024] ["March"] codes ["Minorista"].

Section Vocabulary.

Context {qty amt : Type} {Dq : Dtype qty} {Da : Dtype amt}.

(** The three derived columns agree with the date of the row. *)
Definition derived (l : Dates.Locale) (r : RowOf qty amt) : Prop :=
  AÑO r = option_map ts_year (FECHA_DOCUMENTO r)
  /\ MES_NUM r = option_map ts_month (FECHA_DOCUMENTO r)
  /\ MES r = option_map (fun t => Dates.month_name l (ts_month t))
                        (FECHA_DOCUMENTO r).

(** The amount of a row of [df_final]. *)
Definition precio (p : nat * Final.RowOf qty amt) : amt :=
  Final.PRECIO_TOTAL_ORIG (snd p).

(** The group of a row of [df_agrupado], and the three columns it is
    sorted by. *)
Definition akey (a : Agg.RowOf qty amt) : Key :=
  (Agg.CODIGO_PRODUCTO a, Agg.AÑO a, Agg.MES_NUM a, Agg.MES a).

Definition sort_key (a : Agg.RowOf qty amt) : Z * Z * string :=
  (Agg.AÑO a, Agg.MES_NUM a, Agg.CODIGO_PRODUCTO a).

(** Ascending by year, then month number, then product code. *)
Definition ascending (a b : Agg.RowOf qty amt) : Prop :=
  Agg.AÑO a < Agg.AÑO b
  \/ (Agg.AÑO a = Agg.AÑO b
      /\ (Agg.MES_NUM a < Agg.MES_NUM b
          \/ (Agg.MES_NUM a = Agg.MES_NUM b
              /\ String.leb (Agg.CODIGO_PRODUCTO a) (Agg.CODIGO_PRODUCTO b)
                 = true))).

(** The rows the two zero filters let through. *)
Definition kept (p : nat * Agg.RowOf qty amt) : bool :=
  ne_zero (Agg.CANTIDAD (snd p)) && ne_zero (Agg.PRECIO_TOTAL_ORIG (snd p)).

(** The first value present in a column of a group, said without the
    recursion of [first]: the value of a row before which every row lacks
    one; nothing when every row lacks one. *)
Definition first_present {R A : Type} (col : R -> option A) (g : list R)
  (v : option A) : Prop :=
  match v with
  | Some x =>
      exists pre r post,
        g = (pre ++ r :: post)%list
        /\ Forall (fun r' => col r' = None) pre
        /\ col r = Some x
  | None => Forall (fun r' => col r' = None) g
  end.

(** The cells of a number column that are present in a group, in the
    order of the group. *)
Definition cells {num : Type} (col : RowOf qty amt -> option num)
  (g : list (RowOf qty amt)) : list num :=
  dropna (map col g).

(** No cell of the two number columns is missing, as in every table
    whose two number columns are int64: a column with a missing cell is
    float64. *)
Definition numbers_present (r : RowOf qty amt) : Prop :=
  CANTIDAD r <> None /\ PRECIO_TOTAL_ORIG r <> None.

End Vocabulary.

(** The arithmetic sum of a number column over a group, a missing cell
    counting for nothing. *)
Definition or_zero (c : option Z) : Z :=
  match c with Some v => v | None => 0 end.

Definition total (col : Row -> option Z) (g : list Row) : Z :=
  fold_right Z.add 0 (map (fun r => or_zero (col r)) g).

(** A comparison orders the numbers of a list: among them, what is
    better than something better than a third is better than the third,
    and what is better than something a third does not beat is better
    than the third.  The comparisons of int64 order any list; those of
    float64 order any list without NaN. *)
Record Ranks {num : Type} (better : num -> num -> bool) (l : list num)
  : Prop := mkRanks
  { better_trans :
      forall a b c, In a l -> In b l -> In c l ->
                    better a b = true -> better b c = true ->
                    better a c = true;
    better_mixed :
      forall a b c, In a l -> In b l -> In c l ->
                    better a b = true -> better c b = false ->
                    better a c = true }.

(** ** The options of the sidebar (lines 600-623) *)

(** [Series.unique()]: each value once, in the order of first
    appearance. *)
Fixpoint pd_unique {A : Type} (eqb : A -> A -> bool) (l : list A) : list A :=
  match l with
  | [] => []
  | x :: l' => x :: filter (fun y => negb (eqb x y)) (pd_unique eqb l')
  end.

Section Sidebar.

Context {qty amt : Type}.

Definition años (df_original : list (RowOf qty amt)) : list Z :=
  Py.sorted Z_leb (pd_unique Z.eqb (dropna (map AÑO df_original))).

Definition meses (df_original : list (RowOf qty amt)) : list string :=
  Py.sorted str_leb (pd_unique String.eqb (dropna (map MES df_original))).

Definition codigos (df_original : list (RowOf qty amt)) : list string :=
  Py.sorted str_leb
            (pd_unique String.eqb (dropna (map CODIGO_PRODUCTO df_original))).

Definition clases (df_original : list (RowOf qty amt)) : list string :=
  Py.sorted str_leb
            (pd_unique String.eqb (dropna (map CLASE_CLIENTE df_original))).

(** What the four [multiselect] widgets hold before the user touches
    them: [default=años], [default=meses], [default=None],
    [default=clases]. *)
Definition default_selection (df_original : list (RowOf qty amt))
  : Selection :=
  mkSelection (años df_original) (meses df_original) []
              (clases df_original).

End Sidebar.

(** ** The table by article (lines 813-820) *)

Module Rollup.
Record RowOf (qty amt : Type) : Type := mkRow
  { CODIGO_PRODUCTO : string;
    NOMBRE_PRODUCTO : option string;
    CLASE_CLIENTE : option string;
    CANTIDAD : qty;
    PRECIO_TOTAL_ORIG : amt }.

Arguments mkRow {qty amt} _ _ _ _ _.
Arguments CODIGO_PRODUCTO {qty amt} _.
Arguments NOMBRE_PRODUCTO {qty amt} _.
Arguments CLASE_CLIENTE {qty amt} _.
Arguments CANTIDAD {qty amt} _.
Arguments PRECIO_TOTAL_ORIG {qty amt} _.

Abbreviation Row := (RowOf Z Z).
End Rollup.

Section ByArticle.

Context {qty amt : Type} {Dq : Dtype qty} {Da : Dtype amt}.

Definition of_code (c : string) (p : nat * Final.RowOf qty amt) : bool :=
  String.eqb c (Final.CODIGO_PRODUCTO (snd p)).

(** ['first'] and ['sum'] on the rows of [df_final]. *)
Fixpoint first_final {A : Type} (col : Final.RowOf qty amt -> option A)
  (g : Indexed (Final.RowOf qty amt)) : option A :=
  match g with
  | [] => None
  | p :: g' =>
      match col (snd p) with
      | Some v => Some v
      | None => first_final col g'
      end
  end.

Definition sum_final {num : Type} {D : Dtype num}
  (col : Final.RowOf qty amt -> num) (g : Indexed (Final.RowOf qty amt))
  : num :=
  group_sum (map (fun p => col (snd p)) g).

(** [df_final.groupby(['CODIGO_PRODUCTO'])]: the product codes in
    ascending order, each with its rows in the order of [df_final]. *)
Definition groupby_code (df_final : Indexed (Final.RowOf qty amt))
  : list (string * Indexed (Final.RowOf qty amt)) :=
  map (fun c => (c, filter (of_code c) df_final))
      (Py.sorted str_leb
         (unique String.eqb
            (map (fun p => Final.CODIGO_PRODUCTO (snd p)) df_final))).

Definition agg_code (cg : string * Indexed (Final.RowOf qty amt))
  : Rollup.RowOf qty amt :=
  {| Rollup.CODIGO_PRODUCTO := fst cg;
     Rollup.NOMBRE_PRODUCTO := first_final Final.NOMBRE_PRODUCTO (snd cg);
     Rollup.CLASE_CLIENTE := first_final Final.CLASE_CLIENTE (snd cg);
     Rollup.CANTIDAD := sum_final Final.CANTIDAD (snd cg);
     Rollup.PRECIO_TOTAL_ORIG := sum_final Final.PRECIO_TOTAL_ORIG (snd cg) |}.

(** [sort_values(['CANTIDAD'])] sorts by one column with numpy's
    quicksort, which is not stable: the order it gives to rows of equal
    quantity is not fixed by the script, so the sort is left open here
    and the statements about it ask only for what any sort gives. *)
Variable sort_values_cantidad :
  Indexed (Rollup.RowOf qty amt) -> Indexed (Rollup.RowOf qty amt).

Definition df_agrupados (df_final : Indexed (Final.RowOf qty amt))
  : Indexed (Rollup.RowOf qty amt) :=
  let df :=
    sort_values_cantidad (reset_index (map agg_code (groupby_code df_final))) in
  filter (fun p => gt_zero (Rollup.CANTIDAD (snd p))) df.

End ByArticle.

(** A sort by quantity that is stable, for examples. *)
Definition stable_sort_cantidad (df : Indexed Rollup.Row)
  : Indexed Rollup.Row :=
  Py.sorted (fun p q => Z_leb (Rollup.CANTIDAD (snd p))
                              (Rollup.CANTIDAD (snd q))) df.

(** ** The download (lines 842-858) *)

(** [s.endswith(suffix)]. *)
Fixpoint endswith (s suffix : string) : bool :=
  String.eqb s suffix ||
  match s with
  | EmptyString => false
  | String _ s' => endswith s' suffix
  end.

(** The name given to the download button, from what the text input
    holds. *)
Definition file_name (nombre_archivo : string) : string :=
  if negb (endswith nombre_archivo ".csv")
  then nombre_archivo ++ ".csv"
  else nombre_archivo.

(** The codec utf-8 in the other direction: the byte values of one code
    point; [None] for a surrogate or beyond U+10FFFF, which the codec
    refuses to encode. *)
Definition utf8_bytes (cp : N) : option (list N) :=
  (if cp <? 0x80 then Some [cp]
   else if cp <? 0x800 then Some [0xC0 + cp / 64; 0x80 + cp mod 64]
   else if cp <? 0x10000 then
     if (0xD800 <=? cp) && (cp <=? 0xDFFF) then None
     else Some [0xE0 + cp / 4096; 0x80 + (cp / 64) mod 64; 0x80 + cp mod 64]
   else if cp <? 0x110000 then
     Some [0xF0 + cp / 262144; 0x80 + (cp / 4096) mod 64;
           0x80 + (cp / 64) mod 64; 0x80 + cp mod 64]
   else None)%N.

Fixpoint utf8_encode (t : Codec.text) : option (list N) :=
  match t with
  | [] => Some []
  | cp :: t' =>
      match utf8_bytes cp, utf8_encode t' with
      | Some b, Some bs => Some (b ++ bs)%list
      | _, _ => None
      end
  end.

(** The encoding ['utf-8-sig'] of [to_csv]: the byte order mark, then
    the text in utf-8. *)
Definition BOM : list N := [0xEF; 0xBB; 0xBF]%N.

Definition encode_utf_8_sig (t : Codec.text) : option (list N) :=
  option_map (app BOM) (utf8_encode t).

(** ** More vocabulary *)

(** A code point utf-8 can carry. *)
Definition scalar (cp : N) : Prop :=
  (cp < 0xD800 \/ (0xDFFF < cp /\ cp < 0x110000))%N.

(** A byte of the ASCII range. *)
Definition ascii_byte (b : byte) : Prop := (Byte.to_N b < 0x80)%N.

(** The amount and the quantity of a row of [df_agrupado] and of the
    table by article. *)
Definition agg_precio (p : nat * Agg.Row) : Z := Agg.PRECIO_TOTAL_ORIG (snd p).
Definition agg_cantidad (p : nat * Agg.Row) : Z := Agg.CANTIDAD (snd p).

(** The sum of a list of integers. *)
Definition Zsum (l : list Z) : Z := fold_right Z.add 0 l.

(** Every cell of the three columns the default selection looks at is
    present. *)
Definition complete (r : Row) : bool :=
  match AÑO r, MES r, CLASE_CLIENTE r with
  | Some _, Some _, Some _ => true
  | _, _, _ => false
  end.

(** The cells [cargar_datos] leaves as they were read. *)
Definition same_cells {qty amt : Type} (raw : RawRowOf qty amt)
  (r : RowOf qty amt) : Prop :=
  CODIGO_PRODUCTO r = raw_CODIGO_PRODUCTO raw
  /\ NOMBRE_PRODUCTO r = raw_NOMBRE_PRODUCTO raw
  /\ CLASE_CLIENTE r = raw_CLASE_CLIENTE raw
  /\ CANTIDAD r = raw_CANTIDAD raw
  /\ PRECIO_TOTAL_ORIG r = raw_PRECIO_TOTAL_ORIG raw
  /\ ESTADO_DOCUMENTO r = raw_ESTADO_DOCUMENTO raw.

(** The quantity cell of a row read from an int64 column holds 0. *)
Definition zero_quantity (r : RawRow) : bool :=
  match raw_CANTIDAD r with
  | Some 0 => true
  | _ => false
  end.

(** The row is in some group: none of its four key cells is missing. *)
Definition has_key (r : Row) : bool :=
  match key_of r with Some _ => true | None => false end.

(** The row has a product code. *)
Definition has_code (r : Row) : bool :=
  match CODIGO_PRODUCTO r with Some _ => true | None => false end.

(** The label, the group, the summed quantity and the summed amount of
    a row of [df_agrupado]: all of it but the three first values. *)
Definition figures (p : nat * Agg.Row) : nat * (Key * Z * Z) :=
  (fst p, (akey (snd p), Agg.CANTIDAD (snd p), Agg.PRECIO_TOTAL_ORIG (snd p))).

(** The product code, the quantity and the amount of a row of the table
    by article, and the order by quantity. *)
Definition rollup_code (p : nat * Rollup.Row) : string :=
  Rollup.CODIGO_PRODUCTO (snd p).

Definition rollup_cantidad (p : nat * Rollup.Row) : Z :=
  Rollup.CANTIDAD (snd p).

Definition rollup_precio (p : nat * Rollup.Row) : Z :=
  Rollup.PRECIO_TOTAL_ORIG (snd p).

Definition by_cantidad (p q : nat * Rollup.Row) : Prop :=
  rollup_cantidad p <= rollup_cantidad q.

(** The product code and the quantity of a row of [df_final], and the
    rows of [df_final] that carry a given product code, in the order of
    [df_final]. *)
Definition final_code (p : nat * Final.Row) : string :=
  Final.CODIGO_PRODUCTO (snd p).

Definition final_cantidad (p : nat * Final.Row) : Z :=
  Final.CANTIDAD (snd p).

Definition rows_of_code (c : string) (df : Indexed Final.Row)
  : Indexed Final.Row :=
  filter (fun q => String.eqb (final_code q) c) df.

(* ================================================================= *)
(** * Part II. Properties *)
(* ================================================================= *)

(** ** The loader *)

Section LoaderFacts.

Context {DataFrame : Type}.
Variable parse : Codec.text -> option DataFrame.
Variable content : list byte.

Lemma latin1_reads_what_parse_accepts (df : DataFrame) :
  parse (map Byte.to_N content) = Some df ->
  read_csv parse Codec.latin1 content = Return df.
Proof. intros H. unfold read_csv. simpl. now rewrite H. Qed.

Lemma latin1_rejected_by_parse :
  parse (map Byte.to_N content) = None ->
  read_csv parse Codec.latin1 content = Raise OtherException
  /\ read_csv parse Codec.iso_8859_1 content = Raise OtherException.
Proof. intros H. unfold read_csv. simpl. now rewrite H. Qed.

Lemma fails_Return enc df :
  read_csv parse enc content = Return df -> fails parse content enc = false.
Proof. unfold fails. now intros ->. Qed.

(** The loop either stops at the first encoding that reads, or runs
    through the whole list; the log has one error for each noisy
    failure on the way and ends with the closing message. *)
Lemma for_encoding_cases (encs : list Codec.Encoding) :
  (exists pre enc post df,
      encs = (pre ++ enc :: post)%list
      /\ Forall (fun e => fails parse content e = true) pre
      /\ read_csv parse enc content = Return df
      /\ for_encoding parse content encs
         = (Some df,
            (map st_error_with (filter (noisy parse content) pre)
               ++ [st_success_loaded enc])%list))
  \/ (Forall (fun e => fails parse content e = true) encs
      /\ for_encoding parse content encs
         = (None,
            (map st_error_with (filter (noisy parse content) encs)
               ++ [st_error_no_encoding])%list)).
Proof.
  induction encs as [|enc rest IH].
  - right. split; [constructor | reflexivity].
  - destruct (read_csv parse enc content) as [e|df] eqn:R.
    + assert (F : fails parse content enc = true)
        by (unfold fails; now rewrite R).
      assert (N : for_encoding parse content (enc :: rest)
                  = (fst (for_encoding parse content rest),
                     ((if noisy parse content enc
                       then [st_error_with enc] else [])
                        ++ snd (for_encoding parse content rest))%list)).
      { simpl. unfold noisy. rewrite R.
        destruct (for_encoding parse content rest) as [r l].
        destruct e; reflexivity. }
      destruct IH as [(pre & enc' & post & df & E & Fp & Rd & Fe) | [Fa Fe]].
      * left. exists (enc :: pre), enc', post, df.
        repeat split; [now rewrite E | now constructor | exact Rd |].
        rewrite N, Fe. simpl.
        destruct (noisy parse content enc); reflexivity.
      * right. split; [now constructor |].
        rewrite N, Fe. simpl.
        destruct (noisy parse content enc); reflexivity.
    + left. exists [], enc, rest, df.
      repeat split; [constructor | exact R |].
      simpl. now rewrite R.
Qed.

Lemma load_after_fetch (requests_get : string -> Z -> Fetch)
  (url : string) (status_code : Z) :
  requests_get (_ensure_download_param url) 60 = fetched status_code content ->
  raise_for_status status_code = false ->
  load_csv_from_onedrive parse requests_get url
  = (Return (fst (for_encoding parse content encodings)),
     snd (for_encoding parse content encodings)).
Proof.
  intros G S. unfold load_csv_from_onedrive. rewrite G, S.
  now destruct (for_encoding parse content encodings).
Qed.

End LoaderFacts.

(** C10, as amended.  Whatever exception reading under one encoding
    raises, the loop goes on to the next encoding: without a word after
    a decode error, after an error message on the page after any other
    exception.  The loader returns the table of the first encoding that
    reads and, when all four fail, returns [None]; after a fetch that
    succeeded it never raises. *)
Theorem c10_loader_tries_next_encoding :
  forall (DataFrame : Type) (parse : Codec.text -> option DataFrame)
         (content : list byte),
    ((exists pre enc post df,
         encodings = (pre ++ enc :: post)%list
         /\ Forall (fun e => fails parse content e = true) pre
         /\ read_csv parse enc content = Return df
         /\ for_encoding parse content encodings
            = (Some df,
               (map st_error_with (filter (noisy parse content) pre)
                  ++ [st_success_loaded enc])%list))
     \/ (Forall (fun e => fails parse content e = true) encodings
         /\ for_encoding parse content encodings
            = (None,
               (map st_error_with (filter (noisy parse content) encodings)
                  ++ [st_error_no_encoding])%list)))
    /\ (forall (requests_get : string -> Z -> Fetch) (url : string)
               (status_code : Z),
           requests_get (_ensure_download_param url) 60
           = fetched status_code content ->
           raise_for_status status_code = false ->
           load_csv_from_onedrive parse requests_get url
           = (Return (fst (for_encoding parse content encodings)),
              snd (for_encoding parse content encodings))).
Proof.
  intros DataFrame parse content. split.
  - apply for_encoding_cases.
  - intros requests_get url status_code G S.
    exact (load_after_fetch parse content requests_get url status_code G S).
Qed.

(** C10, as stated, fails on the empty file: every encoding decodes it,
    the parser rejects it, and each of the four failures puts an error
    message on the page before the loop goes on. *)
Lemma c10_parse_failure_is_shown :
  read_csv text_parser Codec.latin1 [] = Raise OtherException
  /\ for_encoding text_parser [] encodings
     = (None,
        [st_error_with Codec.latin1; st_error_with Codec.iso_8859_1;
         st_error_with Codec.cp1252; st_error_with Codec.utf_8;
         st_error_no_encoding]).
Proof. split; reflexivity. Qed.

(** C5, as amended.  The encodings are tried in the order latin1,
    iso-8859-1, cp1252, utf-8 and the first whose read raises nothing is
    taken, every encoding before it having failed.  latin1 decodes every
    byte sequence: when the parser accepts the latin1 text the loader
    returns that table, whatever cp1252 or utf-8 would have made of the
    bytes, and the two are tried only after the parser has rejected the
    latin1 text. *)
Theorem c5_latin1_comes_first :
  encodings = [Codec.latin1; Codec.iso_8859_1; Codec.cp1252; Codec.utf_8]
  /\ (forall (DataFrame : Type) (parse : Codec.text -> option DataFrame)
             (content : list byte),
         (exists pre enc post df,
             encodings = (pre ++ enc :: post)%list
             /\ Forall (fun e => fails parse content e = true) pre
             /\ read_csv parse enc content = Return df
             /\ fst (for_encoding parse content encodings) = Some df
             /\ In (st_success_loaded enc)
                   (snd (for_encoding parse content encodings)))
         \/ (Forall (fun e => fails parse content e = true) encodings
             /\ fst (for_encoding parse content encodings) = None))
  /\ (forall content : list byte,
         Codec.decode Codec.latin1 content = Some (map Byte.to_N content))
  /\ (forall (DataFrame : Type) (parse : Codec.text -> option DataFrame)
             (content : list byte) (df : DataFrame),
         parse (map Byte.to_N content) = Some df ->
         for_encoding parse content encodings
         = (Some df, [st_success_loaded Codec.latin1]))
  /\ (forall (DataFrame : Type) (parse : Codec.text -> option DataFrame)
             (content : list byte),
         parse (map Byte.to_N content) = None ->
         for_encoding parse content encodings
         = (fst (for_encoding parse content [Codec.cp1252; Codec.utf_8]),
            st_error_with Codec.latin1 :: st_error_with Codec.iso_8859_1
              :: snd (for_encoding parse content [Codec.cp1252; Codec.utf_8]))).
Proof.
  split; [reflexivity|]. split; [|split; [reflexivity|split]].
  - intros DataFrame parse content.
    destruct (for_encoding_cases parse content encodings)
      as [(pre & enc & post & df & E & F & R & FE) | [F FE]].
    + left. exists pre, enc, post, df. rewrite FE.
      repeat split; trivial.
      apply in_or_app. right. now left.
    + right. now rewrite FE.
  - intros DataFrame parse content df H.
    unfold encodings. cbn [for_encoding].
    now rewrite (latin1_reads_what_parse_accepts parse content df H).
  - intros DataFrame parse content H.
    destruct (latin1_rejected_by_parse parse content H) as [R1 R2].
    unfold encodings.
    change (for_encoding parse content
              (Codec.latin1 :: Codec.iso_8859_1 :: [Codec.cp1252; Codec.utf_8]))
      with (match read_csv parse Codec.latin1 content with
            | Return df => (Some df, [st_success_loaded Codec.latin1])
            | Raise UnicodeDecodeError =>
                for_encoding parse content
                  (Codec.iso_8859_1 :: [Codec.cp1252; Codec.utf_8])
            | Raise _ =>
                let '(r, log) :=
                  for_encoding parse content
                    (Codec.iso_8859_1 :: [Codec.cp1252; Codec.utf_8]) in
                (r, st_error_with Codec.latin1 :: log)
            end).
    rewrite R1.
    change (for_encoding parse content
              (Codec.iso_8859_1 :: [Codec.cp1252; Codec.utf_8]))
      with (match read_csv parse Codec.iso_8859_1 content with
            | Return df => (Some df, [st_success_loaded Codec.iso_8859_1])
            | Raise UnicodeDecodeError =>
                for_encoding parse content [Codec.cp1252; Codec.utf_8]
            | Raise _ =>
                let '(r, log) :=
                  for_encoding parse content [Codec.cp1252; Codec.utf_8] in
                (r, st_error_with Codec.iso_8859_1 :: log)
            end).
    rewrite R2.
    now destruct (for_encoding parse content [Codec.cp1252; Codec.utf_8]).
Qed.

(** A file with a line of cells: the parser accepts its latin1 text. *)
Lemma c5_latin1_comes_first_witness :
  text_parser (map Byte.to_N euro_file) = Some (map Byte.to_N euro_file)
  /\ for_encoding text_parser euro_file encodings
     = (Some (map Byte.to_N euro_file), [st_success_loaded Codec.latin1]).
Proof.
  split; [reflexivity|].
  apply (proj1 (proj2 (proj2 (proj2 c5_latin1_comes_first)))). reflexivity.
Defined.

(** C5, as stated, fails.  No content is decodable under cp1252 only,
    since latin1 decodes everything; and a file that cp1252 reads with a
    euro sign and utf-8 rejects comes back as latin1 read it, with the
    control character 128 in the place of the euro sign 8364. *)
Lemma c5_cp1252_file_is_read_as_latin1 :
  (forall content : list byte, Codec.decode Codec.latin1 content <> None)
  /\ Codec.decode Codec.cp1252 euro_file
     = Some [97; 59; 98; 10; 8364; 59; 49; 10]%N
  /\ Codec.decode Codec.utf_8 euro_file = None
  /\ for_encoding text_parser euro_file encodings
     = (Some [97; 59; 98; 10; 128; 59; 49; 10]%N,
        [st_success_loaded Codec.latin1])
  /\ read_csv text_parser Codec.cp1252 euro_file
     = Return [97; 59; 98; 10; 8364; 59; 49; 10]%N.
Proof.
  split; [discriminate|]. repeat split; reflexivity.
Qed.

Lemma for_encoding_None {DataFrame : Type}
  (parse : Codec.text -> option DataFrame) (content : list byte)
  (encs : list Codec.Encoding) :
  fst (for_encoding parse content encs) = None
  <-> Forall (fun e => fails parse content e = true) encs.
Proof.
  induction encs as [|enc rest IH]; simpl.
  - split; [constructor | reflexivity].
  - unfold fails at 1.
    destruct (read_csv parse enc content) as [e|df] eqn:R.
    + assert (E : fst (match e with
                       | UnicodeDecodeError => for_encoding parse content rest
                       | _ => let '(r, log) := for_encoding parse content rest in
                              (r, st_error_with enc :: log)
                       end) = fst (for_encoding parse content rest)).
      { destruct (for_encoding parse content rest); now destruct e. }
      rewrite E, IH. split.
      * intros H. constructor; [|exact H]. unfold fails. now rewrite R.
      * intros H. now inversion H.
    + simpl. split; [discriminate|].
      intros H. inversion H as [|? ? F _]. unfold fails in F.
      rewrite R in F. discriminate.
Qed.

Lemma cargar_datos_without_table
  (parse : Codec.text -> option (list RawRow))
  (requests_get : string -> Z -> Fetch) (l : Dates.Locale) :
  (forall df, fst (load_csv_from_onedrive parse requests_get onedrive_url)
              <> Return (Some df)) ->
  cargar_datos parse requests_get l = [].
Proof.
  intros H. unfold cargar_datos.
  destruct (fst (load_csv_from_onedrive parse requests_get onedrive_url))
    as [e|[df|]]; try reflexivity.
  now destruct (H df).
Qed.

(** C6, as amended.  The loader raises exactly when the network call
    fails: [requests.get], called with a timeout of 60 seconds, raises,
    or the status is a 4xx or 5xx.  When every encoding of the list fails
    to read the content, by a decode error or by any other exception, it
    does not raise: it returns [None].  Either way [cargar_datos] ends
    with the empty table and the script stops there. *)
Theorem c6_loader_failure_modes :
  forall (parse : Codec.text -> option (list RawRow))
         (requests_get : string -> Z -> Fetch) (url : string),
    ((exists e, fst (load_csv_from_onedrive parse requests_get url) = Raise e)
     <-> (requests_get (_ensure_download_param url) 60 = fetch_raised
          \/ exists status_code content,
               requests_get (_ensure_download_param url) 60
               = fetched status_code content
               /\ raise_for_status status_code = true))
    /\ (fst (load_csv_from_onedrive parse requests_get url) = Return None
        <-> exists status_code content,
              requests_get (_ensure_download_param url) 60
              = fetched status_code content
              /\ raise_for_status status_code = false
              /\ Forall (fun e => fails parse content e = true) encodings)
    /\ (forall l : Dates.Locale,
           (forall df,
               fst (load_csv_from_onedrive parse requests_get onedrive_url)
               <> Return (Some df)) ->
           cargar_datos parse requests_get l = []
           /\ forall sel, script (cargar_datos parse requests_get l) sel
                          = st_stop).
Proof.
  intros parse requests_get url.
  unfold load_csv_from_onedrive at 1 2.
  destruct (requests_get (_ensure_download_param url) 60)
    as [|status_code content] eqn:G.
  - split; [|split].
    + split; [now left | intros _; now exists RequestException].
    + split; [discriminate | intros (s & c & E & _); discriminate].
    + intros l H. rewrite (cargar_datos_without_table parse requests_get l H).
      split; reflexivity.
  - destruct (raise_for_status status_code) eqn:S.
    + split; [|split].
      * split.
        -- intros _. right. now exists status_code, content.
        -- intros _. now exists (HTTPError status_code).
      * split; [discriminate|].
        intros (s & c & E & S' & _). inversion E; subst. congruence.
      * intros l H. rewrite (cargar_datos_without_table parse requests_get l H).
        split; reflexivity.
    + pose proof (for_encoding_None parse content encodings) as N.
      destruct (for_encoding parse content encodings) as [r log] eqn:FE.
      simpl in N. simpl. split; [|split].
      * split.
        -- intros [e E]. discriminate.
        -- intros [E | (s & c & E & S')]; [discriminate|].
           inversion E; subst. congruence.
      * split.
        -- intros E. exists status_code, content.
           repeat split; trivial. apply N. congruence.
        -- intros (s & c & E & _ & F). inversion E; subst.
           apply N in F. now rewrite F.
      * intros l H. rewrite (cargar_datos_without_table parse requests_get l H).
        split; reflexivity.
Qed.

(** C6, as stated, fails on an empty file served with status 200: the
    network call succeeds, no encoding raises a decode error, and the
    loader returns the null value [None]. *)
Lemma c6_empty_file_returns_None :
  fst (load_csv_from_onedrive text_parser (always 200 []) onedrive_url)
  = Return None
  /\ raise_for_status 200 = false
  /\ Forall (fun e => read_csv text_parser e [] = Raise OtherException)
            encodings.
Proof.
  split; [reflexivity|]. split; [reflexivity|].
  repeat constructor.
Qed.

(** ** Orders and sorting *)

Lemma Z_order : Order Z.compare.
Proof.
  constructor.
  - intros x y. apply Z.compare_eq_iff.
  - intros x y. apply Z.compare_antisym.
  - intros x y z. rewrite !Z.compare_lt_iff. lia.
Qed.

Lemma str_order : Order String.compare.
Proof.
  constructor.
  - intros x y. apply String_as_OT.cmp_eq.
  - intros x y. rewrite (String.compare_antisym x y).
    now rewrite CompOpp_involutive.
  - intros x y z H1 H2.
    apply String_as_OT.cmp_lt in H1. apply String_as_OT.cmp_lt in H2.
    apply String_as_OT.cmp_lt. eapply String_as_OT.lt_trans; eassumption.
Qed.

Lemma Order_ext {A : Type} (c c' : A -> A -> comparison) :
  (forall x y, c x y = c' x y) -> Order c -> Order c'.
Proof.
  intros E [He Ho Ht]. constructor.
  - intros x y. rewrite <- E. apply He.
  - intros x y. rewrite <- !E. apply Ho.
  - intros x y z. rewrite <- !E. apply Ht.
Qed.

Lemma pair_order {A B : Type} (c1 : A -> A -> comparison)
  (c2 : B -> B -> comparison) :
  Order c1 -> Order c2 -> Order (pair_compare c1 c2).
Proof.
  intros [He1 Ho1 Ht1] [He2 Ho2 Ht2]. constructor.
  - intros [a b] [a' b']. unfold pair_compare, lex. simpl.
    destruct (c1 a a') eqn:C1.
    + apply He1 in C1. subst a'. rewrite He2.
      split; [now intros -> | now inversion 1].
    + split; [discriminate|]. inversion 1; subst.
      assert (c1 a' a' = Eq) by now apply He1. congruence.
    + split; [discriminate|]. inversion 1; subst.
      assert (c1 a' a' = Eq) by now apply He1. congruence.
  - intros [a b] [a' b']. unfold pair_compare, lex. simpl.
    rewrite (Ho1 a a'), (Ho2 b b').
    now destruct (c1 a a').
  - intros [a b] [a' b'] [a'' b'']. unfold pair_compare, lex. simpl.
    destruct (c1 a a') eqn:C1; destruct (c1 a' a'') eqn:C2;
      try discriminate.
    + apply He1 in C1. apply He1 in C2. subst.
      assert (E : c1 a'' a'' = Eq) by now apply He1.
      rewrite E. apply Ht2.
    + apply He1 in C1. subst. now rewrite C2.
    + apply He1 in C2. subst. now rewrite C1.
    + now rewrite (Ht1 _ _ _ C1 C2).
Qed.

Lemma lex_assoc (a b c : comparison) : lex (lex a b) c = lex a (lex b c).
Proof. now destruct a. Qed.

Section OrderFacts.

Context {A B : Type} (cmp : B -> B -> comparison) (f : A -> B).
Hypothesis O : Order cmp.

Lemma cmp_refl x : cmp x x = Eq.
Proof. now apply (ord_eq cmp O). Qed.

Lemma leb_total_on x y :
  cmp_leb (cmp (f x) (f y)) = true \/ cmp_leb (cmp (f y) (f x)) = true.
Proof.
  rewrite (ord_opp cmp O (f x) (f y)).
  destruct (cmp (f x) (f y)); simpl; auto.
Qed.

Lemma leb_trans_on x y z :
  cmp_leb (cmp (f x) (f y)) = true ->
  cmp_leb (cmp (f y) (f z)) = true ->
  cmp_leb (cmp (f x) (f z)) = true.
Proof.
  destruct (cmp (f x) (f y)) eqn:C1; try discriminate;
    destruct (cmp (f y) (f z)) eqn:C2; try discriminate; intros _ _.
  - apply (ord_eq cmp O) in C1. rewrite C1. now rewrite C2.
  - apply (ord_eq cmp O) in C1. rewrite C1. now rewrite C2.
  - apply (ord_eq cmp O) in C2. rewrite <- C2. now rewrite C1.
  - now rewrite (ord_trans cmp O _ _ _ C1 C2).
Qed.

End OrderFacts.

Section SortedFacts.

Context {A : Type} (leb : A -> A -> bool).
Hypothesis leb_total : forall x y, leb x y = true \/ leb y x = true.
Hypothesis leb_trans :
  forall x y z, leb x y = true -> leb y z = true -> leb x z = true.

Lemma insert_perm x l : Permutation (x :: l) (Py.insert leb x l).
Proof.
  induction l as [|y l IH]; simpl.
  - apply Permutation_refl.
  - destruct (leb x y).
    + apply Permutation_refl.
    + eapply perm_trans; [apply perm_swap|]. now apply perm_skip.
Qed.

Lemma sorted_perm l : Permutation l (Py.sorted leb l).
Proof.
  induction l as [|x l IH]; simpl.
  - apply perm_nil.
  - eapply perm_trans; [|apply insert_perm]. now apply perm_skip.
Qed.

Lemma sorted_In x l : In x (Py.sorted leb l) <-> In x l.
Proof.
  split; apply Permutation_in;
    [apply Permutation_sym|]; apply sorted_perm.
Qed.

Lemma insert_sorted x l :
  StronglySorted (fun a b => leb a b = true) l ->
  StronglySorted (fun a b => leb a b = true) (Py.insert leb x l).
Proof.
  induction 1 as [|y l S IH F]; simpl.
  - repeat constructor.
  - destruct (leb x y) eqn:L.
    + constructor; [now constructor|].
      constructor; [exact L|].
      rewrite Forall_forall in *. intros z Hz.
      eapply leb_trans; [exact L | now apply F].
    + constructor; [exact IH|].
      apply (Permutation_Forall (insert_perm x l)).
      constructor; [|exact F].
      destruct (leb_total x y) as [H|H]; [congruence | exact H].
Qed.

Lemma sorted_sorted l :
  StronglySorted (fun a b => leb a b = true) (Py.sorted leb l).
Proof.
  induction l as [|x l IH]; simpl; [constructor | now apply insert_sorted].
Qed.

End SortedFacts.

Lemma StronglySorted_impl {A : Type} (R R' : A -> A -> Prop) (l : list A) :
  (forall x y, R x y -> R' x y) -> StronglySorted R l -> StronglySorted R' l.
Proof.
  intros H. induction 1 as [|x l S IH F]; constructor; trivial.
  revert F. apply Forall_impl. apply H.
Qed.

Lemma StronglySorted_filter {A : Type} (R : A -> A -> Prop)
  (keep : A -> bool) (l : list A) :
  StronglySorted R l -> StronglySorted R (filter keep l).
Proof.
  induction 1 as [|x l S IH F]; simpl; [constructor|].
  destruct (keep x); [|exact IH].
  constructor; [exact IH|].
  rewrite Forall_forall in *. intros y Hy. apply F.
  now apply filter_In in Hy.
Qed.

Lemma filter_andb {A : Type} (f g : A -> bool) (l : list A) :
  filter g (filter f l) = filter (fun x => f x && g x) l.
Proof.
  induction l as [|x l IH]; simpl; [reflexivity|].
  destruct (f x); simpl; [destruct (g x)|]; now rewrite IH.
Qed.

(** ** The filters *)

Lemma isin_spec {A : Type} (eqb : A -> A -> bool) (cell : option A)
  (values : list A) :
  (forall x y, eqb x y = true <-> x = y) ->
  isin eqb cell values = true <-> exists x, cell = Some x /\ In x values.
Proof.
  intros E. destruct cell as [x|]; simpl.
  - rewrite existsb_exists. split.
    + intros (y & Hy & Hxy). apply E in Hxy. subst. now exists y.
    + intros (y & Hy & Hin). inversion Hy; subst.
      exists y. split; [exact Hin | now apply E].
  - split; [discriminate | intros (x & Hx & _); discriminate].
Qed.

Lemma truthy_false {A : Type} (l : list A) : Py.truthy l = false <-> l = [].
Proof. destruct l; simpl; split; congruence. Qed.

Section FilterFacts.

Context {qty amt : Type}.

Lemma df_filtrado_as_filter (sel : Selection) (df : list (RowOf qty amt)) :
  df_filtrado sel df
  = filter (fun r =>
              isin Z.eqb (AÑO r) (año_seleccionado sel)
              && isin String.eqb (MES r) (mes_seleccionado sel)
              && (negb (Py.truthy (codigo_seleccionado sel))
                  || isin String.eqb (CODIGO_PRODUCTO r)
                                     (codigo_seleccionado sel))
              && isin String.eqb (CLASE_CLIENTE r) (clase_seleccionada sel))
           df.
Proof.
  unfold df_filtrado.
  destruct (Py.truthy (codigo_seleccionado sel));
    rewrite !filter_andb; apply filter_ext; intros r;
    destruct (isin Z.eqb (AÑO r) (año_seleccionado sel)),
      (isin String.eqb (MES r) (mes_seleccionado sel)),
      (isin String.eqb (CODIGO_PRODUCTO r) (codigo_seleccionado sel)),
      (isin String.eqb (CLASE_CLIENTE r) (clase_seleccionada sel));
    reflexivity.
Qed.

Lemma df_filtrado_In (sel : Selection) (df : list (RowOf qty amt))
  (r : RowOf qty amt) :
  In r (df_filtrado sel df)
  <-> In r df
      /\ (exists y, AÑO r = Some y /\ In y (año_seleccionado sel))
      /\ (exists m, MES r = Some m /\ In m (mes_seleccionado sel))
      /\ (codigo_seleccionado sel = []
          \/ exists c, CODIGO_PRODUCTO r = Some c
                       /\ In c (codigo_seleccionado sel))
      /\ (exists c, CLASE_CLIENTE r = Some c
                    /\ In c (clase_seleccionada sel)).
Proof.
  rewrite df_filtrado_as_filter, filter_In, !andb_true_iff, orb_true_iff,
    negb_true_iff, truthy_false.
  rewrite (isin_spec Z.eqb _ _ Z.eqb_eq).
  rewrite !(isin_spec String.eqb _ _ String.eqb_eq).
  tauto.
Qed.

End FilterFacts.

(** C3.  The four filters together keep exactly the rows that pass the
    year, the month and the customer-class test and, when product codes
    are selected, the product-code test; with no product code selected
    that test is left out.  The kept rows stay in the order of the table.
    On two rows coded A and B, no code selected keeps both and the
    selection of A keeps the row coded A. *)
Theorem c3_filter_is_conjunction :
  forall (sel : Selection) (df_original : list Row),
    df_filtrado sel df_original
    = filter (fun r =>
                isin Z.eqb (AÑO r) (año_seleccionado sel)
                && isin String.eqb (MES r) (mes_seleccionado sel)
                && (negb (Py.truthy (codigo_seleccionado sel))
                    || isin String.eqb (CODIGO_PRODUCTO r)
                                       (codigo_seleccionado sel))
                && isin String.eqb (CLASE_CLIENTE r) (clase_seleccionada sel))
             df_original
    /\ (forall r,
          In r (df_filtrado sel df_original)
          <-> In r df_original
              /\ (exists y, AÑO r = Some y /\ In y (año_seleccionado sel))
              /\ (exists m, MES r = Some m /\ In m (mes_seleccionado sel))
              /\ (codigo_seleccionado sel = []
                  \/ exists c, CODIGO_PRODUCTO r = Some c
                               /\ In c (codigo_seleccionado sel))
              /\ (exists c, CLASE_CLIENTE r = Some c
                            /\ In c (clase_seleccionada sel)))
    /\ df_filtrado (march_selection [])
                   [march_row 5 "A" None 1 10; march_row 6 "B" None 1 10]
       = [march_row 5 "A" None 1 10; march_row 6 "B" None 1 10]
    /\ df_filtrado (march_selection ["A"])
                   [march_row 5 "A" None 1 10; march_row 6 "B" None 1 10]
       = [march_row 5 "A" None 1 10].
Proof.
  intros sel df.
  split; [apply df_filtrado_as_filter|].
  split; [apply df_filtrado_In|].
  split; reflexivity.
Qed.

(** ** The suggested file name *)

Lemma Z_leb_le x y : Z_leb x y = true <-> x <= y.
Proof.
  unfold Z_leb, cmp_leb. destruct (Z.compare_spec x y); split; intros;
    try discriminate; try reflexivity; lia.
Qed.

Lemma Z_leb_total x y : Z_leb x y = true \/ Z_leb y x = true.
Proof. rewrite !Z_leb_le. lia. Qed.

Lemma Z_leb_trans x y z :
  Z_leb x y = true -> Z_leb y z = true -> Z_leb x z = true.
Proof. rewrite !Z_leb_le. lia. Qed.

Lemma str_leb_total x y : str_leb x y = true \/ str_leb y x = true.
Proof. exact (leb_total_on String.compare (fun s => s) str_order x y). Qed.

Lemma str_leb_trans x y z :
  str_leb x y = true -> str_leb y z = true -> str_leb x z = true.
Proof. exact (leb_trans_on String.compare (fun s => s) str_order x y z). Qed.

(** C9, as amended.  The suggested name is ventas_Y_M.csv.  With at most
    three years selected, Y is their decimal writings in ascending order
    joined by underscores, otherwise the token varios_años.  With at most
    three months selected, M is the selected names in ascending string
    order, each cut to its first three characters and put in lower case,
    joined by underscores, otherwise the token varios_meses.  The name
    depends on the two selections only. *)
Theorem c9_suggested_name :
  forall sel : Selection,
    (exists Y M,
        nombre_default sel = "ventas_" ++ Y ++ "_" ++ M ++ ".csv"
        /\ (((List.length (año_seleccionado sel) <= 3)%nat
             /\ exists ys,
                  Permutation (año_seleccionado sel) ys
                  /\ StronglySorted Z.le ys
                  /\ Y = Py.join "_" (map Py.str_of_int ys))
            \/ ((3 < List.length (año_seleccionado sel))%nat
                /\ Y = varios_años))
        /\ (((List.length (mes_seleccionado sel) <= 3)%nat
             /\ exists ms,
                  Permutation (mes_seleccionado sel) ms
                  /\ StronglySorted (fun a b => String.leb a b = true) ms
                  /\ M = Py.join "_"
                           (map (fun m => Py.lower (Py.slice_to 3 m)) ms))
            \/ ((3 < List.length (mes_seleccionado sel))%nat
                /\ M = "varios_meses")))
    /\ (forall sel' : Selection,
          año_seleccionado sel' = año_seleccionado sel ->
          mes_seleccionado sel' = mes_seleccionado sel ->
          nombre_default sel' = nombre_default sel).
Proof.
  intros sel. split.
  - exists (años_str (año_seleccionado sel)),
           (meses_str (mes_seleccionado sel)).
    split; [reflexivity|]. split.
    + unfold años_str.
      destruct (Nat.leb_spec (List.length (año_seleccionado sel)) 3).
      * left. split; [assumption|].
        exists (Py.sorted Z_leb (año_seleccionado sel)).
        split; [apply sorted_perm|]. split; [|reflexivity].
        apply StronglySorted_impl
          with (R := fun a b => Z_leb a b = true).
        -- intros x y. apply Z_leb_le.
        -- apply sorted_sorted; [apply Z_leb_total | apply Z_leb_trans].
      * right. now split.
    + unfold meses_str.
      destruct (Nat.leb_spec (List.length (mes_seleccionado sel)) 3).
      * left. split; [assumption|].
        exists (Py.sorted str_leb (mes_seleccionado sel)).
        split; [apply sorted_perm|]. split; [|reflexivity].
        apply (sorted_sorted str_leb str_leb_total str_leb_trans).
      * right. now split.
  - intros sel' Ha Hm. unfold nombre_default. now rewrite Ha, Hm.
Qed.

(** C9, as stated, fails on the months: the selection of March 2024
    suggests ventas_2024_mar.csv, not the name with the literal value
    March in it. *)
Lemma c9_month_is_cut_and_lowered :
  nombre_default (march_selection []) = "ventas_2024_mar.csv"
  /\ nombre_default (march_selection [])
     <> "ventas_" ++ Py.join "_" (map Py.str_of_int [2024]) ++ "_"
        ++ Py.join "_" ["March"] ++ ".csv".
Proof. split; [reflexivity | discriminate]. Qed.

(** ** The normaliser *)

Lemma parse_column_length fmt col ts :
  Dates.parse_column fmt col = Some ts -> List.length ts = List.length col.
Proof.
  revert ts. induction col as [|[x|] col IH]; simpl; intros ts H.
  - now inversion H.
  - destruct (Dates.strptime fmt x); [|discriminate].
    destruct (Dates.parse_column fmt col) as [ts'|]; [|discriminate].
    inversion H; subst. simpl. f_equal. now apply IH.
  - destruct (Dates.parse_column fmt col) as [ts'|]; [|discriminate].
    inversion H; subst. simpl. f_equal. now apply IH.
Qed.

Lemma to_datetime_length dayfirst col ts :
  Dates.to_datetime dayfirst col = Some ts ->
  List.length ts = List.length col.
Proof.
  unfold Dates.to_datetime.
  destruct (Dates.first_text col) as [s0|].
  - destruct (Dates.guess_datetime_format dayfirst s0); [|discriminate].
    apply parse_column_length.
  - intros H. inversion H. apply length_map.
Qed.

Lemma map_fst_combine {A B : Type} (l : list A) (l' : list B) :
  List.length l = List.length l' -> map fst (combine l l') = l.
Proof.
  revert l'. induction l as [|x l IH]; intros [|y l'] H; simpl in *;
    try discriminate; [reflexivity|].
  f_equal. apply IH. now inversion H.
Qed.

Lemma map_snd_combine {A B : Type} (l : list A) (l' : list B) :
  List.length l = List.length l' -> map snd (combine l l') = l'.
Proof.
  revert l'. induction l as [|x l IH]; intros [|y l'] H; simpl in *;
    try discriminate; [reflexivity|].
  f_equal. apply IH. now inversion H.
Qed.

Lemma add_date_columns_derived {qty amt : Type} l (r : RawRowOf qty amt)
  fecha :
  derived l (add_date_columns l r fecha).
Proof. repeat split. Qed.

Lemma Forall2_map_combine {A B C : Type} (P : A -> C -> Prop)
  (f : A * B -> C) (l : list A) (l' : list B) :
  List.length l = List.length l' ->
  (forall x y, P x (f (x, y))) ->
  Forall2 P l (map f (combine l l')).
Proof.
  intros H Hf. revert l' H.
  induction l as [|x l IH]; intros [|y l'] H; simpl in *;
    try discriminate; constructor; auto.
Qed.

Section NormalizeFacts.

Context {qty amt : Type} {Dq : Dtype qty}.
Variable to_datetime :
  list (option string) -> option (list (option Timestamp)).
Hypothesis same_length :
  forall col ts, to_datetime col = Some ts -> List.length ts = List.length col.

(** What lines 572-577 do to a loaded table when the parser of dates
    returns: the rows [CANTIDAD != 0] lets through are kept in their
    order with their cells, their dates are what the parser made of
    their date column, and year, month number and month name are those
    of the parsed date. *)
Lemma normalize_with_rows l (df : list (RawRowOf qty amt)) out :
  normalize_with to_datetime l df = Some out ->
  to_datetime
    (map raw_FECHA_DOCUMENTO (filter (fun r => ne0 (raw_CANTIDAD r)) df))
  = Some (map FECHA_DOCUMENTO out)
  /\ Forall2 same_cells (filter (fun r => ne0 (raw_CANTIDAD r)) df) out
  /\ Forall (derived l) out.
Proof.
  unfold normalize_with.
  set (df1 := filter (fun r => ne0 (raw_CANTIDAD r)) df).
  destruct (to_datetime (map raw_FECHA_DOCUMENTO df1))
    as [fechas|] eqn:T; [|discriminate].
  intros H. inversion H; subst out; clear H.
  apply same_length in T. rewrite length_map in T.
  split; [|split].
  - f_equal. rewrite map_map. simpl.
    rewrite <- (map_snd_combine df1 fechas) at 1 by congruence.
    reflexivity.
  - apply Forall2_map_combine; [congruence|].
    intros x y. repeat split.
  - apply Forall_forall. intros r Hr.
    apply in_map_iff in Hr. destruct Hr as (p0 & E & _). subst r.
    apply add_date_columns_derived.
Qed.

End NormalizeFacts.

(** The table [cargar_datos] returns has its three derived columns in
    agreement with its dates. *)
Lemma cargar_datos_derived {qty amt : Type} {Dq : Dtype qty}
  (parse : Codec.text -> option (list (RawRowOf qty amt))) requests_get l :
  Forall (derived l) (cargar_datos parse requests_get l).
Proof.
  unfold cargar_datos.
  destruct (fst (load_csv_from_onedrive parse requests_get onedrive_url))
    as [e|[df|]]; try constructor.
  destruct (normalize l df) as [out|] eqn:N; [|constructor].
  apply (normalize_with_rows _ (to_datetime_length false)) in N.
  apply N.
Qed.

(** What [cargar_datos] does to a loaded table when no date is rejected:
    the rows with quantity 0 are gone and nothing else, no row is added,
    the other columns are untouched, and year, month number and month
    name are those of the parsed date. *)
Lemma normalize_spec l (df : list RawRow) (out : list Row) :
  normalize l df = Some out ->
  map CANTIDAD out = map raw_CANTIDAD (filter (fun r => ne0 (raw_CANTIDAD r)) df)
  /\ map CODIGO_PRODUCTO out
     = map raw_CODIGO_PRODUCTO (filter (fun r => ne0 (raw_CANTIDAD r)) df)
  /\ (List.length out <= List.length df)%nat
  /\ Forall (fun r => CANTIDAD r <> Some 0) out
  /\ Forall (derived l) out.
Proof.
  unfold normalize, normalize_with.
  set (df1 := filter (fun r => ne0 (raw_CANTIDAD r)) df).
  destruct (Dates.to_datetime false (map raw_FECHA_DOCUMENTO df1))
    as [fechas|] eqn:T; [|discriminate].
  intros H. inversion H; subst out; clear H.
  apply to_datetime_length in T. rewrite length_map in T.
  assert (Q : map CANTIDAD
                (map (fun p => add_date_columns l (fst p) (snd p))
                     (combine df1 fechas))
              = map raw_CANTIDAD df1).
  { rewrite map_map. simpl.
    rewrite <- (map_fst_combine df1 fechas) at 2 by congruence.
    now rewrite map_map. }
  split; [exact Q|]. split; [|split; [|split]].
  - rewrite map_map. simpl.
    rewrite <- (map_fst_combine df1 fechas) at 2 by congruence.
    now rewrite map_map.
  - rewrite length_map, length_combine, T, Nat.min_id.
    apply filter_length_le.
  - apply Forall_forall. intros r Hr.
    assert (I : In (CANTIDAD r) (map raw_CANTIDAD df1)).
    { rewrite <- Q. now apply in_map. }
    apply in_map_iff in I. destruct I as (r0 & E & I0).
    apply filter_In in I0. destruct I0 as [_ N].
    rewrite <- E. intros Z0. rewrite Z0 in N. discriminate.
  - apply Forall_forall. intros r Hr.
    apply in_map_iff in Hr. destruct Hr as (p0 & E & _). subst r.
    apply add_date_columns_derived.
Qed.

(** C7 at the failing input.  A table whose one row is dated 03/04/2024:
    [cargar_datos] leaves [dayfirst] at its default, so the text is read
    month first, as 4 March 2024, and the row gets month number 3; read
    day first, as the claim asks, the same text is 3 April 2024. *)
Lemma c7_ambiguous_date_is_read_month_first :
  normalize Dates.C_locale
    [mkRawRow (Some "03/04/2024") (Some "P1") (Some "Producto")
              (Some "Minorista") (Some 2) (Some 100) (Some "Emitido")]
  = Some [{| FECHA_DOCUMENTO := Some (mkTimestamp 2024 3 4);
             CODIGO_PRODUCTO := Some "P1";
             NOMBRE_PRODUCTO := Some "Producto";
             CLASE_CLIENTE := Some "Minorista";
             CANTIDAD := Some 2;
             PRECIO_TOTAL_ORIG := Some 100;
             ESTADO_DOCUMENTO := Some "Emitido";
             AÑO := Some 2024;
             MES_NUM := Some 3;
             MES := Some "March" |}]
  /\ Dates.to_datetime true [Some "03/04/2024"]
     = Some [Some (mkTimestamp 2024 4 3)].
Proof. split; reflexivity. Qed.

(** ** int64 arithmetic *)

Lemma wrap64_range z : - 2 ^ 63 <= wrap64 z < 2 ^ 63.
Proof.
  unfold wrap64.
  pose proof (Z.mod_pos_bound (z + 2 ^ 63) (2 ^ 64) ltac:(lia)). lia.
Qed.

Lemma wrap64_small z : - 2 ^ 63 <= z < 2 ^ 63 -> wrap64 z = z.
Proof.
  intros H. unfold wrap64. rewrite Z.mod_small; lia.
Qed.

Lemma wrap64_add_l a b : wrap64 (wrap64 a + b) = wrap64 (a + b).
Proof.
  unfold wrap64. f_equal.
  replace ((a + 2 ^ 63) mod 2 ^ 64 - 2 ^ 63 + b + 2 ^ 63)
    with ((a + 2 ^ 63) mod 2 ^ 64 + b) by lia.
  rewrite Z.add_mod_idemp_l by lia. f_equal. lia.
Qed.

Lemma wrap64_add_r a b : wrap64 (a + wrap64 b) = wrap64 (a + b).
Proof. rewrite (Z.add_comm a), wrap64_add_l. f_equal. lia. Qed.

Lemma fold_add64 l : forall a,
  fold_left add64 l (wrap64 a) = wrap64 (a + fold_right Z.add 0 l).
Proof.
  induction l as [|x l IH]; intros a; simpl.
  - now rewrite Z.add_0_r.
  - unfold add64 at 2. rewrite wrap64_add_l, IH. f_equal. lia.
Qed.

(** The int64 sum of a column is its arithmetic sum brought back into
    the range of int64. *)
Lemma sum64_wrap l : sum64 l = wrap64 (fold_right Z.add 0 l).
Proof.
  unfold sum64. change 0 with (wrap64 0) at 1. now rewrite fold_add64.
Qed.

Lemma gtb_ranks l : Ranks Z.gtb l.
Proof.
  constructor; intros a b c _ _ _.
  - rewrite !Z.gtb_ltb, !Z.ltb_lt. lia.
  - rewrite !Z.gtb_ltb, Z.ltb_ge, !Z.ltb_lt. lia.
Qed.

Lemma ltb_ranks l : Ranks Z.ltb l.
Proof.
  constructor; intros a b c _ _ _.
  - rewrite !Z.ltb_lt. lia.
  - rewrite Z.ltb_ge, !Z.ltb_lt. lia.
Qed.

Lemma fold_left_max (l : list Z) :
  forall a v, Forall (fun x => x <= v) (a :: l) -> In v (a :: l) ->
              fold_left Z.max l a = v.
Proof.
  induction l as [|x l IH]; intros a v F I; simpl.
  - destruct I as [I|[]]. exact I.
  - inversion F as [|? ? Fa F']; subst. inversion F' as [|? ? Fx Fl]; subst.
    apply IH.
    + constructor; [lia | exact Fl].
    + destruct I as [I|[I|I]]; [left; lia | left; lia | now right].
Qed.

Lemma fold_left_min (l : list Z) :
  forall a v, Forall (fun x => v <= x) (a :: l) -> In v (a :: l) ->
              fold_left Z.min l a = v.
Proof.
  induction l as [|x l IH]; intros a v F I; simpl.
  - destruct I as [I|[]]. exact I.
  - inversion F as [|? ? Fa F']; subst. inversion F' as [|? ? Fx Fl]; subst.
    apply IH.
    + constructor; [lia | exact Fl].
    + destruct I as [I|[I|I]]; [left; lia | left; lia | now right].
Qed.

(** ** The summary figures *)

Section Scan.

Context {qty amt : Type}.
Variable better : amt -> amt -> bool.
Variable dom : list amt.
Hypothesis ranks : Ranks better dom.

(** The scan ends on the first of the best rows: it beats every row
    before it and no row after it beats it. *)
Lemma scan_first_best (rest : Indexed (Final.RowOf qty amt)) :
  forall best pre0 post0,
    incl (map precio (pre0 ++ best :: post0 ++ rest)%list) dom ->
    Forall (fun q => better (precio best) (precio q) = true) pre0 ->
    Forall (fun q => better (precio q) (precio best) = false) post0 ->
    exists pre post,
      (pre0 ++ best :: post0 ++ rest)%list
      = (pre ++ scan better best rest :: post)%list
      /\ Forall (fun q => better (precio (scan better best rest)) (precio q)
                          = true) pre
      /\ Forall (fun q => better (precio q) (precio (scan better best rest))
                          = false) post.
Proof.
  induction rest as [|p rest IH]; intros best pre0 post0 Hin Hpre Hpost.
  - exists pre0, post0. rewrite app_nil_r. now repeat split.
  - assert (Dall : forall q, In q (pre0 ++ best :: post0 ++ p :: rest)%list ->
                             In (precio q) dom).
    { intros q I. apply Hin. now apply in_map. }
    assert (Dbest : In (precio best) dom).
    { apply Dall. apply in_or_app. right. now left. }
    assert (Dp : In (precio p) dom).
    { apply Dall. apply in_or_app. right. right.
      apply in_or_app. right. now left. }
    simpl. fold (precio p). fold (precio best).
    destruct (better (precio p) (precio best)) eqn:B.
    + destruct (IH p (pre0 ++ best :: post0)%list []) as (pre & post & E & F).
      * simpl. rewrite <- app_assoc. exact Hin.
      * apply Forall_app. split.
        -- apply Forall_forall. intros q Iq.
           rewrite Forall_forall in Hpre.
           apply (better_trans better dom ranks) with (precio best);
             auto.
           apply Dall. apply in_or_app. now left.
        -- constructor; [exact B|].
           apply Forall_forall. intros q Iq.
           rewrite Forall_forall in Hpost.
           apply (better_mixed better dom ranks) with (precio best);
             auto.
           apply Dall. apply in_or_app. right. right.
           apply in_or_app. now left.
      * constructor.
      * exists pre, post. split; [|exact F].
        rewrite <- E. simpl. now rewrite <- app_assoc.
    + destruct (IH best pre0 (post0 ++ [p])%list) as (pre & post & E & F).
      * rewrite <- app_assoc. exact Hin.
      * exact Hpre.
      * apply Forall_app. split; [exact Hpost | now constructor].
      * exists pre, post. split; [|exact F].
        rewrite <- E. now rewrite <- app_assoc.
Qed.

End Scan.

Section ScanMembers.

Context {qty amt : Type}.
Variable better : amt -> amt -> bool.

Lemma scan_In (best : nat * Final.RowOf qty amt) rest :
  In (scan better best rest) (best :: rest).
Proof.
  revert best. induction rest as [|p rest IH]; intros best; simpl.
  - now left.
  - match goal with |- context [scan better ?b rest] =>
      destruct (IH b) as [E|I] end.
    + rewrite <- E.
      destruct (better _ _); [right; now left | now left].
    + right. now right.
Qed.

End ScanMembers.

Section SummaryFacts.

Context {qty amt : Type} {Da : Dtype amt}.

Lemma loc_of_label (df pre post : Indexed (Final.RowOf qty amt)) label row :
  NoDup (map fst df) ->
  df = (pre ++ (label, row) :: post)%list ->
  loc df label = Some row.
Proof.
  intros N ->. unfold loc.
  induction pre as [|[l' r'] pre IH]; simpl in *.
  - now rewrite Nat.eqb_refl.
  - inversion N as [|? ? Hn N']; subst.
    destruct (Nat.eqb_spec l' label) as [->|_].
    + exfalso. apply Hn. rewrite map_app. apply in_or_app. right. now left.
    + now apply IH.
Qed.

Lemma loc_In (df : Indexed (Final.RowOf qty amt)) label :
  In label (map fst df) -> exists row, loc df label = Some row.
Proof.
  unfold loc. induction df as [|[l' r'] df IH]; simpl; [tauto|].
  intros [->|I].
  - rewrite Nat.eqb_refl. now exists r'.
  - destruct (Nat.eqb l' label); [now exists r' | now apply IH].
Qed.

Lemma summary_returns (df : Indexed (Final.RowOf qty amt)) :
  df <> [] -> exists s, summary df = Return s.
Proof.
  destruct df as [|p rest]; [congruence|]. intros _.
  unfold summary, idxmax, idxmin.
  destruct (loc_In (p :: rest) (fst (scan num_gtb p rest))) as [fmax ->].
  { apply in_map. apply scan_In. }
  destruct (loc_In (p :: rest) (fst (scan num_ltb p rest))) as [fmin ->].
  { apply in_map. apply scan_In. }
  eexists. reflexivity.
Qed.

(** On a table that is not empty and whose labels are distinct, the
    summary is computed (nothing raises), whatever the dtype of the
    amounts: the total is their [Series.sum()], the count is the number
    of rows, and, the comparisons of the dtype ordering the amounts, the
    row of the maximum is the first row in table order that no row
    beats: it is greater than every row before it and no row after it is
    greater.  Likewise for the minimum. *)
Lemma summary_first_best :
  forall df : Indexed (Final.RowOf qty amt),
    df <> [] ->
    NoDup (map fst df) ->
    exists s,
      summary df = Return s
      /\ s_total_ventas s = series_sum (map precio df)
      /\ s_len s = List.length df
      /\ (Ranks num_gtb (map precio df) ->
          exists pre label post,
            df = (pre ++ (label, s_fila_max s) :: post)%list
            /\ Forall (fun q => num_gtb (Final.PRECIO_TOTAL_ORIG (s_fila_max s))
                                        (precio q) = true) pre
            /\ Forall (fun q => num_gtb (precio q)
                                        (Final.PRECIO_TOTAL_ORIG (s_fila_max s))
                                = false) post)
      /\ (Ranks num_ltb (map precio df) ->
          exists pre label post,
            df = (pre ++ (label, s_fila_min s) :: post)%list
            /\ Forall (fun q => num_ltb (Final.PRECIO_TOTAL_ORIG (s_fila_min s))
                                        (precio q) = true) pre
            /\ Forall (fun q => num_ltb (precio q)
                                        (Final.PRECIO_TOTAL_ORIG (s_fila_min s))
                                = false) post)
      /\ s_max_valor s = max_valor df
      /\ s_min_valor s = min_valor df.
Proof.
  intros [|p rest] Hne Nd; [now destruct Hne|]. clear Hne.
  destruct (scan num_gtb p rest) as [imax fmax] eqn:Smax.
  destruct (scan num_ltb p rest) as [imin fmin] eqn:Smin.
  assert (Lmax : loc (p :: rest) imax = Some fmax).
  { destruct (in_split (imax, fmax) (p :: rest)) as (pre & post & E).
    - rewrite <- Smax. apply scan_In.
    - exact (loc_of_label _ pre post imax fmax Nd E). }
  assert (Lmin : loc (p :: rest) imin = Some fmin).
  { destruct (in_split (imin, fmin) (p :: rest)) as (pre & post & E).
    - rewrite <- Smin. apply scan_In.
    - exact (loc_of_label _ pre post imin fmin Nd E). }
  exists (mkSummary (total_ventas (p :: rest)) (max_valor (p :: rest)) fmax
                    (min_valor (p :: rest)) fmin (List.length (p :: rest))).
  split.
  { unfold summary, idxmax, idxmin. rewrite Smax, Smin. cbn [fst].
    now rewrite Lmax, Lmin. }
  cbn [s_total_ventas s_len s_fila_max s_fila_min s_max_valor s_min_valor].
  split; [reflexivity|]. split; [reflexivity|].
  split; [|split; [|split; reflexivity]].
  - intros Rg.
    destruct (scan_first_best num_gtb _ Rg rest p [] []
                (incl_refl _) (Forall_nil _) (Forall_nil _))
      as (pre & post & E & Fpre & Fpost).
    simpl in E. rewrite Smax in E, Fpre, Fpost.
    now exists pre, imax, post.
  - intros Rl.
    destruct (scan_first_best num_ltb _ Rl rest p [] []
                (incl_refl _) (Forall_nil _) (Forall_nil _))
      as (pre & post & E & Fpre & Fpost).
    simpl in E. rewrite Smin in E, Fpre, Fpost.
    now exists pre, imin, post.
Qed.

End SummaryFacts.

(** The same on int64 amounts, in the order of the integers: the total
    is the arithmetic sum of the amounts brought back into the range of
    int64, every row before the row of the maximum has a smaller amount
    and no row after it a larger one; likewise for the minimum. *)
Lemma summary_first_extremes :
  forall df : Indexed Final.Row,
    df <> [] ->
    NoDup (map fst df) ->
    exists s,
      summary df = Return s
      /\ s_total_ventas s = wrap64 (fold_right Z.add 0 (map precio df))
      /\ s_len s = List.length df
      /\ (exists pre label post,
             df = (pre ++ (label, s_fila_max s) :: post)%list
             /\ Forall (fun q => precio q
                                 < Final.PRECIO_TOTAL_ORIG (s_fila_max s)) pre
             /\ Forall (fun q => precio q
                                 <= Final.PRECIO_TOTAL_ORIG (s_fila_max s)) post)
      /\ (exists pre label post,
             df = (pre ++ (label, s_fila_min s) :: post)%list
             /\ Forall (fun q => Final.PRECIO_TOTAL_ORIG (s_fila_min s)
                                 < precio q) pre
             /\ Forall (fun q => Final.PRECIO_TOTAL_ORIG (s_fila_min s)
                                 <= precio q) post)
      /\ s_max_valor s = Some (Final.PRECIO_TOTAL_ORIG (s_fila_max s))
      /\ s_min_valor s = Some (Final.PRECIO_TOTAL_ORIG (s_fila_min s)).
Proof.
  intros df Hne Nd.
  destruct (summary_first_best df Hne Nd)
    as (s & Hs & Ht & Hl & Gmax & Gmin & Hmax & Hmin).
  destruct (Gmax (gtb_ranks _)) as (pre & imax & post & E & Fpre & Fpost).
  destruct (Gmin (ltb_ranks _)) as (pre' & imin & post' & E' & Fpre' & Fpost').
  clear Gmax Gmin.
  exists s. split; [exact Hs|].
  split; [rewrite Ht; apply sum64_wrap|]. split; [exact Hl|].
  assert (Gpre : Forall (fun q => precio q
                                  < Final.PRECIO_TOTAL_ORIG (s_fila_max s)) pre).
  { revert Fpre. apply Forall_impl. intros q.
    cbn [num_gtb int64]. rewrite Z.gtb_ltb, Z.ltb_lt. trivial. }
  assert (Gpost : Forall (fun q => precio q
                                   <= Final.PRECIO_TOTAL_ORIG (s_fila_max s)) post).
  { revert Fpost. apply Forall_impl. intros q.
    cbn [num_gtb int64]. rewrite Z.gtb_ltb, Z.ltb_ge. trivial. }
  assert (Lpre : Forall (fun q => Final.PRECIO_TOTAL_ORIG (s_fila_min s)
                                  < precio q) pre').
  { revert Fpre'. apply Forall_impl. intros q.
    cbn [num_ltb int64]. rewrite Z.ltb_lt. trivial. }
  assert (Lpost : Forall (fun q => Final.PRECIO_TOTAL_ORIG (s_fila_min s)
                                   <= precio q) post').
  { revert Fpost'. apply Forall_impl. intros q.
    cbn [num_ltb int64]. rewrite Z.ltb_ge. trivial. }
  split; [now exists pre, imax, post|].
  split; [now exists pre', imin, post'|].
  split.
  - rewrite Hmax. destruct df as [|p rest]; [now destruct Hne|].
    unfold max_valor. f_equal. cbn [num_max int64].
    apply fold_left_max.
    + change (Forall (fun x => x <= Final.PRECIO_TOTAL_ORIG (s_fila_max s))
                     (map precio (p :: rest))).
      rewrite E, Forall_map. apply Forall_app. split.
      * revert Gpre. apply Forall_impl. intros; lia.
      * constructor; [unfold precio; simpl; lia | exact Gpost].
    + change (In (precio (imax, s_fila_max s)) (map precio (p :: rest))).
      apply in_map. rewrite E. apply in_or_app. right. now left.
  - rewrite Hmin. destruct df as [|p rest]; [now destruct Hne|].
    unfold min_valor. f_equal. cbn [num_min int64].
    apply fold_left_min.
    + change (Forall (fun x => Final.PRECIO_TOTAL_ORIG (s_fila_min s) <= x)
                     (map precio (p :: rest))).
      rewrite E', Forall_map. apply Forall_app. split.
      * revert Lpre. apply Forall_impl. intros; lia.
      * constructor; [unfold precio; simpl; lia | exact Lpost].
    + change (In (precio (imin, s_fila_min s)) (map precio (p :: rest))).
      apply in_map. rewrite E'. apply in_or_app. right. now left.
Qed.


(** ** The aggregation *)

Lemma key_order : Order key_compare.
Proof.
  apply Order_ext
    with (c := pair_compare
                 (pair_compare (pair_compare String.compare Z.compare)
                               Z.compare)
                 String.compare).
  - intros [[[c1 y1] m1] n1] [[[c2 y2] m2] n2].
    unfold pair_compare, key_compare. simpl. now rewrite !lex_assoc.
  - repeat apply pair_order; auto using Z_order, str_order.
Qed.

Lemma key_eqb_eq k k' : key_eqb k k' = true <-> k = k'.
Proof.
  unfold key_eqb. rewrite <- (ord_eq key_compare key_order).
  destruct (key_compare k k'); split; congruence.
Qed.

Lemma key_leb_total k k' : key_leb k k' = true \/ key_leb k' k = true.
Proof. exact (leb_total_on key_compare (fun x => x) key_order k k'). Qed.

Lemma key_leb_trans k1 k2 k3 :
  key_leb k1 k2 = true -> key_leb k2 k3 = true -> key_leb k1 k3 = true.
Proof. exact (leb_trans_on key_compare (fun x => x) key_order k1 k2 k3). Qed.

Section Unique.

Context {A : Type} (eqb : A -> A -> bool).
Hypothesis eqb_eq : forall x y, eqb x y = true <-> x = y.

Lemma existsb_eqb_In x l : existsb (eqb x) l = true <-> In x l.
Proof.
  rewrite existsb_exists. split.
  - intros (y & Hy & E). apply eqb_eq in E. now subst.
  - intros H. exists x. split; [exact H | now apply eqb_eq].
Qed.

Lemma unique_In x l : In x (unique eqb l) <-> In x l.
Proof.
  induction l as [|y l IH]; simpl; [tauto|].
  destruct (existsb (eqb y) l) eqn:E.
  - apply existsb_eqb_In in E. rewrite IH. split; [tauto|].
    intros [->|H]; assumption.
  - simpl. now rewrite IH.
Qed.

Lemma unique_NoDup l : NoDup (unique eqb l).
Proof.
  induction l as [|y l IH]; simpl; [constructor|].
  destruct (existsb (eqb y) l) eqn:E; [exact IH|].
  constructor; [|exact IH].
  rewrite unique_In, <- existsb_eqb_In. congruence.
Qed.

End Unique.

Section AggregationFacts.

Context {qty amt : Type} {Dq : Dtype qty} {Da : Dtype amt}.

Local Abbreviation row := (RowOf qty amt).
Local Abbreviation agg_row := (Agg.RowOf qty amt).

Lemma present_keys_In k (df : list row) :
  In k (present_keys df) <-> exists r, In r df /\ key_of r = Some k.
Proof.
  induction df as [|r df IH]; simpl.
  - split; [tauto | intros (r & [] & _)].
  - destruct (key_of r) as [k'|] eqn:K; simpl; rewrite IH; split.
    + intros [->|(r' & I & E)]; [exists r | exists r']; auto.
    + intros (r' & [->|I] & E); [left; congruence | right; exists r'; auto].
    + intros (r' & I & E). exists r'. auto.
    + intros (r' & [->|I] & E); [congruence | exists r'; auto].
Qed.

(** The keys [groupby] finds: each key present once, in ascending
    order. *)
Lemma group_keys_In k (df : list row) :
  In k (Py.sorted key_leb (unique key_eqb (present_keys df)))
  <-> exists r, In r df /\ key_of r = Some k.
Proof.
  now rewrite sorted_In, (unique_In key_eqb key_eqb_eq), present_keys_In.
Qed.

Lemma group_keys_NoDup (df : list row) :
  NoDup (Py.sorted key_leb (unique key_eqb (present_keys df))).
Proof.
  eapply Permutation_NoDup; [apply sorted_perm|].
  apply (unique_NoDup key_eqb key_eqb_eq).
Qed.

Lemma akey_agg k (g : list row) : akey (agg (k, g)) = k.
Proof. now destruct k as [[[c y] m] n]. Qed.

Lemma groupby_keys (df : list row) :
  map akey (map agg (groupby df))
  = Py.sorted key_leb (unique key_eqb (present_keys df)).
Proof.
  unfold groupby. rewrite !map_map.
  rewrite <- (map_id (Py.sorted _ _)) at 2.
  apply map_ext. intros k. apply akey_agg.
Qed.

Lemma reset_index_rows {A : Type} (rows : list A) :
  map snd (reset_index rows) = rows.
Proof. apply map_snd_combine. now rewrite length_seq. Qed.

Lemma reset_index_labels {A : Type} (rows : list A) :
  map fst (reset_index rows) = seq 0 (List.length rows).
Proof. apply map_fst_combine. now rewrite length_seq. Qed.

Lemma sort_leb_order (p q : nat * agg_row) :
  sort_leb p q
  = cmp_leb (pair_compare (pair_compare Z.compare Z.compare) String.compare
               (sort_key (snd p)) (sort_key (snd q))).
Proof.
  unfold sort_leb, sort_compare, pair_compare, sort_key. simpl.
  now rewrite lex_assoc.
Qed.

Lemma sort_key_order :
  Order (pair_compare (pair_compare Z.compare Z.compare) String.compare).
Proof. repeat apply pair_order; auto using Z_order, str_order. Qed.

Lemma sort_leb_total (p q : nat * agg_row) :
  sort_leb p q = true \/ sort_leb q p = true.
Proof.
  rewrite !sort_leb_order.
  apply (leb_total_on _ (fun p => sort_key (snd p)) sort_key_order).
Qed.

Lemma sort_leb_trans (p q r : nat * agg_row) :
  sort_leb p q = true -> sort_leb q r = true -> sort_leb p r = true.
Proof.
  rewrite !sort_leb_order.
  apply (leb_trans_on _ (fun p => sort_key (snd p)) sort_key_order).
Qed.

Lemma sort_leb_ascending (p q : nat * agg_row) :
  sort_leb p q = true -> ascending (snd p) (snd q).
Proof.
  unfold sort_leb, sort_compare, ascending, lex, String.leb.
  destruct (Z.compare_spec (Agg.AÑO (snd p)) (Agg.AÑO (snd q))) as [E|L|G];
    [|now left | discriminate].
  destruct (Z.compare_spec (Agg.MES_NUM (snd p)) (Agg.MES_NUM (snd q)))
    as [E'|L'|G']; [|right; split; auto | discriminate].
  intros H. right. split; [exact E|]. right. split; [exact E'|].
  destruct (String.compare _ _); [reflexivity | reflexivity | discriminate].
Qed.

Lemma df_agrupado_perm (df : list row) :
  Permutation (reset_index (map agg (groupby df))) (df_agrupado df).
Proof. apply sorted_perm. Qed.

Lemma df_agrupado_keys (df : list row) :
  Permutation (Py.sorted key_leb (unique key_eqb (present_keys df)))
              (map (fun p => akey (snd p)) (df_agrupado df)).
Proof.
  rewrite <- groupby_keys.
  rewrite <- (reset_index_rows (map agg (groupby df))) at 1.
  rewrite map_map. apply Permutation_map. apply df_agrupado_perm.
Qed.

Lemma df_agrupado_labels (df : list row) : NoDup (map fst (df_agrupado df)).
Proof.
  eapply Permutation_NoDup.
  - apply Permutation_map. apply df_agrupado_perm.
  - rewrite reset_index_labels. apply seq_NoDup.
Qed.

Lemma df_agrupado_rows p (df : list row) :
  In p (df_agrupado df) ->
  snd p = agg (akey (snd p), filter (in_group (akey (snd p))) df)
  /\ exists r, In r df /\ key_of r = Some (akey (snd p)).
Proof.
  intros I.
  apply (Permutation_in _ (Permutation_sym (df_agrupado_perm df))) in I.
  apply (in_map snd) in I. rewrite reset_index_rows in I.
  apply in_map_iff in I. destruct I as ([k g] & E & I).
  unfold groupby in I. apply in_map_iff in I.
  destruct I as (k' & E' & I). inversion E'; subst k' g; clear E'.
  rewrite <- E, akey_agg. split; [reflexivity|].
  now apply group_keys_In.
Qed.

Lemma df_final_kept (agrupado : Indexed agg_row) :
  df_final agrupado
  = map (fun p => (fst p, select_columns (snd p))) (filter kept agrupado).
Proof.
  unfold df_final. rewrite filter_andb, filter_map_swap.
  f_equal.
Qed.

Lemma first_is_first_present {A : Type} (col : row -> option A) g :
  first_present col g (first col g).
Proof.
  induction g as [|r g IH]; simpl; [constructor|].
  destruct (col r) as [x|] eqn:C.
  - exists [], r, g. repeat split; [constructor | exact C].
  - destruct (first col g) as [x|]; simpl in *.
    + destruct IH as (pre & r' & post & E & F & C').
      exists (r :: pre), r', post. rewrite E.
      repeat split; [now constructor | exact C'].
    + now constructor.
Qed.

Lemma first_of_head {A : Type} (col : row -> option A) r0 rest :
  col r0 <> None -> first col (r0 :: rest) = col r0.
Proof. simpl. now destruct (col r0). Qed.

Lemma filter_head {A : Type} (f : A -> bool) (l : list A) (x : A) :
  In x l -> f x = true ->
  exists x0 rest, filter f l = x0 :: rest /\ In x0 l /\ f x0 = true.
Proof.
  intros I F. destruct (filter f l) as [|x0 rest] eqn:E.
  - assert (H : In x (filter f l)) by now apply filter_In.
    rewrite E in H. destruct H.
  - exists x0, rest. split; [reflexivity|].
    apply filter_In. rewrite E. now left.
Qed.

Lemma in_group_key k (r : row) : in_group k r = true <-> key_of r = Some k.
Proof.
  unfold in_group. destruct (key_of r) as [k'|].
  - rewrite key_eqb_eq. split; congruence.
  - split; discriminate.
Qed.

Lemma derived_date l (r : row) k :
  derived l r -> key_of r = Some k -> FECHA_DOCUMENTO r <> None.
Proof.
  intros (Hy & _) K. unfold key_of in K.
  destruct (FECHA_DOCUMENTO r); [discriminate|].
  simpl in Hy. rewrite Hy in K.
  destruct (CODIGO_PRODUCTO r); discriminate.
Qed.

Lemma derived_month_name l (r : row) c y m n :
  derived l r -> key_of r = Some (c, y, m, n) -> n = Dates.month_name l m.
Proof.
  intros (_ & Hm & Hn) K. unfold key_of in K.
  rewrite Hm, Hn in K.
  destruct (CODIGO_PRODUCTO r), (AÑO r), (FECHA_DOCUMENTO r);
    simpl in K; try discriminate.
  now inversion K.
Qed.

Lemma NoDup_map_coarser {A B C : Type} (f : A -> B) (g : A -> C) (l : list A) :
  (forall x y, In x l -> In y l -> g x = g y -> f x = f y) ->
  NoDup (map f l) -> NoDup (map g l).
Proof.
  induction l as [|x l IH]; simpl; intros H N; [constructor|].
  inversion N as [|? ? Hn N']; subst. constructor.
  - intros I. apply in_map_iff in I. destruct I as (y & E & I).
    apply Hn. rewrite <- (H y x); auto. now apply in_map.
  - apply IH; auto.
Qed.

Lemma NoDup_map_filter {A B : Type} (f : A -> B) (keep : A -> bool)
  (l : list A) :
  NoDup (map f l) -> NoDup (map f (filter keep l)).
Proof.
  induction l as [|x l IH]; simpl; intros N; [constructor|].
  inversion N as [|? ? Hn N']; subst.
  destruct (keep x); simpl; auto.
  constructor; auto.
  intros I. apply Hn. apply in_map_iff in I. destruct I as (y & E & I).
  apply filter_In in I. rewrite <- E. apply in_map. tauto.
Qed.

Lemma df_agrupado_month_name l sel (df_original : list row) p :
  Forall (derived l) df_original ->
  In p (df_agrupado (df_filtrado sel df_original)) ->
  Agg.MES (snd p) = Dates.month_name l (Agg.MES_NUM (snd p)).
Proof.
  intros D I.
  destruct (df_agrupado_rows p _ I) as [_ (r & Ir & Kr)].
  apply df_filtrado_In in Ir. destruct Ir as [Ir _].
  rewrite Forall_forall in D.
  exact (derived_month_name l r _ _ _ _ (D r Ir) Kr).
Qed.

End AggregationFacts.

Lemma kept_spec (p : nat * Agg.Row) :
  kept p = true
  <-> Agg.CANTIDAD (snd p) <> 0 /\ Agg.PRECIO_TOTAL_ORIG (snd p) <> 0.
Proof.
  unfold kept. cbn [ne_zero int64].
  rewrite andb_true_iff, !negb_true_iff, !Z.eqb_neq. tauto.
Qed.

Lemma Zsum_dropna {R : Type} (col : R -> option Z) (g : list R) :
  fold_right Z.add 0 (dropna (map col g))
  = fold_right Z.add 0 (map (fun r => or_zero (col r)) g).
Proof.
  induction g as [|r g IH]; simpl; [reflexivity|].
  destruct (col r); simpl; now rewrite IH.
Qed.

(** On int64 cells the ['sum'] of a group is the arithmetic sum of the
    group brought back into the range of int64. *)
Lemma sum_int64 (col : Row -> option Z) (g : list Row) :
  sum col g = wrap64 (total col g).
Proof.
  unfold sum, total. cbn [group_sum int64].
  now rewrite sum64_wrap, Zsum_dropna.
Qed.

(** C2, as amended.  The rows of the filtered table that have a product
    code form one group for each (product code, year, month number, month
    name) and [df_agrupado] has one row for each group.  That row takes
    its date and its customer class from the first row of the group in the
    order of the filtered table; its product name and its document status
    are the first values present in the group in that order, those of the
    first row whenever it has them; its quantity and amount are the sums
    pandas computes over the cells of the group in the dtype of the
    column.  [df_final] is [df_agrupado] without the rows whose summed
    quantity is 0 or whose summed amount is 0; what is left is in
    ascending order of (year, month number, product code), that triple
    and the label being distinct from row to row.  All of this whatever
    the dtypes of the two number columns.  When both are int64, the sum
    of a group is its arithmetic sum brought back into the range of
    int64: the arithmetic sum itself when that lies between -2^63 and
    2^63 - 1, and wrapped around otherwise. *)
Theorem c2_monthly_aggregation :
  (forall (qty amt : Type) (Dq : Dtype qty) (Da : Dtype amt)
          (l : Dates.Locale) (sel : Selection)
          (df_original filtrado : list (RowOf qty amt))
          (agrupado : Indexed (Agg.RowOf qty amt)),
      Forall (derived l) df_original ->
      filtrado = df_filtrado sel df_original ->
      agrupado = df_agrupado filtrado ->
      (NoDup (map (fun p => akey (snd p)) agrupado)
       /\ forall k, In k (map (fun p => akey (snd p)) agrupado)
                    <-> exists r, In r filtrado /\ key_of r = Some k)
      /\ (forall p, In p agrupado ->
            exists r0 rest,
              filter (in_group (akey (snd p))) filtrado = r0 :: rest
              /\ Agg.FECHA_DOCUMENTO (snd p) = FECHA_DOCUMENTO r0
              /\ Agg.CLASE_CLIENTE (snd p) = CLASE_CLIENTE r0
              /\ first_present NOMBRE_PRODUCTO (r0 :: rest)
                               (Agg.NOMBRE_PRODUCTO (snd p))
              /\ first_present ESTADO_DOCUMENTO (r0 :: rest)
                               (Agg.ESTADO_DOCUMENTO (snd p))
              /\ (NOMBRE_PRODUCTO r0 <> None ->
                  Agg.NOMBRE_PRODUCTO (snd p) = NOMBRE_PRODUCTO r0)
              /\ (ESTADO_DOCUMENTO r0 <> None ->
                  Agg.ESTADO_DOCUMENTO (snd p) = ESTADO_DOCUMENTO r0)
              /\ Agg.CANTIDAD (snd p) = group_sum (cells CANTIDAD (r0 :: rest))
              /\ Agg.PRECIO_TOTAL_ORIG (snd p)
                 = group_sum (cells PRECIO_TOTAL_ORIG (r0 :: rest)))
      /\ df_final agrupado
         = map (fun p => (fst p, select_columns (snd p))) (filter kept agrupado)
      /\ (forall p, In p (filter kept agrupado)
                    <-> In p agrupado
                        /\ ne_zero (Agg.CANTIDAD (snd p)) = true
                        /\ ne_zero (Agg.PRECIO_TOTAL_ORIG (snd p)) = true)
      /\ StronglySorted (fun p q => ascending (snd p) (snd q))
                        (filter kept agrupado)
      /\ NoDup (map (fun p => sort_key (snd p)) (filter kept agrupado))
      /\ NoDup (map fst (filter kept agrupado)))
  /\ (forall (filtrado : list Row) (p : nat * Agg.Row),
        Forall numbers_present filtrado ->
        In p (df_agrupado filtrado) ->
        Agg.CANTIDAD (snd p)
        = wrap64 (total CANTIDAD (filter (in_group (akey (snd p))) filtrado))
        /\ Agg.PRECIO_TOTAL_ORIG (snd p)
           = wrap64 (total PRECIO_TOTAL_ORIG
                           (filter (in_group (akey (snd p))) filtrado))
        /\ (- 2 ^ 63
            <= total CANTIDAD (filter (in_group (akey (snd p))) filtrado)
            < 2 ^ 63 ->
            Agg.CANTIDAD (snd p)
            = total CANTIDAD (filter (in_group (akey (snd p))) filtrado))
        /\ (- 2 ^ 63
            <= total PRECIO_TOTAL_ORIG
                     (filter (in_group (akey (snd p))) filtrado)
            < 2 ^ 63 ->
            Agg.PRECIO_TOTAL_ORIG (snd p)
            = total PRECIO_TOTAL_ORIG
                    (filter (in_group (akey (snd p))) filtrado))
        /\ (In p (filter kept (df_agrupado filtrado))
            <-> Agg.CANTIDAD (snd p) <> 0
                /\ Agg.PRECIO_TOTAL_ORIG (snd p) <> 0)).
Proof.
  split.
  - intros qty amt Dq Da l sel df_original filtrado agrupado D -> ->.
    split; [split|split; [|split; [|split; [|split; [|split]]]]].
    + eapply Permutation_NoDup; [apply df_agrupado_keys|].
      apply group_keys_NoDup.
    + intros k. rewrite <- group_keys_In.
      split; apply Permutation_in;
        [apply Permutation_sym|]; apply df_agrupado_keys.
    + intros p I.
      destruct (df_agrupado_rows p _ I) as [E (r & Ir & Kr)].
      destruct (filter_head (in_group (akey (snd p))) _ r Ir
                  (proj2 (in_group_key _ r) Kr))
        as (r0 & rest & G & I0 & F0).
      exists r0, rest. split; [exact G|].
      apply in_group_key in F0.
      apply df_filtrado_In in I0.
      destruct I0 as (I0 & _ & _ & _ & (c0 & C0 & _)).
      rewrite Forall_forall in D.
      pose proof (derived_date l r0 _ (D r0 I0) F0) as Hd.
      rewrite G in E. clear G F0 Kr.
      remember (akey (snd p)) as k eqn:Hk. clear Hk.
      rewrite E. destruct k as [[[c y] m] n].
      cbn [agg Agg.FECHA_DOCUMENTO Agg.CLASE_CLIENTE Agg.NOMBRE_PRODUCTO
           Agg.ESTADO_DOCUMENTO Agg.CANTIDAD Agg.PRECIO_TOTAL_ORIG].
      repeat split.
      * now apply first_of_head.
      * apply first_of_head. congruence.
      * apply first_is_first_present.
      * apply first_is_first_present.
      * apply first_of_head.
      * apply first_of_head.
    + apply df_final_kept.
    + intros p. rewrite filter_In. unfold kept.
      rewrite andb_true_iff. tauto.
    + apply StronglySorted_filter.
      apply StronglySorted_impl with (R := fun p q => sort_leb p q = true).
      * intros p q. apply sort_leb_ascending.
      * apply (sorted_sorted sort_leb sort_leb_total sort_leb_trans).
    + apply NoDup_map_filter.
      apply NoDup_map_coarser with (f := fun p => akey (snd p)).
      * intros p q Ip Iq S.
        pose proof (df_agrupado_month_name l sel df_original p D Ip) as Mp.
        pose proof (df_agrupado_month_name l sel df_original q D Iq) as Mq.
        unfold sort_key in S. inversion S as [[Hy Hm Hc]].
        unfold akey. rewrite Mp, Mq, Hy, Hm, Hc. reflexivity.
      * eapply Permutation_NoDup; [apply df_agrupado_keys|].
        apply group_keys_NoDup.
    + apply NoDup_map_filter. apply df_agrupado_labels.
  - intros filtrado p _ I.
    destruct (df_agrupado_rows p _ I) as [E _].
    assert (Q : Agg.CANTIDAD (snd p)
                = wrap64 (total CANTIDAD
                            (filter (in_group (akey (snd p))) filtrado))).
    { rewrite E at 1. destruct (akey (snd p)) as [[[c y] m] n].
      cbn [agg Agg.CANTIDAD]. apply sum_int64. }
    assert (P : Agg.PRECIO_TOTAL_ORIG (snd p)
                = wrap64 (total PRECIO_TOTAL_ORIG
                            (filter (in_group (akey (snd p))) filtrado))).
    { rewrite E at 1. destruct (akey (snd p)) as [[[c y] m] n].
      cbn [agg Agg.PRECIO_TOTAL_ORIG]. apply sum_int64. }
    split; [exact Q|]. split; [exact P|].
    split; [intros H; rewrite Q; now apply wrap64_small|].
    split; [intros H; rewrite P; now apply wrap64_small|].
    rewrite filter_In, kept_spec. tauto.
Qed.

(** Two sales of P1 in March 2024, the name present on the second row
    only. *)
Lemma c2_monthly_aggregation_witness :
  Forall (derived Dates.C_locale)
         [march_row 5 "P1" None 2 100;
          march_row 20 "P1" (Some "Producto") 3 50]
  /\ map fst
         (df_final
            (df_agrupado
               (df_filtrado (march_selection [])
                  [march_row 5 "P1" None 2 100;
                   march_row 20 "P1" (Some "Producto") 3 50])))
     = [0%nat].
Proof.
  assert (D : Forall (derived Dates.C_locale)
                [march_row 5 "P1" None 2 100;
                 march_row 20 "P1" (Some "Producto") 3 50])
    by (repeat constructor).
  split; [exact D|].
  destruct c2_monthly_aggregation as [G _].
  destruct (G Z Z int64 int64 Dates.C_locale (march_selection [])
              _ _ _ D eq_refl eq_refl) as (_ & _ & E & _).
  rewrite E. reflexivity.
Defined.

(** C2, as stated, fails on those two rows: they are one group, its
    first row has no product name, and the aggregated row carries the
    name of the second row.  It fails on the sums as well: two sales of
    2^62 each, in an int64 column, aggregate to -2^63, which is not their
    arithmetic sum 2^63. *)
Lemma c2_first_skips_missing_values :
  filter (in_group ("P1", 2024, 3, "March"))
         (df_filtrado (march_selection [])
            [march_row 5 "P1" None 2 100;
             march_row 20 "P1" (Some "Producto") 3 50])
  = [march_row 5 "P1" None 2 100; march_row 20 "P1" (Some "Producto") 3 50]
  /\ NOMBRE_PRODUCTO (march_row 5 "P1" None 2 100) = None
  /\ map (fun p => (akey (snd p), Agg.NOMBRE_PRODUCTO (snd p)))
         (df_agrupado
            (df_filtrado (march_selection [])
               [march_row 5 "P1" None 2 100;
                march_row 20 "P1" (Some "Producto") 3 50]))
     = [(("P1", 2024, 3, "March"), Some "Producto")]
  /\ map (fun p => Agg.PRECIO_TOTAL_ORIG (snd p))
         (df_agrupado
            (df_filtrado (march_selection [])
               [march_row 5 "P1" None 1 (2 ^ 62);
                march_row 20 "P1" None 1 (2 ^ 62)]))
     = [- 2 ^ 63]
  /\ 2 ^ 62 + 2 ^ 62 <> - 2 ^ 63.
Proof. repeat split. discriminate. Qed.

(** ** The script *)

(** The four ways [script] ends.  The report is gated on the filtered
    table only: when the filters leave rows and the two zero filters
    leave none, the summary runs on the empty [df_final] and [idxmax]
    raises. *)
Lemma script_outcomes {qty amt : Type} {Dq : Dtype qty} {Da : Dtype amt}
  (df_original : list (RowOf qty amt)) sel :
  (df_original = [] -> script df_original sel = st_stop)
  /\ (df_original <> [] -> df_filtrado sel df_original = [] ->
      script df_original sel = st_warning_no_data)
  /\ (df_filtrado sel df_original <> [] ->
      df_final (df_agrupado (df_filtrado sel df_original)) = [] ->
      script df_original sel = uncaught ValueError)
  /\ (df_final (df_agrupado (df_filtrado sel df_original)) <> [] ->
      exists s,
        summary (df_final (df_agrupado (df_filtrado sel df_original)))
        = Return s
        /\ script df_original sel
           = report (df_final (df_agrupado (df_filtrado sel df_original))) s
                    (nombre_default sel)).
Proof.
  assert (N : df_filtrado sel (@nil (RowOf qty amt)) = [])
    by (rewrite df_filtrado_as_filter; reflexivity).
  unfold script. repeat split.
  - now intros ->.
  - intros H ->. now destruct df_original.
  - intros H E. rewrite E.
    destruct df_original as [|r df]; [now destruct H|].
    now destruct (df_filtrado sel (r :: df)).
  - intros H. destruct (summary_returns _ H) as [s Hs].
    exists s. split; [exact Hs|]. rewrite Hs.
    destruct df_original as [|r df].
    + rewrite N in H. now destruct H.
    + destruct (df_filtrado sel (r :: df)) eqn:F; [now destruct H|].
      reflexivity.
Qed.

(** C4 at the failing input.  One sale of quantity 1 and amount 0 in the
    selected month: the filters keep the row, so the gate lets the report
    run; the zero filter on the amount then empties [df_final], the
    summary runs on it and ends in the uncaught ValueError of
    [idxmax]. *)
Lemma c4_summary_runs_on_empty_table :
  df_filtrado (march_selection []) [march_row 5 "P1" (Some "Producto") 1 0]
  = [march_row 5 "P1" (Some "Producto") 1 0]
  /\ df_final
       (df_agrupado
          (df_filtrado (march_selection [])
             [march_row 5 "P1" (Some "Producto") 1 0]))
     = []
  /\ summary ([] : Indexed Final.Row) = Raise ValueError
  /\ script [march_row 5 "P1" (Some "Producto") 1 0] (march_selection [])
     = uncaught ValueError.
Proof. repeat split. Qed.

(** C1.  The two sales of P1 of March 2024, read in the C locale, whatever
    their product names and document statuses: normalised they are two
    rows of March 2024; filtered by 2024, March, no product code and
    Minorista and aggregated they are the one row (P1, 2024, 3, March) of
    quantity 5 and amount 150; the summary has total 150, one item, and
    that row both as the row of the maximum and as the row of the
    minimum. *)
Theorem c1_end_to_end :
  forall nombre1 nombre2 estado1 estado2 : option string,
    normalize Dates.C_locale
      [mkRawRow (Some "2024-03-05") (Some "P1") nombre1 (Some "Minorista")
                (Some 2) (Some 100) estado1;
       mkRawRow (Some "2024-03-20") (Some "P1") nombre2 (Some "Minorista")
                (Some 3) (Some 50) estado2]
    = Some [mkRow (Some (mkTimestamp 2024 3 5)) (Some "P1") nombre1
                  (Some "Minorista") (Some 2) (Some 100) estado1
                  (Some 2024) (Some 3) (Some "March");
            mkRow (Some (mkTimestamp 2024 3 20)) (Some "P1") nombre2
                  (Some "Minorista") (Some 3) (Some 50) estado2
                  (Some 2024) (Some 3) (Some "March")]
    /\ df_agrupado
         (df_filtrado (mkSelection [2024] ["March"] [] ["Minorista"])
            [mkRow (Some (mkTimestamp 2024 3 5)) (Some "P1") nombre1
                   (Some "Minorista") (Some 2) (Some 100) estado1
                   (Some 2024) (Some 3) (Some "March");
             mkRow (Some (mkTimestamp 2024 3 20)) (Some "P1") nombre2
                   (Some "Minorista") (Some 3) (Some 50) estado2
                   (Some 2024) (Some 3) (Some "March")])
       = [(0%nat,
           Agg.mkRow "P1" 2024 3 "March" (Some (mkTimestamp 2024 3 5))
                     (match nombre1 with Some _ => nombre1 | None => nombre2 end)
                     (Some "Minorista") 5 150
                     (match estado1 with Some _ => estado1 | None => estado2 end))]
    /\ script
         [mkRow (Some (mkTimestamp 2024 3 5)) (Some "P1") nombre1
                (Some "Minorista") (Some 2) (Some 100) estado1
                (Some 2024) (Some 3) (Some "March");
          mkRow (Some (mkTimestamp 2024 3 20)) (Some "P1") nombre2
                (Some "Minorista") (Some 3) (Some 50) estado2
                (Some 2024) (Some 3) (Some "March")]
         (mkSelection [2024] ["March"] [] ["Minorista"])
       = report
           [(0%nat,
             Final.mkRow (Some (mkTimestamp 2024 3 5)) "P1"
               (match nombre1 with Some _ => nombre1 | None => nombre2 end)
               (Some "Minorista") 5 150
               (match estado1 with Some _ => estado1 | None => estado2 end))]
           (mkSummary 150 (Some 150)
              (Final.mkRow (Some (mkTimestamp 2024 3 5)) "P1"
                 (match nombre1 with Some _ => nombre1 | None => nombre2 end)
                 (Some "Minorista") 5 150
                 (match estado1 with Some _ => estado1 | None => estado2 end))
              (Some 150)
              (Final.mkRow (Some (mkTimestamp 2024 3 5)) "P1"
                 (match nombre1 with Some _ => nombre1 | None => nombre2 end)
                 (Some "Minorista") 5 150
                 (match estado1 with Some _ => estado1 | None => estado2 end))
              1%nat)
           "ventas_2024_mar.csv".
Proof.
  intros [n1|] [n2|] [e1|] [e2|]; repeat split.
Qed.

(** ** The summary of the aggregated table *)

(** Every table the aggregation hands to the summary has distinct
    labels. *)
Lemma df_final_labels {qty amt : Type} {Dq : Dtype qty} {Da : Dtype amt}
  (filtrado : list (RowOf qty amt)) :
  NoDup (map fst (df_final (df_agrupado filtrado))).
Proof.
  rewrite df_final_kept, map_map. simpl.
  apply NoDup_map_filter. apply df_agrupado_labels.
Qed.

(** Where es_ES.UTF-8 is installed the same two sales are named marzo,
    and the selection of March matches nothing. *)
Lemma march_is_marzo_in_es_ES :
  option_map (map MES)
    (normalize (Dates.setlocale_at_start true)
       [mkRawRow (Some "2024-03-05") (Some "P1") None (Some "Minorista")
                 (Some 2) (Some 100) None;
        mkRawRow (Some "2024-03-20") (Some "P1") None (Some "Minorista")
                 (Some 3) (Some 50) None])
  = Some [Some "marzo"; Some "marzo"]
  /\ option_map (fun df => script df (march_selection []))
       (normalize (Dates.setlocale_at_start true)
          [mkRawRow (Some "2024-03-05") (Some "P1") None (Some "Minorista")
                    (Some 2) (Some 100) None;
           mkRawRow (Some "2024-03-20") (Some "P1") None (Some "Minorista")
                    (Some 3) (Some 50) None])
     = Some st_warning_no_data.
Proof. split; reflexivity. Qed.




(** ** The embedding on small inputs *)

Lemma prefix_refl (s : string) : prefix s s = true.
Proof.
  induction s as [|c s IH]; simpl; [reflexivity|].
  destruct (ascii_dec c c) as [_|N]; [exact IH | now destruct N].
Qed.

Lemma contains_prefix (sub s : string) :
  prefix sub s = true -> Py.contains sub s = true.
Proof. intros H. destruct s; cbn [Py.contains]; now rewrite H. Qed.

Lemma contains_app (sub s : string) : Py.contains sub (s ++ sub) = true.
Proof.
  induction s as [|c s IH].
  - apply contains_prefix. apply prefix_refl.
  - change ((String c s ++ sub)%string) with (String c (s ++ sub)%string).
    cbn [Py.contains]. rewrite IH. apply orb_true_r.
Qed.

Lemma str_app_assoc (a b c : string) :
  (a ++ (b ++ c))%string = ((a ++ b) ++ c)%string.
Proof. induction a as [|x a IH]; simpl; [reflexivity | now rewrite IH]. Qed.

(** The url handed to [requests.get] always carries the parameter, and
    a url that carries it is left as it is. *)
Lemma ensure_download_param_present (url : string) :
  Py.contains "download=1" (_ensure_download_param url) = true.
Proof.
  unfold _ensure_download_param.
  destruct (Py.contains "download=1" url) eqn:C; [exact C|].
  rewrite str_app_assoc. apply contains_app.
Qed.

Lemma ensure_download_param_idempotent (url : string) :
  _ensure_download_param (_ensure_download_param url)
  = _ensure_download_param url.
Proof.
  unfold _ensure_download_param at 1.
  now rewrite ensure_download_param_present.
Qed.

Example ensure_download_param_examples :
  _ensure_download_param "https://host/file.csv"
  = "https://host/file.csv?download=1"
  /\ _ensure_download_param onedrive_url
     = onedrive_url ++ "&download=1"
  /\ _ensure_download_param "https://host/f?download=1"
     = "https://host/f?download=1".
Proof. repeat split. Qed.

Example codec_examples :
  Codec.decode Codec.utf_8 [xe2; x82; xac] = Some [8364%N]
  /\ Codec.decode Codec.utf_8 [xc0; x80] = None
  /\ Codec.decode Codec.utf_8 [xed; xa0; x80] = None
  /\ Codec.decode Codec.cp1252 [x81] = None
  /\ Codec.decode Codec.cp1252 [xf1] = Some [241%N]
  /\ Codec.decode Codec.iso_8859_1 [x81; xf1] = Some [129%N; 241%N].
Proof. repeat split. Qed.

Example to_datetime_examples :
  Dates.to_datetime false [Some "2024-02-29"; None]
  = Some [Some (mkTimestamp 2024 2 29); None]
  /\ Dates.to_datetime false [Some "2023-02-29"] = None
  /\ Dates.to_datetime false [Some "13/04/2024"]
     = Some [Some (mkTimestamp 2024 4 13)]
  /\ Dates.to_datetime false [Some "03/04/2024"; Some "13/04/2024"] = None
  /\ Dates.to_datetime false [None; None] = Some [None; None].
Proof. repeat split. Qed.

Example nombre_default_examples :
  nombre_default (mkSelection [2025; 2023; 2024] ["March"; "April"; "JUNE"]
                              [] [])
  = "ventas_2023_2024_2025_apr_jun_mar.csv"
  /\ nombre_default (mkSelection [2022; 2023; 2024; 2025]
                                 ["enero"; "febrero"; "marzo"; "abril"] [] [])
     = "ventas_" ++ varios_años ++ "_varios_meses.csv"
  /\ nombre_default (mkSelection [] [] [] []) = "ventas__.csv".
Proof. repeat split. Qed.

(** Groups come out of [groupby] by product code first; [sort_values]
    puts them by year and month first, each row keeping the label it got
    from [reset_index]. *)
Example df_agrupado_example :
  map (fun p => (fst p, sort_key (snd p)))
      (df_agrupado
         [mkRow (Some (mkTimestamp 2024 4 2)) (Some "A") None
                (Some "Minorista") (Some 1) (Some 10) None
                (Some 2024) (Some 4) (Some "April");
          march_row 7 "B" None 1 20;
          march_row 9 "A" None 1 30])
  = [(0%nat, (2024, 3, "A")); (2%nat, (2024, 3, "B"));
     (1%nat, (2024, 4, "A"))].
Proof. reflexivity. Qed.

(** Decimal amounts: two sales of one product and a sale of another, the
    quantities int64 and the amounts float64.  The amounts of the groups
    are the float sums of their cells, whatever the way of adding; a
    group whose amounts are 0.0 goes with the zero filter. *)
Example decimal_amounts (gsum ssum : list float -> float) :
  map (fun p => (akey (snd p), Agg.CANTIDAD (snd p),
                 Agg.PRECIO_TOTAL_ORIG (snd p)))
      (df_agrupado (Da := float64 gsum ssum)
         [mkRow (Some (mkTimestamp 2024 3 5)) (Some "A") None
                (Some "Minorista") (Some 2) (Some 0.5%float) None
                (Some 2024) (Some 3) (Some "March");
          mkRow (Some (mkTimestamp 2024 3 6)) (Some "B") None
                (Some "Minorista") (Some 1) (Some 1.25%float) None
                (Some 2024) (Some 3) (Some "March");
          mkRow (Some (mkTimestamp 2024 3 9)) (Some "A") None
                (Some "Minorista") (Some 3) None None
                (Some 2024) (Some 3) (Some "March")])
  = [(("A", 2024, 3, "March"), 5, gsum [0.5%float]);
     (("B", 2024, 3, "March"), 1, gsum [1.25%float])].
Proof. reflexivity. Qed.

(** The summary of three decimal amounts, the largest tied: the row of
    the maximum is the first of the tie, and the total is their float
    sum. *)
Example decimal_summary (gsum ssum : list float -> float) :
  summary (Da := float64 gsum ssum)
    [(0%nat, Final.mkRow None "A" None None 1 0.5%float None);
     (1%nat, Final.mkRow None "B" None None 1 1.25%float None);
     (2%nat, Final.mkRow None "C" None None 1 1.25%float None)]
  = Return
      (mkSummary (ssum [0.5; 1.25; 1.25]%float) (Some 1.25%float)
         (Final.mkRow None "B" None None 1 1.25%float None)
         (Some 0.5%float)
         (Final.mkRow None "A" None None 1 0.5%float None)
         3%nat).
Proof. reflexivity. Qed.

(* ================================================================= *)
(** * Part III. Further properties of the code *)
(* ================================================================= *)

(** ** The download parameter *)

Lemma prefix_app (sub t : string) : prefix sub (sub ++ t) = true.
Proof.
  induction sub as [|c sub IH]; simpl; [now destruct t|].
  destruct (ascii_dec c c) as [_|N]; [exact IH | now destruct N].
Qed.

Lemma contains_inside (sub a b : string) :
  Py.contains sub (a ++ sub ++ b) = true.
Proof.
  induction a as [|c a IH].
  - change (("" ++ sub ++ b)%string) with ((sub ++ b)%string).
    apply contains_prefix. apply prefix_app.
  - change ((String c a ++ sub ++ b)%string)
      with (String c (a ++ sub ++ b)%string).
    cbn [Py.contains]. rewrite IH. apply orb_true_r.
Qed.

(** X1.  The url handed to [requests.get] always carries download=1 and
    begins with the url given; a url that already carries the text
    download=1 anywhere, also outside its query string, is handed on
    unchanged, so that applying the function twice changes nothing
    more. *)
Theorem x1_download_param :
  forall url : string,
    Py.contains "download=1" (_ensure_download_param url) = true
    /\ prefix url (_ensure_download_param url) = true
    /\ _ensure_download_param (_ensure_download_param url)
       = _ensure_download_param url
    /\ (forall a b : string,
           _ensure_download_param (a ++ "download=1" ++ b)
           = (a ++ "download=1" ++ b)%string).
Proof.
  intros url. split; [apply ensure_download_param_present|].
  split; [|split; [apply ensure_download_param_idempotent|]].
  - unfold _ensure_download_param.
    destruct (Py.contains "download=1" url);
      [apply prefix_refl | apply prefix_app].
  - intros a b. unfold _ensure_download_param.
    now rewrite contains_inside.
Qed.

(** ** The encoding loop *)

Lemma read_csv_iso {DataFrame : Type}
  (parse : Codec.text -> option DataFrame) (content : list byte) :
  read_csv parse Codec.iso_8859_1 content
  = read_csv parse Codec.latin1 content.
Proof. reflexivity. Qed.

Lemma latin1_never_decode_error {DataFrame : Type}
  (parse : Codec.text -> option DataFrame) (content : list byte) :
  read_csv parse Codec.latin1 content <> Raise UnicodeDecodeError.
Proof.
  unfold read_csv. simpl.
  destruct (parse (map Byte.to_N content)); discriminate.
Qed.

(** X2.  The second entry of the encoding list is dead: iso-8859-1 is
    tried only after latin1 failed and then fails the same way, so it
    never supplies the table, the loader returns what it would return
    with the list latin1, cp1252, utf-8, and no success message ever
    names iso-8859-1. *)
Theorem x2_iso_8859_1_never_used :
  forall (DataFrame : Type) (parse : Codec.text -> option DataFrame)
         (content : list byte),
    fst (for_encoding parse content encodings)
    = fst (for_encoding parse content
             [Codec.latin1; Codec.cp1252; Codec.utf_8])
    /\ ~ In (st_success_loaded Codec.iso_8859_1)
            (snd (for_encoding parse content encodings)).
Proof.
  intros DataFrame parse content.
  pose proof (latin1_never_decode_error parse content) as ND.
  unfold encodings.
  change (for_encoding parse content
            [Codec.latin1; Codec.iso_8859_1; Codec.cp1252; Codec.utf_8])
    with (match read_csv parse Codec.latin1 content with
          | Return df => (Some df, [st_success_loaded Codec.latin1])
          | Raise UnicodeDecodeError =>
              for_encoding parse content
                [Codec.iso_8859_1; Codec.cp1252; Codec.utf_8]
          | Raise _ =>
              let '(r, log) :=
                for_encoding parse content
                  [Codec.iso_8859_1; Codec.cp1252; Codec.utf_8] in
              (r, st_error_with Codec.latin1 :: log)
          end).
  change (for_encoding parse content
            [Codec.latin1; Codec.cp1252; Codec.utf_8])
    with (match read_csv parse Codec.latin1 content with
          | Return df => (Some df, [st_success_loaded Codec.latin1])
          | Raise UnicodeDecodeError =>
              for_encoding parse content [Codec.cp1252; Codec.utf_8]
          | Raise _ =>
              let '(r, log) :=
                for_encoding parse content [Codec.cp1252; Codec.utf_8] in
              (r, st_error_with Codec.latin1 :: log)
          end).
  change (for_encoding parse content
            [Codec.iso_8859_1; Codec.cp1252; Codec.utf_8])
    with (match read_csv parse Codec.iso_8859_1 content with
          | Return df => (Some df, [st_success_loaded Codec.iso_8859_1])
          | Raise UnicodeDecodeError =>
              for_encoding parse content [Codec.cp1252; Codec.utf_8]
          | Raise _ =>
              let '(r, log) :=
                for_encoding parse content [Codec.cp1252; Codec.utf_8] in
              (r, st_error_with Codec.iso_8859_1 :: log)
          end).
  rewrite read_csv_iso.
  assert (T : ~ In (st_success_loaded Codec.iso_8859_1)
                   (snd (for_encoding parse content
                           [Codec.cp1252; Codec.utf_8]))).
  { cbn [for_encoding].
    destruct (read_csv parse Codec.cp1252 content) as [[]|];
      destruct (read_csv parse Codec.utf_8 content) as [[]|];
      simpl; intuition discriminate. }
  destruct (read_csv parse Codec.latin1 content) as [e|df].
  - destruct (for_encoding parse content [Codec.cp1252; Codec.utf_8])
      as [r log].
    destruct e; try (now destruct ND); simpl in *;
      (split; [reflexivity | intuition discriminate]).
  - split; [reflexivity | simpl; intuition discriminate].
Qed.

(** X3.  What the loader shows is a run of at most four error messages
    followed by exactly one closing message: the success message when a
    table is returned, the message that no encoding worked when [None]
    is returned. *)
Theorem x3_loader_messages :
  forall (DataFrame : Type) (parse : Codec.text -> option DataFrame)
         (content : list byte),
    exists (errs : list Codec.Encoding) (closing : Msg),
      snd (for_encoding parse content encodings)
      = (map st_error_with errs ++ [closing])%list
      /\ (List.length errs <= 4)%nat
      /\ ((exists df enc,
              fst (for_encoding parse content encodings) = Some df
              /\ closing = st_success_loaded enc)
          \/ (fst (for_encoding parse content encodings) = None
              /\ closing = st_error_no_encoding)).
Proof.
  intros DataFrame parse content.
  destruct (for_encoding_cases parse content encodings)
    as [(pre & enc & post & df & E & F & R & FE) | [F FE]]; rewrite FE.
  - exists (filter (noisy parse content) pre), (st_success_loaded enc).
    split; [reflexivity|]. split.
    + apply (f_equal (@List.length _)) in E.
      rewrite length_app in E. simpl in E.
      pose proof (filter_length_le (noisy parse content) pre). lia.
    + left. now exists df, enc.
  - exists (filter (noisy parse content) encodings), st_error_no_encoding.
    split; [reflexivity|]. split; [apply filter_length_le | now right].
Qed.

Lemma cp1252_ascii (content : list byte) :
  Forall ascii_byte content ->
  Codec.cp1252_decode content = Some (map Byte.to_N content).
Proof.
  induction 1 as [|b bs Hb _ IH]; simpl; [reflexivity|].
  rewrite IH. unfold Codec.cp1252_char.
  unfold ascii_byte in Hb.
  apply N.ltb_lt in Hb. now rewrite Hb.
Qed.

Lemma utf8_ascii (content : list byte) :
  Forall ascii_byte content ->
  Codec.utf8_decode content = Some (map Byte.to_N content).
Proof.
  unfold Codec.utf8_decode.
  induction 1 as [|b bs Hb _ IH]; [reflexivity|].
  unfold ascii_byte in Hb. apply N.ltb_lt in Hb.
  change (map Byte.to_N (b :: bs))
    with (Byte.to_N b :: map Byte.to_N bs).
  cbn [Codec.utf8_points]. now rewrite Hb, IH.
Qed.

(** X4.  On a content of ASCII bytes the four encodings decode to the
    same text, one code point for each byte, so none of them can succeed
    where another failed: the loader returns what the parser makes of
    that text under latin1, and when the parser rejects it the loader
    shows four error messages and returns [None]. *)
Theorem x4_ascii_content :
  forall content : list byte,
    Forall ascii_byte content ->
    (forall enc, Codec.decode enc content = Some (map Byte.to_N content))
    /\ (forall (DataFrame : Type) (parse : Codec.text -> option DataFrame),
           for_encoding parse content encodings
           = match parse (map Byte.to_N content) with
             | Some df => (Some df, [st_success_loaded Codec.latin1])
             | None =>
                 (None, [st_error_with Codec.latin1;
                         st_error_with Codec.iso_8859_1;
                         st_error_with Codec.cp1252;
                         st_error_with Codec.utf_8;
                         st_error_no_encoding])
             end).
Proof.
  intros content A.
  assert (D : forall enc,
             Codec.decode enc content = Some (map Byte.to_N content)).
  { intros [| | |]; simpl;
      [reflexivity | reflexivity | now apply cp1252_ascii
       | now apply utf8_ascii]. }
  split; [exact D|].
  intros DataFrame parse.
  unfold encodings. cbn [for_encoding]. unfold read_csv.
  rewrite !D.
  now destruct (parse (map Byte.to_N content)).
Qed.

Lemma x4_ascii_content_witness :
  Forall ascii_byte [x61; x3b; x62; x0a]
  /\ for_encoding text_parser [x61; x3b; x62; x0a] encodings
     = (Some [97; 59; 98; 10]%N, [st_success_loaded Codec.latin1]).
Proof.
  assert (A : Forall ascii_byte [x61; x3b; x62; x0a])
    by (repeat constructor).
  split; [exact A|].
  rewrite (proj2 (x4_ascii_content _ A)). reflexivity.
Defined.

(** ** utf-8 there and back *)

Lemma utf8_points_cons b0 r0 :
  Codec.utf8_points (b0 :: r0) =
  if (b0 <? 0x80)%N then option_map (cons b0) (Codec.utf8_points r0)
  else if Codec.between 0xC2 0xDF b0 then
    match r0 with
    | b1 :: r1 =>
        if Codec.cont b1
        then option_map (cons ((b0 - 0xC0) * 64 + (b1 - 0x80))%N)
                        (Codec.utf8_points r1)
        else None
    | _ => None
    end
  else if Codec.between 0xE0 0xEF b0 then
    match r0 with
    | b1 :: b2 :: r2 =>
        if Codec.between (if (b0 =? 0xE0)%N then 0xA0 else 0x80)
                         (if (b0 =? 0xED)%N then 0x9F else 0xBF) b1
           && Codec.cont b2
        then option_map
               (cons ((b0 - 0xE0) * 4096 + (b1 - 0x80) * 64
                      + (b2 - 0x80))%N)
               (Codec.utf8_points r2)
        else None
    | _ => None
    end
  else if Codec.between 0xF0 0xF4 b0 then
    match r0 with
    | b1 :: b2 :: b3 :: r3 =>
        if Codec.between (if (b0 =? 0xF0)%N then 0x90 else 0x80)
                         (if (b0 =? 0xF4)%N then 0x8F else 0xBF) b1
           && Codec.cont b2 && Codec.cont b3
        then option_map
               (cons ((b0 - 0xF0) * 262144 + (b1 - 0x80) * 4096
                      + (b2 - 0x80) * 64 + (b3 - 0x80))%N)
               (Codec.utf8_points r3)
        else None
    | _ => None
    end
  else None.
Proof. destruct r0 as [|b1 [|b2 [|b3 r3]]]; reflexivity. Qed.

Lemma between_true lo hi n :
  (lo <= n)%N -> (n <= hi)%N -> Codec.between lo hi n = true.
Proof.
  intros. unfold Codec.between. apply andb_true_iff.
  split; now apply N.leb_le.
Qed.

Lemma between_false lo hi n :
  (n < lo \/ hi < n)%N -> Codec.between lo hi n = false.
Proof.
  intros H. unfold Codec.between. apply andb_false_iff.
  rewrite !N.leb_gt. tauto.
Qed.

Lemma utf8_one cp rest :
  (cp < 0x80)%N ->
  Codec.utf8_points (cp :: rest)
  = option_map (cons cp) (Codec.utf8_points rest).
Proof.
  intros H. rewrite utf8_points_cons.
  apply N.ltb_lt in H. now rewrite H.
Qed.

Lemma utf8_two cp rest :
  (0x80 <= cp)%N -> (cp < 0x800)%N ->
  Codec.utf8_points ((0xC0 + cp / 64) :: (0x80 + cp mod 64) :: rest)%N
  = option_map (cons cp) (Codec.utf8_points rest).
Proof.
  intros L H.
  pose proof (N.div_mod cp 64 ltac:(lia)) as E.
  pose proof (N.mod_lt cp 64 ltac:(lia)) as M.
  remember (cp / 64)%N as q. remember (cp mod 64)%N as r.
  rewrite utf8_points_cons.
  replace (0xC0 + q <? 0x80)%N with false by (symmetry; apply N.ltb_ge; lia).
  rewrite between_true by lia.
  unfold Codec.cont. rewrite between_true by lia.
  do 2 f_equal. lia.
Qed.

Lemma utf8_three cp rest :
  (0x800 <= cp)%N -> (cp < 0x10000)%N ->
  (cp < 0xD800 \/ 0xDFFF < cp)%N ->
  Codec.utf8_points
    ((0xE0 + cp / 4096) :: (0x80 + (cp / 64) mod 64)
       :: (0x80 + cp mod 64) :: rest)%N
  = option_map (cons cp) (Codec.utf8_points rest).
Proof.
  intros L H S.
  replace (cp / 4096)%N with (cp / 64 / 64)%N
    by (rewrite N.Div0.div_div; reflexivity).
  pose proof (N.div_mod cp 64 ltac:(lia)) as E0.
  pose proof (N.mod_lt cp 64 ltac:(lia)) as M0.
  remember (cp / 64)%N as a. remember (cp mod 64)%N as r0.
  pose proof (N.div_mod a 64 ltac:(lia)) as E1.
  pose proof (N.mod_lt a 64 ltac:(lia)) as M1.
  remember (a / 64)%N as q. remember (a mod 64)%N as r1.
  rewrite utf8_points_cons.
  replace (0xE0 + q <? 0x80)%N with false by (symmetry; apply N.ltb_ge; lia).
  rewrite (between_false 0xC2 0xDF) by lia.
  rewrite (between_true 0xE0 0xEF) by lia.
  unfold Codec.cont.
  rewrite (between_true 0x80 0xBF (0x80 + r0)) by lia.
  assert (B : Codec.between
                (if (0xE0 + q =? 0xE0)%N then 0xA0 else 0x80)
                (if (0xE0 + q =? 0xED)%N then 0x9F else 0xBF)
                (0x80 + r1)%N = true).
  { destruct (N.eqb_spec (0xE0 + q) 0xE0), (N.eqb_spec (0xE0 + q) 0xED);
      apply between_true; lia. }
  rewrite B. simpl andb. cbv iota.
  do 2 f_equal. lia.
Qed.

Lemma utf8_four cp rest :
  (0x10000 <= cp)%N -> (cp < 0x110000)%N ->
  Codec.utf8_points
    ((0xF0 + cp / 262144) :: (0x80 + (cp / 4096) mod 64)
       :: (0x80 + (cp / 64) mod 64) :: (0x80 + cp mod 64) :: rest)%N
  = option_map (cons cp) (Codec.utf8_points rest).
Proof.
  intros L H.
  replace (cp / 262144)%N with (cp / 64 / 64 / 64)%N
    by (rewrite !N.Div0.div_div; reflexivity).
  replace (cp / 4096)%N with (cp / 64 / 64)%N
    by (rewrite N.Div0.div_div; reflexivity).
  pose proof (N.div_mod cp 64 ltac:(lia)) as E0.
  pose proof (N.mod_lt cp 64 ltac:(lia)) as M0.
  remember (cp / 64)%N as a. remember (cp mod 64)%N as r0.
  pose proof (N.div_mod a 64 ltac:(lia)) as E1.
  pose proof (N.mod_lt a 64 ltac:(lia)) as M1.
  remember (a / 64)%N as b. remember (a mod 64)%N as r1.
  pose proof (N.div_mod b 64 ltac:(lia)) as E2.
  pose proof (N.mod_lt b 64 ltac:(lia)) as M2.
  remember (b / 64)%N as q. remember (b mod 64)%N as r2.
  rewrite utf8_points_cons.
  replace (0xF0 + q <? 0x80)%N with false by (symmetry; apply N.ltb_ge; lia).
  rewrite (between_false 0xC2 0xDF) by lia.
  rewrite (between_false 0xE0 0xEF) by lia.
  rewrite (between_true 0xF0 0xF4) by lia.
  unfold Codec.cont.
  rewrite (between_true 0x80 0xBF (0x80 + r0)) by lia.
  rewrite (between_true 0x80 0xBF (0x80 + r1)) by lia.
  assert (B : Codec.between
                (if (0xF0 + q =? 0xF0)%N then 0x90 else 0x80)
                (if (0xF0 + q =? 0xF4)%N then 0x8F else 0xBF)
                (0x80 + r2)%N = true).
  { destruct (N.eqb_spec (0xF0 + q) 0xF0), (N.eqb_spec (0xF0 + q) 0xF4);
      apply between_true; lia. }
  rewrite B. simpl andb. cbv iota.
  do 2 f_equal. lia.
Qed.

Lemma utf8_point_roundtrip cp rest :
  scalar cp ->
  exists b,
    utf8_bytes cp = Some b
    /\ Forall (fun x => x < 256)%N b
    /\ Codec.utf8_points (b ++ rest)%list
       = option_map (cons cp) (Codec.utf8_points rest).
Proof.
  intros S. unfold scalar in S. unfold utf8_bytes.
  destruct (N.ltb_spec cp 0x80) as [H1|H1].
  { exists [cp]. split; [reflexivity|]. split.
    - repeat constructor. lia.
    - now apply utf8_one. }
  destruct (N.ltb_spec cp 0x800) as [H2|H2].
  { eexists. split; [reflexivity|]. split.
    - pose proof (N.mod_lt cp 64 ltac:(lia)).
      pose proof (N.Div0.div_lt_upper_bound cp 64 32 ltac:(lia)).
      repeat constructor; lia.
    - now apply utf8_two. }
  destruct (N.ltb_spec cp 0x10000) as [H3|H3].
  { assert (Sg : ((0xD800 <=? cp) && (cp <=? 0xDFFF))%N = false).
    { apply andb_false_iff. rewrite !N.leb_gt. lia. }
    rewrite Sg. eexists. split; [reflexivity|]. split.
    - pose proof (N.mod_lt cp 64 ltac:(lia)).
      pose proof (N.mod_lt (cp / 64) 64 ltac:(lia)).
      pose proof (N.Div0.div_lt_upper_bound cp 4096 16 ltac:(lia)).
      repeat constructor; lia.
    - apply utf8_three; lia. }
  destruct (N.ltb_spec cp 0x110000) as [H4|H4]; [|lia].
  eexists. split; [reflexivity|]. split.
  - pose proof (N.mod_lt cp 64 ltac:(lia)).
    pose proof (N.mod_lt (cp / 64) 64 ltac:(lia)).
    pose proof (N.mod_lt (cp / 4096) 64 ltac:(lia)).
    pose proof (N.Div0.div_lt_upper_bound cp 262144 5 ltac:(lia)).
    repeat constructor; lia.
  - apply utf8_four; lia.
Qed.

Lemma utf8_encode_roundtrip (t : Codec.text) :
  Forall scalar t ->
  exists bs,
    utf8_encode t = Some bs
    /\ Forall (fun x => x < 256)%N bs
    /\ forall rest,
         Codec.utf8_points (bs ++ rest)%list
         = option_map (app t) (Codec.utf8_points rest).
Proof.
  induction 1 as [|cp t S _ (bs & E & F & R)].
  - exists []. repeat split; [constructor|].
    intros rest. simpl. now destruct (Codec.utf8_points rest).
  - destruct (utf8_point_roundtrip cp [] S) as (b & Eb & Fb & _).
    exists (b ++ bs)%list. simpl. rewrite Eb, E.
    split; [reflexivity|]. split; [now apply Forall_app|].
    intros rest. rewrite <- app_assoc.
    destruct (utf8_point_roundtrip cp (bs ++ rest)%list S)
      as (b' & Eb' & _ & Rb).
    assert (b' = b) by congruence. subst b'.
    rewrite Rb, R. now destruct (Codec.utf8_points rest).
Qed.

(** X5.  The export writes with the encoding utf-8-sig: for every text
    of code points utf-8 can carry, the buffer is the three bytes EF BB
    BF followed by the utf-8 bytes of the text, every value a byte; the
    codec utf-8 of the loader reads the text bytes back as the same text
    and the whole buffer as that text behind the code point U+FEFF,
    while latin1, which the loader tries first, reads the buffer as one
    character for each byte. *)
Theorem x5_utf_8_sig_round_trip :
  forall t : Codec.text,
    Forall scalar t ->
    exists bs,
      encode_utf_8_sig t = Some (BOM ++ bs)%list
      /\ Forall (fun x => x < 256)%N bs
      /\ Codec.utf8_points bs = Some t
      /\ (forall content : list byte,
             map Byte.to_N content = (BOM ++ bs)%list ->
             Codec.decode Codec.utf_8 content = Some (0xFEFF%N :: t)
             /\ Codec.decode Codec.latin1 content = Some (BOM ++ bs)%list).
Proof.
  intros t S.
  destruct (utf8_encode_roundtrip t S) as (bs & E & F & R).
  exists bs. unfold encode_utf_8_sig. rewrite E.
  split; [reflexivity|]. split; [exact F|].
  assert (Rt : Codec.utf8_points bs = Some t).
  { rewrite <- (app_nil_r bs), R. simpl. now rewrite app_nil_r. }
  split; [exact Rt|].
  intros content C. simpl. unfold Codec.utf8_decode, Codec.latin1_decode.
  rewrite C. split; [|reflexivity].
  change (BOM ++ bs)%list with (0xEF :: 0xBB :: 0xBF :: bs)%N.
  rewrite (utf8_points_cons 0xEF).
  change ((0xEF <? 0x80)%N) with false. cbv iota.
  change (Codec.between 0xC2 0xDF 0xEF) with false. cbv iota.
  change (Codec.between 0xE0 0xEF 0xEF) with true. cbv iota.
  change (Codec.between (if (0xEF =? 0xE0)%N then 0xA0 else 0x80)
                        (if (0xEF =? 0xED)%N then 0x9F else 0xBF) 0xBB
          && Codec.cont 0xBF) with true. cbv iota.
  now rewrite Rt.
Qed.

(** The text "año": the n-tilde takes two bytes. *)
Lemma x5_utf_8_sig_round_trip_witness :
  Forall scalar [97; 241; 111]%N
  /\ encode_utf_8_sig [97; 241; 111]%N
     = Some [0xEF; 0xBB; 0xBF; 0x61; 0xC3; 0xB1; 0x6F]%N
  /\ Codec.decode Codec.utf_8 [xef; xbb; xbf; x61; xc3; xb1; x6f]
     = Some [0xFEFF; 97; 241; 111]%N.
Proof.
  assert (S : Forall scalar [97; 241; 111]%N).
  { repeat constructor; unfold scalar; lia. }
  split; [exact S|].
  destruct (x5_utf_8_sig_round_trip _ S) as (bs & E & _ & _ & D).
  vm_compute in E. inversion E; subst bs. clear E.
  split; [reflexivity|].
  exact (proj1 (D [xef; xbb; xbf; x61; xc3; xb1; x6f] eq_refl)).
Defined.

(** ** The normaliser, continued *)

Lemma filter_idem {A : Type} (f : A -> bool) (l : list A) :
  filter f (filter f l) = filter f l.
Proof.
  rewrite filter_andb. apply filter_ext. intros x. now destruct (f x).
Qed.

(** X7.  Whatever [pd.to_datetime] makes of the date texts (the parser is
    left open: all that is asked of it is to return as many dates as it
    was given), when it does not raise the normalised table is the loaded
    table without its rows of quantity 0: the rows that remain are in
    their order, none is lost (a row without a quantity stays), their
    other cells are untouched and their dates are what the parser made of
    their texts.  The dates of the rows of quantity 0 never reach the
    parser: the outcome is that of the table from which they were
    removed beforehand.  In an int64 column the rows of quantity 0 are
    those whose cell is the integer 0. *)
Theorem x7_normalize_keeps_the_nonzero_rows :
  (forall (qty amt : Type) (Dq : Dtype qty)
          (to_datetime :
             list (option string) -> option (list (option Timestamp)))
          (l : Dates.Locale)
          (df : list (RawRowOf qty amt)) (out : list (RowOf qty amt)),
      (forall col ts,
          to_datetime col = Some ts -> List.length ts = List.length col) ->
      normalize_with to_datetime l df = Some out ->
      Forall2 same_cells (filter (fun r => ne0 (raw_CANTIDAD r)) df) out
      /\ to_datetime
           (map raw_FECHA_DOCUMENTO
                (filter (fun r => ne0 (raw_CANTIDAD r)) df))
         = Some (map FECHA_DOCUMENTO out)
      /\ normalize_with to_datetime l
           (filter (fun r => ne0 (raw_CANTIDAD r)) df)
         = Some out)
  /\ (forall df : list RawRow,
        filter (fun r => ne0 (raw_CANTIDAD r)) df
        = filter (fun r => negb (zero_quantity r)) df).
Proof.
  split.
  - intros qty amt Dq to_datetime l df out L N.
    destruct (normalize_with_rows to_datetime L l df out N) as (T & S & _).
    split; [exact S|]. split; [exact T|].
    rewrite <- N. unfold normalize_with. now rewrite filter_idem.
  - intros df. apply filter_ext. intros r. unfold zero_quantity, ne0.
    destruct (raw_CANTIDAD r) as [[| |]|]; reflexivity.
Qed.

(** A sale, a cancelled line of quantity 0 whose date is not a date, and
    a sale without a date, read by the parser of the embedding. *)
Lemma x7_normalize_keeps_the_nonzero_rows_witness :
  normalize Dates.C_locale
    [mkRawRow (Some "2024-03-05") (Some "P1") None None (Some 2) (Some 100)
              None;
     mkRawRow (Some "sin fecha") (Some "P2") None None (Some 0) (Some 0)
              None;
     mkRawRow None (Some "P3") None None (Some 1) (Some 40) None]
  = Some [mkRow (Some (mkTimestamp 2024 3 5)) (Some "P1") None None
                (Some 2) (Some 100) None
                (Some 2024) (Some 3) (Some "March");
          mkRow None (Some "P3") None None (Some 1) (Some 40) None
                None None None]
  /\ normalize Dates.C_locale
       [mkRawRow (Some "2024-03-05") (Some "P1") None None (Some 2)
                 (Some 100) None;
        mkRawRow None (Some "P3") None None (Some 1) (Some 40) None]
     = Some [mkRow (Some (mkTimestamp 2024 3 5)) (Some "P1") None None
                   (Some 2) (Some 100) None
                   (Some 2024) (Some 3) (Some "March");
             mkRow None (Some "P3") None None (Some 1) (Some 40) None
                   None None None].
Proof.
  assert (N : normalize Dates.C_locale
    [mkRawRow (Some "2024-03-05") (Some "P1") None None (Some 2) (Some 100)
              None;
     mkRawRow (Some "sin fecha") (Some "P2") None None (Some 0) (Some 0)
              None;
     mkRawRow None (Some "P3") None None (Some 1) (Some 40) None]
  = Some [mkRow (Some (mkTimestamp 2024 3 5)) (Some "P1") None None
                (Some 2) (Some 100) None
                (Some 2024) (Some 3) (Some "March");
          mkRow None (Some "P3") None None (Some 1) (Some 40) None
                None None None]) by reflexivity.
  split; [exact N|].
  exact (proj2 (proj2 (proj1 x7_normalize_keeps_the_nonzero_rows
                         Z Z int64 (Dates.to_datetime false) _ _ _
                         (to_datetime_length false) N))).
Defined.

(** ** The options of the sidebar and the filters, continued *)

Lemma dropna_In {A : Type} (x : A) (col : list (option A)) :
  In x (dropna col) <-> In (Some x) col.
Proof.
  induction col as [|[y|] col IH]; simpl.
  - tauto.
  - rewrite IH. split; intros [H|H]; auto; left; congruence.
  - rewrite IH. split; [auto | intros [H|H]; [discriminate | exact H]].
Qed.

Section PdUnique.

Context {A : Type} (eqb : A -> A -> bool).
Hypothesis eqb_eq : forall x y, eqb x y = true <-> x = y.

Lemma pd_unique_In x l : In x (pd_unique eqb l) <-> In x l.
Proof.
  induction l as [|y l IH]; simpl; [tauto|].
  rewrite filter_In, IH, negb_true_iff.
  destruct (eqb y x) eqn:E.
  - apply eqb_eq in E. subst. split; [tauto | intros _; now left].
  - split; [tauto|]. intros [->|H]; [now left | right; now split].
Qed.

Lemma pd_unique_NoDup l : NoDup (pd_unique eqb l).
Proof.
  induction l as [|y l IH]; simpl; constructor.
  - rewrite filter_In, negb_true_iff. intros [_ E].
    assert (eqb y y = true) by now apply eqb_eq. congruence.
  - now apply NoDup_filter.
Qed.

End PdUnique.

Lemma options_years col :
  NoDup (Py.sorted Z_leb (pd_unique Z.eqb (dropna col)))
  /\ StronglySorted Z.le (Py.sorted Z_leb (pd_unique Z.eqb (dropna col)))
  /\ forall y, In y (Py.sorted Z_leb (pd_unique Z.eqb (dropna col)))
               <-> In (Some y) col.
Proof.
  split; [|split].
  - eapply Permutation_NoDup; [apply sorted_perm|].
    apply (pd_unique_NoDup Z.eqb Z.eqb_eq).
  - apply StronglySorted_impl with (R := fun a b => Z_leb a b = true).
    + intros x y. apply Z_leb_le.
    + apply (sorted_sorted Z_leb Z_leb_total Z_leb_trans).
  - intros y.
    now rewrite sorted_In, (pd_unique_In Z.eqb Z.eqb_eq), dropna_In.
Qed.

Lemma options_strings col :
  NoDup (Py.sorted str_leb (pd_unique String.eqb (dropna col)))
  /\ StronglySorted (fun a b => String.leb a b = true)
                    (Py.sorted str_leb (pd_unique String.eqb (dropna col)))
  /\ forall x, In x (Py.sorted str_leb (pd_unique String.eqb (dropna col)))
               <-> In (Some x) col.
Proof.
  split; [|split].
  - eapply Permutation_NoDup; [apply sorted_perm|].
    apply (pd_unique_NoDup String.eqb String.eqb_eq).
  - apply (sorted_sorted str_leb str_leb_total str_leb_trans).
  - intros x.
    now rewrite sorted_In, (pd_unique_In String.eqb String.eqb_eq),
      dropna_In.
Qed.

(** X8.  The options offered for the year and for the customer class
    are exactly the values present in the column, each once, in
    ascending order; a missing cell gives no option. *)
Theorem x8_sidebar_options :
  forall df_original : list Row,
    (NoDup (años df_original)
     /\ StronglySorted Z.le (años df_original)
     /\ forall y, In y (años df_original)
                  <-> exists r, In r df_original /\ AÑO r = Some y)
    /\ (NoDup (clases df_original)
        /\ StronglySorted (fun a b => String.leb a b = true)
                          (clases df_original)
        /\ forall c, In c (clases df_original)
                     <-> exists r, In r df_original
                                   /\ CLASE_CLIENTE r = Some c).
Proof.
  intros df. split.
  - destruct (options_years (map AÑO df)) as (N & S & I).
    split; [exact N|]. split; [exact S|].
    intros y. unfold años. rewrite I, in_map_iff.
    split; intros (r & H1 & H2); exists r; auto.
  - destruct (options_strings (map CLASE_CLIENTE df)) as (N & S & I).
    split; [exact N|]. split; [exact S|].
    intros c. unfold clases. rewrite I, in_map_iff.
    split; intros (r & H1 & H2); exists r; auto.
Qed.

(** X9.  With the selections the page starts with (every year, every
    month, every class, no product code) the filters keep exactly the
    rows that have a year, a month name and a customer class, in their
    order: a row whose customer class is missing is never shown, since
    no option stands for it, and a table without missing cells is kept
    whole. *)
Theorem x9_default_selection :
  forall df_original : list Row,
    df_filtrado (default_selection df_original) df_original
    = filter complete df_original
    /\ (forallb complete df_original = true ->
        df_filtrado (default_selection df_original) df_original
        = df_original).
Proof.
  intros df.
  assert (E : df_filtrado (default_selection df) df = filter complete df).
  { rewrite df_filtrado_as_filter. apply filter_ext_in. intros r Hr.
    unfold default_selection, complete. simpl.
    destruct (options_years (map AÑO df)) as (_ & _ & Iy).
    destruct (options_strings (map MES df)) as (_ & _ & Im).
    destruct (options_strings (map CLASE_CLIENTE df)) as (_ & _ & Ic).
    rewrite andb_true_r.
    destruct (AÑO r) as [y|] eqn:Hy; simpl; [|reflexivity].
    assert (Ty : existsb (Z.eqb y) (años df) = true).
    { apply existsb_exists. exists y. split; [|apply Z.eqb_refl].
      apply Iy. rewrite <- Hy. now apply in_map. }
    rewrite Ty. simpl.
    destruct (MES r) as [m|] eqn:Hm; simpl; [|reflexivity].
    assert (Tm : existsb (String.eqb m) (meses df) = true).
    { apply existsb_exists. exists m. split; [|apply String.eqb_refl].
      apply Im. rewrite <- Hm. now apply in_map. }
    rewrite Tm. simpl.
    destruct (CLASE_CLIENTE r) as [c|] eqn:Hc; simpl; [|reflexivity].
    apply existsb_exists. exists c. split; [|apply String.eqb_refl].
    apply Ic. rewrite <- Hc. now apply in_map. }
  split; [exact E|].
  intros F. rewrite E. rewrite forallb_forall in F.
  clear E. induction df as [|r df IH]; simpl; [reflexivity|].
  rewrite (F r (or_introl eq_refl)). f_equal.
  apply IH. intros x Hx. apply F. now right.
Qed.

(** X10.  Filtering is idempotent and two selections can be applied in
    either order: filtering a filtered table by the same selection
    changes nothing, and filtering by one selection and then by another
    gives the table that the other order gives. *)
Theorem x10_filters_compose :
  forall (sel sel' : Selection) (df_original : list Row),
    df_filtrado sel (df_filtrado sel df_original)
    = df_filtrado sel df_original
    /\ df_filtrado sel (df_filtrado sel' df_original)
       = df_filtrado sel' (df_filtrado sel df_original).
Proof.
  intros sel sel' df.
  rewrite !df_filtrado_as_filter, !filter_andb.
  split; apply filter_ext; intros r.
  - match goal with |- ?b && ?b = ?b => now destruct b end.
  - apply andb_comm.
Qed.

(** X11.  An empty selection of years, of months or of customer classes
    leaves no row, and on a table that has rows the page then shows the
    warning that nothing matches; only the selection of product codes
    may be empty without emptying the result. *)
Theorem x11_empty_selection_shows_nothing :
  forall (sel : Selection) (df_original : list Row),
    año_seleccionado sel = [] \/ mes_seleccionado sel = []
    \/ clase_seleccionada sel = [] ->
    df_filtrado sel df_original = []
    /\ (df_original <> [] -> script df_original sel = st_warning_no_data).
Proof.
  intros sel df H.
  assert (E : df_filtrado sel df = []).
  { destruct (df_filtrado sel df) as [|r rest] eqn:F; [reflexivity|].
    assert (I : In r (df_filtrado sel df)) by (rewrite F; now left).
    apply df_filtrado_In in I.
    destruct I as (_ & (y & _ & Iy) & (m & _ & Im) & _ & (c & _ & Ic)).
    destruct H as [H|[H|H]]; rewrite H in *; contradiction. }
  split; [exact E|].
  intros N. now apply (proj1 (proj2 (script_outcomes df sel))).
Qed.

Lemma x11_empty_selection_shows_nothing_witness :
  df_filtrado (mkSelection [2024] [] [] ["Minorista"])
              [march_row 5 "P1" None 2 100]
  = []
  /\ script [march_row 5 "P1" None 2 100]
            (mkSelection [2024] [] [] ["Minorista"])
     = st_warning_no_data.
Proof.
  destruct (x11_empty_selection_shows_nothing
              (mkSelection [2024] [] [] ["Minorista"])
              [march_row 5 "P1" None 2 100]) as [E W].
  - right. left. reflexivity.
  - split; [exact E | apply W; discriminate].
Defined.

(** X12.  In a table whose year and month columns come from the date,
    every row that passes the filters has a date, a year, a month number,
    a month name and a customer class: a row without a date or without a
    class is shown under no selection.  Its product code alone may be
    missing, and only when no product code is selected. *)
Theorem x12_filtered_rows_are_dated :
  forall (l : Dates.Locale) (sel : Selection) (df_original : list Row),
    Forall (derived l) df_original ->
    Forall (fun r =>
              FECHA_DOCUMENTO r <> None /\ AÑO r <> None
              /\ MES_NUM r <> None /\ MES r <> None
              /\ CLASE_CLIENTE r <> None
              /\ (CODIGO_PRODUCTO r = None -> codigo_seleccionado sel = []))
           (df_filtrado sel df_original).
Proof.
  intros l sel df D. rewrite Forall_forall in *. intros r I.
  apply df_filtrado_In in I.
  destruct I as (I & (y & Hy & _) & (m & Hm & _) & Hc & (c & Hk & _)).
  destruct (D r I) as (Dy & Dm & _).
  destruct (FECHA_DOCUMENTO r) as [t|].
  - rewrite Dm, Hy, Hm, Hk. simpl.
    repeat split; try discriminate.
    intros N. destruct Hc as [Hc|(c' & Hc & _)]; [exact Hc | congruence].
  - rewrite Hy in Dy. discriminate.
Qed.

Lemma x12_filtered_rows_are_dated_witness :
  Forall (derived Dates.C_locale) [march_row 5 "P1" None 2 100]
  /\ Forall (fun r => FECHA_DOCUMENTO r <> None)
            (df_filtrado (march_selection []) [march_row 5 "P1" None 2 100]).
Proof.
  assert (D : Forall (derived Dates.C_locale) [march_row 5 "P1" None 2 100])
    by (repeat constructor).
  split; [exact D|].
  pose proof (x12_filtered_rows_are_dated Dates.C_locale (march_selection [])
                _ D) as F.
  revert F. apply Forall_impl. intros r H. apply H.
Defined.

(** ** The aggregation, continued *)

Lemma Zsum_perm (l l' : list Z) : Permutation l l' -> Zsum l = Zsum l'.
Proof.
  unfold Zsum. induction 1; simpl; lia.
Qed.

Lemma Zsum_map_add {A : Type} (f g : A -> Z) (l : list A) :
  Zsum (map (fun x => f x + g x) l) = Zsum (map f l) + Zsum (map g l).
Proof. unfold Zsum. induction l as [|x l IH]; simpl; lia. Qed.

Lemma Zsum_indicator (keys : list Key) (k0 : Key) (v : Z) :
  NoDup keys -> In k0 keys ->
  Zsum (map (fun k => if key_eqb k k0 then v else 0) keys) = v.
Proof.
  unfold Zsum. induction 1 as [|k keys Hn N IH]; simpl; [tauto|].
  intros [->|I].
  - assert (E : key_eqb k0 k0 = true) by now apply key_eqb_eq.
    rewrite E.
    assert (Z0 : fold_right Z.add 0
                   (map (fun k => if key_eqb k k0 then v else 0) keys) = 0).
    { clear IH N. induction keys as [|k keys IH]; simpl; [reflexivity|].
      destruct (key_eqb k k0) eqn:K.
      - apply key_eqb_eq in K. subst. destruct Hn. now left.
      - rewrite IH; [reflexivity|]. intros H. apply Hn. now right. }
    lia.
  - destruct (key_eqb k k0) eqn:K.
    + apply key_eqb_eq in K. subst. contradiction.
    + rewrite (IH I). lia.
Qed.

Lemma Zsum_zero {A : Type} (l : list A) : Zsum (map (fun _ => 0) l) = 0.
Proof. unfold Zsum. induction l; simpl; lia. Qed.

Lemma total_cons col r g : total col (r :: g) = or_zero (col r) + total col g.
Proof. reflexivity. Qed.

(** The arithmetic sums of the groups add up to the arithmetic sum over
    the rows that are in a group. *)
Lemma group_sums_partition col (keys : list Key) (df : list Row) :
  NoDup keys ->
  (forall r k, In r df -> key_of r = Some k -> In k keys) ->
  Zsum (map (fun k => total col (filter (in_group k) df)) keys)
  = total col (filter has_key df).
Proof.
  intros N. induction df as [|r df IH]; intros C.
  - simpl. apply Zsum_zero.
  - assert (IH' : Zsum (map (fun k => total col (filter (in_group k) df)) keys)
                  = total col (filter has_key df)).
    { apply IH. intros r' k I. apply C. now right. }
    cbn [filter]. unfold has_key at 1, in_group at 1.
    destruct (key_of r) as [k0|] eqn:K.
    + rewrite total_cons, <- IH'.
      rewrite <- (Zsum_indicator keys k0 (or_zero (col r)) N)
        by (apply (C r k0); [now left | exact K]).
      rewrite <- Zsum_map_add. f_equal. apply map_ext. intros k.
      destruct (key_eqb k k0); [apply total_cons | reflexivity].
    + exact IH'.
Qed.

Lemma Zsum_nonzero {A : Type} (f : A -> Z) (l : list A) :
  Zsum (map f (filter (fun x => negb (f x =? 0)) l)) = Zsum (map f l).
Proof.
  unfold Zsum. induction l as [|x l IH]; simpl; [reflexivity|].
  destruct (Z.eqb_spec (f x) 0) as [E|E]; simpl; lia.
Qed.

(** Adding up numbers that were each brought back into the range of
    int64 gives, modulo 2^64, the sum of the numbers themselves. *)
Lemma wrap64_Zsum {A : Type} (f : A -> Z) (l : list A) :
  wrap64 (Zsum (map (fun x => wrap64 (f x)) l)) = wrap64 (Zsum (map f l)).
Proof.
  unfold Zsum. induction l as [|x l IH]; simpl; [reflexivity|].
  now rewrite wrap64_add_l, <- wrap64_add_r, IH, wrap64_add_r.
Qed.

(** The summed column of [df_agrupado], group by group. *)
Lemma df_agrupado_sum col (proj : Agg.Row -> Z) (df : list Row) :
  (forall kg, proj (agg kg) = sum col (snd kg)) ->
  Zsum (map (fun p => proj (snd p)) (df_agrupado df))
  = Zsum (map (fun k => wrap64 (total col (filter (in_group k) df)))
              (Py.sorted key_leb (unique key_eqb (present_keys df)))).
Proof.
  intros P.
  rewrite <- (Zsum_perm _ _ (Permutation_map (fun p => proj (snd p))
                                             (df_agrupado_perm df))).
  rewrite <- map_map, reset_index_rows.
  unfold groupby. rewrite !map_map.
  f_equal. apply map_ext. intros k. rewrite P. apply sum_int64.
Qed.

Lemma df_agrupado_sum_wraps col (proj : Agg.Row -> Z) (df : list Row) :
  (forall kg, proj (agg kg) = sum col (snd kg)) ->
  wrap64 (Zsum (map (fun p => proj (snd p)) (df_agrupado df)))
  = wrap64 (total col (filter has_key df)).
Proof.
  intros P. rewrite (df_agrupado_sum col proj df P), wrap64_Zsum.
  f_equal. apply group_sums_partition; [apply group_keys_NoDup|].
  intros r k I K. apply group_keys_In. now exists r.
Qed.

Lemma df_agrupado_sum_exact col (proj : Agg.Row -> Z) (df : list Row) :
  (forall kg, proj (agg kg) = sum col (snd kg)) ->
  (forall k, - 2 ^ 63 <= total col (filter (in_group k) df) < 2 ^ 63) ->
  Zsum (map (fun p => proj (snd p)) (df_agrupado df))
  = total col (filter has_key df).
Proof.
  intros P R. rewrite (df_agrupado_sum col proj df P).
  rewrite <- (group_sums_partition col _ df (group_keys_NoDup df)).
  - f_equal. apply map_ext. intros k. apply wrap64_small. apply R.
  - intros r k I K. apply group_keys_In. now exists r.
Qed.

Lemma total_ventas_sum (df : Indexed Final.Row) :
  total_ventas df = wrap64 (Zsum (map precio df)).
Proof. unfold total_ventas. cbn [series_sum int64]. apply sum64_wrap. Qed.

Lemma total_ventas_df_final (agrupado : Indexed Agg.Row) :
  total_ventas (df_final agrupado)
  = wrap64 (Zsum (map agg_precio (filter kept agrupado))).
Proof.
  rewrite df_final_kept, total_ventas_sum, map_map. reflexivity.
Qed.

(** In a filtered table whose derived columns agree with the dates, the
    rows that are in a group are the rows that have a product code. *)
Lemma filtered_has_key l sel (df_original : list Row) :
  Forall (derived l) df_original ->
  filter has_key (df_filtrado sel df_original)
  = filter has_code (df_filtrado sel df_original).
Proof.
  intros D. apply filter_ext_in. intros r I.
  apply df_filtrado_In in I.
  destruct I as (I & (y & Hy & _) & (m & Hm & _) & _).
  rewrite Forall_forall in D. destruct (D r I) as (Dy & Dm & _).
  unfold has_key, has_code, key_of. rewrite Hy, Hm, Dm.
  destruct (FECHA_DOCUMENTO r) as [t|].
  - simpl. now destruct (CODIGO_PRODUCTO r).
  - rewrite Hy in Dy. discriminate.
Qed.

(** X13.  On int64 columns grouping loses nothing but what leaves the
    range of int64: the summed quantities of [df_agrupado] add up, modulo
    2^64, to the quantity of all the filtered rows that have a product
    code, and exactly so when no group sum leaves the range; the same
    holds of the amounts.  The zero filters then take away the groups
    whose quantities cancel out, with whatever amount they carry: the
    total of sales is the int64 sum of the amounts of the groups of
    quantity other than 0, the filter on the amount changing nothing in
    it. *)
Theorem x13_sums_are_conserved :
  forall (l : Dates.Locale) (sel : Selection) (df_original : list Row),
    Forall (derived l) df_original ->
    Forall numbers_present (df_filtrado sel df_original) ->
    wrap64 (Zsum (map agg_cantidad
                      (df_agrupado (df_filtrado sel df_original))))
    = wrap64 (total CANTIDAD
                    (filter has_code (df_filtrado sel df_original)))
    /\ wrap64 (Zsum (map agg_precio
                         (df_agrupado (df_filtrado sel df_original))))
       = wrap64 (total PRECIO_TOTAL_ORIG
                       (filter has_code (df_filtrado sel df_original)))
    /\ ((forall k,
            - 2 ^ 63
            <= total CANTIDAD
                     (filter (in_group k) (df_filtrado sel df_original))
            < 2 ^ 63) ->
        Zsum (map agg_cantidad (df_agrupado (df_filtrado sel df_original)))
        = total CANTIDAD (filter has_code (df_filtrado sel df_original)))
    /\ ((forall k,
            - 2 ^ 63
            <= total PRECIO_TOTAL_ORIG
                     (filter (in_group k) (df_filtrado sel df_original))
            < 2 ^ 63) ->
        Zsum (map agg_precio (df_agrupado (df_filtrado sel df_original)))
        = total PRECIO_TOTAL_ORIG
                (filter has_code (df_filtrado sel df_original)))
    /\ total_ventas (df_final (df_agrupado (df_filtrado sel df_original)))
       = wrap64
           (Zsum (map agg_precio
                      (filter (fun p => negb (agg_cantidad p =? 0))
                              (df_agrupado (df_filtrado sel df_original))))).
Proof.
  intros l sel df D _.
  rewrite <- (filtered_has_key l sel df D).
  assert (Pq : forall kg : Key * list Row,
             Agg.CANTIDAD (agg kg) = sum CANTIDAD (snd kg))
    by (intros [[[[c y] m] n] g]; reflexivity).
  assert (Pa : forall kg : Key * list Row,
             Agg.PRECIO_TOTAL_ORIG (agg kg) = sum PRECIO_TOTAL_ORIG (snd kg))
    by (intros [[[[c y] m] n] g]; reflexivity).
  split; [|split; [|split; [|split]]].
  - apply (df_agrupado_sum_wraps CANTIDAD Agg.CANTIDAD _ Pq).
  - apply (df_agrupado_sum_wraps PRECIO_TOTAL_ORIG Agg.PRECIO_TOTAL_ORIG _ Pa).
  - apply (df_agrupado_sum_exact CANTIDAD Agg.CANTIDAD _ Pq).
  - apply (df_agrupado_sum_exact PRECIO_TOTAL_ORIG Agg.PRECIO_TOTAL_ORIG _ Pa).
  - rewrite total_ventas_df_final.
    rewrite <- (Zsum_nonzero agg_precio
                  (filter (fun p => negb (agg_cantidad p =? 0))
                          (df_agrupado (df_filtrado sel df)))).
    rewrite filter_andb. reflexivity.
Qed.

(** A sale and its return cancel out in quantity and leave an amount of
    10 behind, next to a sale of 50: both amounts are in [df_agrupado],
    and the total of sales is 50. *)
Lemma x13_sums_are_conserved_witness :
  Forall (derived Dates.C_locale)
         [march_row 5 "P1" None 2 100; march_row 9 "P1" None (-2) (-90);
          march_row 7 "P2" None 1 50]
  /\ Zsum (map agg_precio
               (df_agrupado
                  (df_filtrado (march_selection [])
                     [march_row 5 "P1" None 2 100;
                      march_row 9 "P1" None (-2) (-90);
                      march_row 7 "P2" None 1 50])))
     = 60
  /\ total_ventas
       (df_final
          (df_agrupado
             (df_filtrado (march_selection [])
                [march_row 5 "P1" None 2 100;
                 march_row 9 "P1" None (-2) (-90);
                 march_row 7 "P2" None 1 50])))
     = 50.
Proof.
  assert (D : Forall (derived Dates.C_locale)
                [march_row 5 "P1" None 2 100;
                 march_row 9 "P1" None (-2) (-90);
                 march_row 7 "P2" None 1 50])
    by (repeat constructor).
  split; [exact D|].
  destruct (x13_sums_are_conserved Dates.C_locale (march_selection []) _ D)
    as (_ & _ & _ & _ & T).
  - repeat constructor; discriminate.
  - split; [reflexivity|]. rewrite T. reflexivity.
Defined.

Lemma unique_length {A : Type} (eqb : A -> A -> bool) (l : list A) :
  (List.length (unique eqb l) <= List.length l)%nat.
Proof.
  induction l as [|x l IH]; simpl; [lia|].
  destruct (existsb (eqb x) l); simpl; lia.
Qed.

Section GroupCount.

Context {qty amt : Type} {Dq : Dtype qty} {Da : Dtype amt}.

Lemma present_keys_length (df : list (RowOf qty amt)) :
  (List.length (present_keys df) <= List.length df)%nat.
Proof.
  induction df as [|r df IH]; simpl; [lia|].
  destruct (key_of r); simpl; lia.
Qed.

Lemma df_agrupado_length (df : list (RowOf qty amt)) :
  List.length (df_agrupado df)
  = List.length (unique key_eqb (present_keys df)).
Proof.
  rewrite <- (Permutation_length (df_agrupado_perm df)).
  unfold reset_index, groupby.
  rewrite length_combine, length_seq, !length_map, Nat.min_id.
  symmetry. apply Permutation_length. apply sorted_perm.
Qed.

Lemma df_agrupado_nil (df : list (RowOf qty amt)) :
  df_agrupado df = [] <-> Forall (fun r => key_of r = None) df.
Proof.
  split.
  - intros E. apply Forall_forall. intros r I.
    destruct (key_of r) as [k|] eqn:K; [|reflexivity].
    assert (In k (map (fun p => akey (snd p)) (df_agrupado df))).
    { apply (Permutation_in _ (df_agrupado_keys df)).
      apply group_keys_In. now exists r. }
    rewrite E in H. destruct H.
  - intros F.
    assert (P : present_keys df = []).
    { induction F as [|r df K _ IH]; simpl; [reflexivity|].
      now rewrite K. }
    destruct (df_agrupado df) as [|p rest] eqn:E; [reflexivity|].
    pose proof (df_agrupado_length df) as L.
    rewrite E, P in L. discriminate.
Qed.

End GroupCount.

(** X14.  [df_agrupado] has at most as many rows as the filtered table
    and [df_final] at most as many as [df_agrupado]; [df_agrupado] is
    empty exactly when every filtered row lacks one of the four key
    cells.  So when rows pass the filters and all of them lack a product
    code, which no selection of codes allows but the empty one, the
    report runs on an empty table and [idxmax] raises. *)
Theorem x14_rows_without_code :
  forall (sel : Selection) (df_original : list Row),
    (List.length (df_agrupado (df_filtrado sel df_original))
     <= List.length (df_filtrado sel df_original))%nat
    /\ (List.length (df_final (df_agrupado (df_filtrado sel df_original)))
        <= List.length (df_agrupado (df_filtrado sel df_original)))%nat
    /\ (df_agrupado (df_filtrado sel df_original) = []
        <-> Forall (fun r => key_of r = None) (df_filtrado sel df_original))
    /\ (df_filtrado sel df_original <> [] ->
        Forall (fun r => CODIGO_PRODUCTO r = None)
               (df_filtrado sel df_original) ->
        script df_original sel = uncaught ValueError).
Proof.
  intros sel df. split; [|split; [|split]].
  - rewrite df_agrupado_length.
    etransitivity; [apply unique_length | apply present_keys_length].
  - rewrite df_final_kept, length_map. apply filter_length_le.
  - apply df_agrupado_nil.
  - intros N F.
    apply (proj1 (proj2 (proj2 (script_outcomes df sel)))); [exact N|].
    assert (E : df_agrupado (df_filtrado sel df) = []).
    { apply df_agrupado_nil. revert F. apply Forall_impl.
      intros r C. unfold key_of. now rewrite C. }
    now rewrite E.
Qed.

(** A sale whose product code is missing, no code selected. *)
Example rows_without_code_example :
  script [mkRow (Some (mkTimestamp 2024 3 5)) None (Some "Producto")
                (Some "Minorista") (Some 2) (Some 100) None
                (Some 2024) (Some 3) (Some "March")]
         (march_selection [])
  = uncaught ValueError.
Proof. reflexivity. Qed.

Lemma Permutation_filter {A : Type} (f : A -> bool) (l l' : list A) :
  Permutation l l' -> Permutation (filter f l) (filter f l').
Proof.
  induction 1 as [|x l l' _ IH|x y l|l l' l'' _ IH1 _ IH2]; simpl.
  - constructor.
  - destruct (f x); [now constructor | exact IH].
  - destruct (f x), (f y); try apply Permutation_refl. apply perm_swap.
  - now apply perm_trans with (filter f l').
Qed.

Lemma total_perm col (g g' : list Row) :
  Permutation g g' -> total col g = total col g'.
Proof.
  induction 1 as [|x l l' _ IH|x y l|l l' l'' _ IH1 _ IH2].
  - reflexivity.
  - now rewrite !total_cons, IH.
  - rewrite !total_cons. lia.
  - congruence.
Qed.

(** On int64 cells the sum of a group does not depend on the order of
    its rows. *)
Lemma sum_perm col (g g' : list Row) :
  Permutation g g' -> sum col g = sum col g'.
Proof. intros P. now rewrite !sum_int64, (total_perm col g g' P). Qed.

(** Two lists in ascending order without repeats and with the same
    members are the same list. *)
Lemma sorted_lists_equal {A : Type} (R : A -> A -> Prop) :
  (forall x y, R x y -> R y x -> x = y) ->
  forall l l',
    StronglySorted R l -> StronglySorted R l' ->
    NoDup l -> NoDup l' ->
    (forall x, In x l <-> In x l') ->
    l = l'.
Proof.
  intros anti. induction l as [|a l IH]; intros [|a' l'] S S' N N' M.
  - reflexivity.
  - destruct (proj2 (M a') (or_introl eq_refl)).
  - destruct (proj1 (M a) (or_introl eq_refl)).
  - apply StronglySorted_inv in S. destruct S as [S F].
    apply StronglySorted_inv in S'. destruct S' as [S' F'].
    rewrite Forall_forall in F, F'.
    inversion N as [|? ? Hn Nl]; subst.
    inversion N' as [|? ? Hn' Nl']; subst.
    assert (E : a = a').
    { destruct (proj1 (M a) (or_introl eq_refl)) as [E|I]; [now symmetry|].
      destruct (proj2 (M a') (or_introl eq_refl)) as [E|I']; [exact E|].
      apply anti; [now apply F | now apply F']. }
    subst a'. f_equal. apply IH; trivial.
    intros x. split; intros I.
    + destruct (proj1 (M x) (or_intror I)) as [E|I']; [|exact I'].
      subst. contradiction.
    + destruct (proj2 (M x) (or_intror I)) as [E|I']; [|exact I'].
      subst. contradiction.
Qed.

Lemma key_leb_antisym k k' :
  key_leb k k' = true -> key_leb k' k = true -> k = k'.
Proof.
  unfold key_leb. rewrite (ord_opp key_compare key_order k k').
  destruct (key_compare k k') eqn:C; simpl; try discriminate.
  intros _ _. now apply (ord_eq key_compare key_order).
Qed.

Lemma group_keys_perm (df df' : list Row) :
  Permutation df df' ->
  Py.sorted key_leb (unique key_eqb (present_keys df))
  = Py.sorted key_leb (unique key_eqb (present_keys df')).
Proof.
  intros P.
  apply (sorted_lists_equal (fun a b => key_leb a b = true)
                            key_leb_antisym).
  - apply (sorted_sorted key_leb key_leb_total key_leb_trans).
  - apply (sorted_sorted key_leb key_leb_total key_leb_trans).
  - apply group_keys_NoDup.
  - apply group_keys_NoDup.
  - intros k. rewrite !group_keys_In.
    split; intros (r & I & K); exists r; split; trivial.
    + now apply (Permutation_in _ P).
    + now apply (Permutation_in _ (Permutation_sym P)).
Qed.

Lemma insert_map {A B : Type} (f : A -> B) (leb : A -> A -> bool)
  (leb' : B -> B -> bool) (x : A) (l : list A) :
  (forall a b, leb a b = leb' (f a) (f b)) ->
  map f (Py.insert leb x l) = Py.insert leb' (f x) (map f l).
Proof.
  intros H. induction l as [|y l IH]; simpl; [reflexivity|].
  rewrite <- H. destruct (leb x y); simpl; [reflexivity | now rewrite IH].
Qed.

Lemma sorted_map {A B : Type} (f : A -> B) (leb : A -> A -> bool)
  (leb' : B -> B -> bool) (l : list A) :
  (forall a b, leb a b = leb' (f a) (f b)) ->
  map f (Py.sorted leb l) = Py.sorted leb' (map f l).
Proof.
  intros H. induction l as [|x l IH]; simpl; [reflexivity|].
  now rewrite (insert_map f leb leb' x _ H), IH.
Qed.

Lemma map_combine_snd {A B C : Type} (h : B -> C) (l : list A) (l' : list B) :
  map (fun p => (fst p, h (snd p))) (combine l l') = combine l (map h l').
Proof.
  revert l'. induction l as [|x l IH]; intros [|y l']; simpl;
    try reflexivity. now rewrite IH.
Qed.

(** X15.  On int64 columns the order of the rows of the filtered table
    matters to the three first values only: two tables with the same
    rows in different orders give the same groups, with the same summed
    quantities and amounts, in the same order and under the same
    labels. *)
Theorem x15_figures_ignore_row_order :
  forall filtrado filtrado' : list Row,
    Forall numbers_present filtrado ->
    Permutation filtrado filtrado' ->
    map figures (df_agrupado filtrado) = map figures (df_agrupado filtrado').
Proof.
  intros t t' _ P.
  unfold df_agrupado, sort_values.
  rewrite !(sorted_map figures sort_leb
              (fun x y =>
                 let '(_, (k1, _, _)) := x in
                 let '(_, (k2, _, _)) := y in
                 let '(c1, y1, m1, _) := k1 in
                 let '(c2, y2, m2, _) := k2 in
                 cmp_leb (lex (y1 ?= y2)
                              (lex (m1 ?= m2) (String.compare c1 c2)))))
    by (intros [i a] [j b]; reflexivity).
  f_equal.
  unfold reset_index, figures.
  rewrite !(map_combine_snd
              (fun a => (akey a, Agg.CANTIDAD a, Agg.PRECIO_TOTAL_ORIG a))).
  rewrite !length_map.
  unfold groupby. rewrite !length_map, !map_map.
  rewrite (group_keys_perm t t' P).
  f_equal. apply map_ext. intros [[[c y] m] n].
  cbn [agg akey Agg.CODIGO_PRODUCTO Agg.AÑO Agg.MES_NUM Agg.MES Agg.CANTIDAD
       Agg.PRECIO_TOTAL_ORIG].
  now rewrite (sum_perm CANTIDAD _ _
                 (Permutation_filter (in_group (c, y, m, n)) t t' P)),
    (sum_perm PRECIO_TOTAL_ORIG _ _
       (Permutation_filter (in_group (c, y, m, n)) t t' P)).
Qed.

Lemma x15_figures_ignore_row_order_witness :
  Forall numbers_present
         [march_row 5 "P1" None 2 100;
          march_row 20 "P1" (Some "Producto") 3 50]
  /\ Permutation [march_row 5 "P1" None 2 100;
                  march_row 20 "P1" (Some "Producto") 3 50]
                 [march_row 20 "P1" (Some "Producto") 3 50;
                  march_row 5 "P1" None 2 100]
  /\ map figures
         (df_agrupado [march_row 20 "P1" (Some "Producto") 3 50;
                       march_row 5 "P1" None 2 100])
     = [(0%nat, (("P1", 2024, 3, "March"), 5, 150))].
Proof.
  assert (N : Forall numbers_present
                [march_row 5 "P1" None 2 100;
                 march_row 20 "P1" (Some "Producto") 3 50])
    by (repeat constructor; discriminate).
  assert (P : Permutation [march_row 5 "P1" None 2 100;
                           march_row 20 "P1" (Some "Producto") 3 50]
                          [march_row 20 "P1" (Some "Producto") 3 50;
                           march_row 5 "P1" None 2 100])
    by apply perm_swap.
  split; [exact N|]. split; [exact P|].
  rewrite <- (x15_figures_ignore_row_order _ _ N P). reflexivity.
Defined.

(** ** The summary and the script, continued *)

Lemma summary_raise {qty amt : Type} {Da : Dtype amt}
  (df : Indexed (Final.RowOf qty amt)) e :
  summary df = Raise e -> df = [] /\ e = ValueError.
Proof.
  destruct df as [|p rest].
  - simpl. intros H. inversion H. now split.
  - intros H.
    destruct (summary_returns (p :: rest)) as [s Hs]; [discriminate|].
    congruence.
Qed.


(** ** The file name, continued *)

Lemma endswith_refl s : endswith s s = true.
Proof. destruct s; cbn [endswith]; now rewrite String.eqb_refl. Qed.

Lemma endswith_app (a suffix : string) : endswith (a ++ suffix) suffix = true.
Proof.
  induction a as [|c a IH].
  - apply endswith_refl.
  - change ((String c a ++ suffix)%string) with (String c (a ++ suffix)%string).
    cbn [endswith]. rewrite IH. apply orb_true_r.
Qed.

Lemma nombre_default_ends_with_csv sel :
  endswith (nombre_default sel) ".csv" = true.
Proof.
  unfold nombre_default.
  rewrite !str_app_assoc. apply endswith_app.
Qed.

(** X18.  The name given to the download always ends in .csv and begins
    with what the text input held; a name that ends in .csv is taken as
    it is, so the suggested name, left untouched, is the name of the
    download, and the check changes nothing the second time. *)
Theorem x18_file_name :
  forall (sel : Selection) (nombre_archivo : string),
    endswith (file_name nombre_archivo) ".csv" = true
    /\ prefix nombre_archivo (file_name nombre_archivo) = true
    /\ file_name (file_name nombre_archivo) = file_name nombre_archivo
    /\ file_name (nombre_default sel) = nombre_default sel.
Proof.
  intros sel n.
  assert (E : endswith (file_name n) ".csv" = true).
  { unfold file_name. destruct (endswith n ".csv") eqn:C; simpl;
      [exact C | apply endswith_app]. }
  split; [exact E|]. split; [|split].
  - unfold file_name. destruct (endswith n ".csv"); simpl;
      [apply prefix_refl | apply prefix_app].
  - unfold file_name at 1. now rewrite E.
  - unfold file_name. now rewrite nombre_default_ends_with_csv.
Qed.

(** Two lists in ascending order that are permutations of each other
    are the same list. *)
Lemma sorted_perm_equal {A : Type} (R : A -> A -> Prop) :
  (forall x y, R x y -> R y x -> x = y) ->
  forall l l',
    StronglySorted R l -> StronglySorted R l' -> Permutation l l' -> l = l'.
Proof.
  intros anti. induction l as [|a l IH]; intros [|a' l'] S S' P.
  - reflexivity.
  - apply Permutation_nil in P. discriminate.
  - apply Permutation_sym, Permutation_nil in P. discriminate.
  - pose proof (StronglySorted_inv S) as [Sl F].
    pose proof (StronglySorted_inv S') as [Sl' F'].
    rewrite Forall_forall in F, F'.
    assert (E : a = a').
    { destruct (Permutation_in a P (or_introl eq_refl)) as [E|I];
        [now symmetry|].
      destruct (Permutation_in a' (Permutation_sym P) (or_introl eq_refl))
        as [E|I']; [exact E|].
      apply anti; [now apply F | now apply F']. }
    subst a'. f_equal. apply IH; trivial.
    now apply Permutation_cons_inv in P.
Qed.

Lemma sorted_of_perm {A : Type} (cmp : A -> A -> comparison) (l l' : list A) :
  Order cmp ->
  Permutation l l' ->
  Py.sorted (fun a b => cmp_leb (cmp a b)) l
  = Py.sorted (fun a b => cmp_leb (cmp a b)) l'.
Proof.
  intros O P.
  apply (sorted_perm_equal (fun a b => cmp_leb (cmp a b) = true)).
  - intros x y. rewrite (ord_opp cmp O x y).
    destruct (cmp x y) eqn:C; simpl; try discriminate.
    intros _ _. now apply (ord_eq cmp O).
  - apply sorted_sorted.
    + exact (leb_total_on cmp (fun x => x) O).
    + exact (leb_trans_on cmp (fun x => x) O).
  - apply sorted_sorted.
    + exact (leb_total_on cmp (fun x => x) O).
    + exact (leb_trans_on cmp (fun x => x) O).
  - eapply perm_trans; [apply Permutation_sym, sorted_perm|].
    eapply perm_trans; [exact P | apply sorted_perm].
Qed.

(** X19.  The suggested name does not depend on the order in which the
    years and the months were picked: two selections with the same years
    and the same months, in any order, suggest the same name. *)
Theorem x19_name_ignores_picking_order :
  forall sel sel' : Selection,
    Permutation (año_seleccionado sel) (año_seleccionado sel') ->
    Permutation (mes_seleccionado sel) (mes_seleccionado sel') ->
    nombre_default sel = nombre_default sel'.
Proof.
  intros sel sel' Py Pm.
  unfold nombre_default, años_str, meses_str.
  rewrite (Permutation_length Py), (Permutation_length Pm).
  unfold Z_leb, str_leb.
  rewrite (sorted_of_perm Z.compare _ _ Z_order Py).
  rewrite (sorted_of_perm String.compare _ _ str_order Pm).
  reflexivity.
Qed.

Lemma x19_name_ignores_picking_order_witness :
  Permutation [2024; 2023] [2023; 2024]
  /\ Permutation ["marzo"; "abril"] ["abril"; "marzo"]
  /\ nombre_default (mkSelection [2024; 2023] ["marzo"; "abril"] [] [])
     = "ventas_2023_2024_abr_mar.csv".
Proof.
  assert (Py : Permutation [2024; 2023] [2023; 2024]) by apply perm_swap.
  assert (Pm : Permutation ["marzo"; "abril"] ["abril"; "marzo"])
    by apply perm_swap.
  split; [exact Py|]. split; [exact Pm|].
  rewrite (x19_name_ignores_picking_order
             (mkSelection [2024; 2023] ["marzo"; "abril"] [] [])
             (mkSelection [2023; 2024] ["abril"; "marzo"] [] []) Py Pm).
  reflexivity.
Defined.

(** ** The table by article *)

Lemma code_keys_In c (df : Indexed Final.Row) :
  In c (Py.sorted str_leb (unique String.eqb (map final_code df)))
  <-> exists q, In q df /\ final_code q = c.
Proof.
  rewrite sorted_In, (unique_In String.eqb String.eqb_eq), in_map_iff.
  split; intros (q & H1 & H2); exists q; auto.
Qed.

Lemma code_keys_NoDup (df : Indexed Final.Row) :
  NoDup (Py.sorted str_leb (unique String.eqb (map final_code df))).
Proof.
  eapply Permutation_NoDup; [apply sorted_perm|].
  apply (unique_NoDup String.eqb String.eqb_eq).
Qed.

Lemma groupby_code_codes (df : Indexed Final.Row) :
  map Rollup.CODIGO_PRODUCTO (map agg_code (groupby_code df))
  = Py.sorted str_leb (unique String.eqb (map final_code df)).
Proof.
  unfold groupby_code. rewrite !map_map. simpl.
  apply map_id.
Qed.

Lemma Zsum_code_indicator (codes : list string) (c0 : string) (v : Z) :
  NoDup codes -> In c0 codes ->
  Zsum (map (fun c => if String.eqb c0 c then v else 0) codes) = v.
Proof.
  unfold Zsum. induction 1 as [|c codes Hn N IH]; simpl; [tauto|].
  intros [->|I].
  - rewrite String.eqb_refl.
    assert (Z0 : fold_right Z.add 0
                   (map (fun c => if String.eqb c0 c then v else 0) codes)
                 = 0).
    { clear IH N. induction codes as [|c codes IH]; simpl; [reflexivity|].
      destruct (String.eqb_spec c0 c) as [->|_].
      - destruct Hn. now left.
      - rewrite IH; [reflexivity|]. intros H. apply Hn. now right. }
    lia.
  - destruct (String.eqb_spec c0 c) as [->|_]; [contradiction|].
    rewrite (IH I). lia.
Qed.

(** The arithmetic sums by product add up to the sum over the table. *)
Lemma code_sums_partition (f : nat * Final.Row -> Z) (codes : list string)
  (df : Indexed Final.Row) :
  NoDup codes ->
  (forall q, In q df -> In (final_code q) codes) ->
  Zsum (map (fun c => Zsum (map f (rows_of_code c df))) codes)
  = Zsum (map f df).
Proof.
  intros N. induction df as [|q df IH]; intros C.
  - simpl. apply Zsum_zero.
  - cbn [map]. change (Zsum (f q :: map f df)) with (f q + Zsum (map f df)).
    rewrite <- IH by (intros q' I; apply C; now right).
    rewrite <- (Zsum_code_indicator codes (final_code q) (f q) N)
      by (apply C; now left).
    rewrite <- Zsum_map_add. f_equal. apply map_ext. intros c.
    unfold rows_of_code. cbn [filter].
    destruct (String.eqb (final_code q) c); reflexivity.
Qed.

Lemma filter_all {A : Type} (f : A -> bool) (l : list A) :
  Forall (fun x => f x = true) l -> filter f l = l.
Proof.
  induction 1 as [|x l H _ IH]; simpl; [reflexivity|].
  now rewrite H, IH.
Qed.

Lemma of_code_rows c (df : Indexed Final.Row) :
  filter (of_code c) df = rows_of_code c df.
Proof.
  apply filter_ext. intros q. unfold of_code, final_code.
  apply String.eqb_sym.
Qed.

(** On int64 cells the ['sum'] of the rows of a product is their
    arithmetic sum brought back into the range of int64. *)
Lemma sum_final_int64 (col : Final.Row -> Z) (g : Indexed Final.Row) :
  sum_final col g = wrap64 (Zsum (map (fun q => col (snd q)) g)).
Proof. unfold sum_final. cbn [group_sum int64]. apply sum64_wrap. Qed.

Lemma first_final_is_first_present {A : Type} (col : Final.Row -> option A)
  (g : Indexed Final.Row) :
  first_present (fun q => col (snd q)) g (first_final col g).
Proof.
  induction g as [|r g IH]; simpl; [constructor|].
  destruct (col (snd r)) as [x|] eqn:C.
  - exists [], r, g. repeat split; [constructor | exact C].
  - destruct (first_final col g) as [x|]; simpl in *.
    + destruct IH as (pre & r' & post & E & F & C').
      exists (r :: pre), r', post. rewrite E.
      repeat split; [now constructor | exact C'].
    + now constructor.
Qed.

Section ByArticleFacts.

Variable sort_values_cantidad : Indexed Rollup.Row -> Indexed Rollup.Row.
Hypothesis sort_is_permutation :
  forall df, Permutation df (sort_values_cantidad df).
Hypothesis sort_is_sorted :
  forall df, StronglySorted by_cantidad (sort_values_cantidad df).

Lemma df_agrupados_In p (df : Indexed Final.Row) :
  In p (df_agrupados sort_values_cantidad df)
  <-> In p (reset_index (map agg_code (groupby_code df)))
      /\ 0 < rollup_cantidad p.
Proof.
  unfold df_agrupados. rewrite filter_In. cbn [gt_zero int64].
  rewrite Z.gtb_ltb, Z.ltb_lt.
  split; intros [I Q]; (split; [|exact Q]).
  - now apply (Permutation_in _ (Permutation_sym (sort_is_permutation _))).
  - now apply (Permutation_in _ (sort_is_permutation _)).
Qed.

Lemma reset_index_agg_code p (df : Indexed Final.Row) :
  In p (reset_index (map agg_code (groupby_code df))) ->
  snd p = agg_code (rollup_code p, rows_of_code (rollup_code p) df)
  /\ exists q, In q df /\ final_code q = rollup_code p.
Proof.
  intros I. apply (in_map snd) in I. rewrite reset_index_rows in I.
  apply in_map_iff in I. destruct I as ([c g] & E & I).
  unfold groupby_code in I. apply in_map_iff in I.
  destruct I as (c' & E' & I). inversion E'; subst c' g; clear E'.
  unfold rollup_code. rewrite <- E. simpl. rewrite of_code_rows.
  split; [reflexivity|].
  now apply code_keys_In.
Qed.

Lemma rollup_cantidad_sum p (df : Indexed Final.Row) :
  In p (reset_index (map agg_code (groupby_code df))) ->
  rollup_cantidad p
  = wrap64 (Zsum (map final_cantidad (rows_of_code (rollup_code p) df))).
Proof.
  intros I. destruct (reset_index_agg_code p df I) as [E _].
  unfold rollup_cantidad. rewrite E at 1.
  cbn [agg_code Rollup.CANTIDAD snd]. apply sum_final_int64.
Qed.

Lemma rollup_precio_sum p (df : Indexed Final.Row) :
  In p (reset_index (map agg_code (groupby_code df))) ->
  rollup_precio p
  = wrap64 (Zsum (map precio (rows_of_code (rollup_code p) df))).
Proof.
  intros I. destruct (reset_index_agg_code p df I) as [E _].
  unfold rollup_precio. rewrite E at 1.
  cbn [agg_code Rollup.PRECIO_TOTAL_ORIG snd]. apply sum_final_int64.
Qed.

(** X20.  On int64 columns, and for any sort that
    [sort_values(['CANTIDAD'])] may perform, the table by article has
    one row for each product code of [df_final] whose quantities add up,
    in int64, to more than 0, and no other: a product returned as much
    as it was sold, or more, is left out.  The row carries the first
    name and the first class present among the rows of that code, in the
    order of [df_final], and their summed quantity and amount, each the
    arithmetic sum brought back into the range of int64; the rows come
    in ascending order of quantity; and when no product is left out, the
    amounts of the table add up, modulo 2^64, to the total of sales. *)
Theorem x20_table_by_article :
  forall df_final : Indexed Final.Row,
    NoDup (map rollup_code (df_agrupados sort_values_cantidad df_final))
    /\ (forall c,
           (exists p, In p (df_agrupados sort_values_cantidad df_final)
                      /\ rollup_code p = c)
           <-> (exists q, In q df_final /\ final_code q = c)
               /\ 0 < wrap64 (Zsum (map final_cantidad
                                        (rows_of_code c df_final))))
    /\ (forall p,
           In p (df_agrupados sort_values_cantidad df_final) ->
           first_present (fun q => Final.NOMBRE_PRODUCTO (snd q))
                         (rows_of_code (rollup_code p) df_final)
                         (Rollup.NOMBRE_PRODUCTO (snd p))
           /\ first_present (fun q => Final.CLASE_CLIENTE (snd q))
                            (rows_of_code (rollup_code p) df_final)
                            (Rollup.CLASE_CLIENTE (snd p))
           /\ rollup_cantidad p
              = wrap64 (Zsum (map final_cantidad
                                  (rows_of_code (rollup_code p) df_final)))
           /\ rollup_precio p
              = wrap64 (Zsum (map precio
                                  (rows_of_code (rollup_code p) df_final))))
    /\ StronglySorted by_cantidad
                      (df_agrupados sort_values_cantidad df_final)
    /\ ((forall q, In q df_final ->
                   0 < wrap64 (Zsum (map final_cantidad
                                         (rows_of_code (final_code q)
                                                       df_final)))) ->
        wrap64 (Zsum (map rollup_precio
                          (df_agrupados sort_values_cantidad df_final)))
        = total_ventas df_final).
Proof.
  intros df. split; [|split; [|split; [|split]]].
  - unfold df_agrupados. apply NoDup_map_filter.
    eapply Permutation_NoDup.
    + apply Permutation_map. apply sort_is_permutation.
    + unfold rollup_code. rewrite <- (map_map snd Rollup.CODIGO_PRODUCTO).
      rewrite reset_index_rows, groupby_code_codes.
      apply code_keys_NoDup.
  - intros c. split.
    + intros (p & I & <-). apply df_agrupados_In in I. destruct I as [I Q].
      destruct (reset_index_agg_code p df I) as [_ X]. split; [exact X|].
      now rewrite <- (rollup_cantidad_sum p df I).
    + intros [(q & Iq & Cq) Q].
      assert (K : In c (map Rollup.CODIGO_PRODUCTO
                          (map agg_code (groupby_code df)))).
      { rewrite groupby_code_codes. apply code_keys_In. now exists q. }
      rewrite <- (reset_index_rows (map agg_code (groupby_code df))) in K.
      rewrite map_map in K. apply in_map_iff in K.
      destruct K as (p & Cp & Ip). exists p. split; [|exact Cp].
      apply df_agrupados_In. split; [exact Ip|].
      rewrite (rollup_cantidad_sum p df Ip). unfold rollup_code.
      now rewrite Cp.
  - intros p I. apply df_agrupados_In in I. destruct I as [I _].
    destruct (reset_index_agg_code p df I) as [E _].
    split; [|split; [|split]].
    + replace (Rollup.NOMBRE_PRODUCTO (snd p))
        with (first_final Final.NOMBRE_PRODUCTO
                          (rows_of_code (rollup_code p) df))
        by (now rewrite E at 1).
      apply first_final_is_first_present.
    + replace (Rollup.CLASE_CLIENTE (snd p))
        with (first_final Final.CLASE_CLIENTE
                          (rows_of_code (rollup_code p) df))
        by (now rewrite E at 1).
      apply first_final_is_first_present.
    + now apply rollup_cantidad_sum.
    + now apply rollup_precio_sum.
  - unfold df_agrupados. apply StronglySorted_filter. apply sort_is_sorted.
  - intros H. unfold df_agrupados.
    rewrite filter_all.
    + rewrite <- (Zsum_perm _ _ (Permutation_map rollup_precio
                                   (sort_is_permutation _))).
      rewrite total_ventas_sum.
      unfold rollup_precio.
      rewrite <- (map_map snd Rollup.PRECIO_TOTAL_ORIG), reset_index_rows.
      unfold groupby_code. rewrite !map_map.
      rewrite (map_ext _ (fun c => wrap64 (Zsum (map precio
                                                     (rows_of_code c df))))).
      2:{ intros c. cbn [agg_code Rollup.PRECIO_TOTAL_ORIG snd].
          rewrite of_code_rows. apply sum_final_int64. }
      rewrite wrap64_Zsum. f_equal.
      apply code_sums_partition; [apply code_keys_NoDup|].
      intros q I. apply code_keys_In. now exists q.
    + apply Forall_forall. intros p I.
      apply (Permutation_in _ (Permutation_sym (sort_is_permutation _))) in I.
      destruct (reset_index_agg_code p df I) as [_ (q & Iq & Cq)].
      cbn [gt_zero int64]. rewrite Z.gtb_ltb, Z.ltb_lt.
      fold (rollup_cantidad p). rewrite (rollup_cantidad_sum p df I).
      rewrite <- Cq. now apply H.
Qed.

End ByArticleFacts.

Lemma stable_sort_cantidad_perm (df : Indexed Rollup.Row) :
  Permutation df (stable_sort_cantidad df).
Proof. apply sorted_perm. Qed.

Lemma stable_sort_cantidad_sorted (df : Indexed Rollup.Row) :
  StronglySorted by_cantidad (stable_sort_cantidad df).
Proof.
  apply StronglySorted_impl
    with (R := fun p q => Z_leb (Rollup.CANTIDAD (snd p))
                                (Rollup.CANTIDAD (snd q)) = true).
  - intros p q. apply Z_leb_le.
  - apply sorted_sorted.
    + intros p q. apply Z_leb_total.
    + intros p q r. apply Z_leb_trans.
Qed.

(** Three months of two products: A sold 3 and 1 and had 5 returned, B
    sold 2.  A is left out of the table by article. *)
Lemma x20_table_by_article_witness :
  (forall df, Permutation df (stable_sort_cantidad df))
  /\ (forall df, StronglySorted by_cantidad (stable_sort_cantidad df))
  /\ map rollup_code
         (df_agrupados stable_sort_cantidad
            [(0%nat, Final.mkRow None "A" None None 3 30 None);
             (1%nat, Final.mkRow None "B" None None 2 20 None);
             (2%nat, Final.mkRow None "A" None None 1 10 None);
             (3%nat, Final.mkRow None "A" None None (-5) (-50) None)])
     = ["B"]
  /\ NoDup (map rollup_code
              (df_agrupados stable_sort_cantidad
                 [(0%nat, Final.mkRow None "A" None None 3 30 None);
                  (1%nat, Final.mkRow None "B" None None 2 20 None);
                  (2%nat, Final.mkRow None "A" None None 1 10 None);
                  (3%nat, Final.mkRow None "A" None None (-5) (-50) None)])).
Proof.
  split; [exact stable_sort_cantidad_perm|].
  split; [exact stable_sort_cantidad_sorted|].
  split; [reflexivity|].
  exact (proj1 (x20_table_by_article stable_sort_cantidad
                  stable_sort_cantidad_perm stable_sort_cantidad_sorted _)).
Defined.

(** ** Month names *)

Lemma month_name_injective l m m' :
  1 <= m <= 12 -> 1 <= m' <= 12 ->
  Dates.month_name l m = Dates.month_name l m' -> m = m'.
Proof.
  intros H H'.
  assert (M : m = 1 \/ m = 2 \/ m = 3 \/ m = 4 \/ m = 5 \/ m = 6 \/ m = 7
              \/ m = 8 \/ m = 9 \/ m = 10 \/ m = 11 \/ m = 12) by lia.
  assert (M' : m' = 1 \/ m' = 2 \/ m' = 3 \/ m' = 4 \/ m' = 5 \/ m' = 6
               \/ m' = 7 \/ m' = 8 \/ m' = 9 \/ m' = 10 \/ m' = 11
               \/ m' = 12) by lia.
  clear H H'.
  repeat (destruct M as [M|M]; [subst m|]); try subst m;
    repeat (destruct M' as [M'|M']; [subst m'|]); try subst m';
    destruct l; simpl; intros E; try reflexivity; discriminate E.
Qed.

(** X21.  In a table whose year, month number and month name come from
    dates of the calendar, as [cargar_datos] makes them, two rows have
    the same month name exactly when they have the same month number,
    whatever the dtypes of the number columns: in either locale the
    twelve names are distinct, so the filter by month name never mixes
    two months of the calendar. *)
Theorem x21_month_name_identifies_month :
  forall (qty amt : Type) (l : Dates.Locale) (r1 r2 : RowOf qty amt),
    derived l r1 ->
    derived l r2 ->
    (forall t, FECHA_DOCUMENTO r1 = Some t -> 1 <= ts_month t <= 12) ->
    (forall t, FECHA_DOCUMENTO r2 = Some t -> 1 <= ts_month t <= 12) ->
    (MES r1 = MES r2 <-> MES_NUM r1 = MES_NUM r2).
Proof.
  intros qty amt l r1 r2 (_ & Dm1 & Dn1) (_ & Dm2 & Dn2) R1 R2.
  rewrite Dn1, Dn2, Dm1, Dm2.
  destruct (FECHA_DOCUMENTO r1) as [t1|], (FECHA_DOCUMENTO r2) as [t2|];
    simpl in *; split; intros E; try discriminate; try reflexivity.
  - inversion E as [E']. f_equal.
    apply (month_name_injective l); auto.
  - inversion E as [E']. now rewrite E'.
Qed.

(** A sale of March and a sale of April, named in Spanish. *)
Lemma x21_month_name_identifies_month_witness :
  derived Dates.es_ES
    (mkRow (Some (mkTimestamp 2024 3 5)) (Some "P1") None None
           (Some 2) (Some 100) None (Some 2024) (Some 3) (Some "marzo"))
  /\ derived Dates.es_ES
       (mkRow (Some (mkTimestamp 2024 4 2)) (Some "P1") None None
              (Some 1) (Some 50) None (Some 2024) (Some 4) (Some "abril"))
  /\ (Some "marzo" = Some "abril" <-> Some 3 = Some 4).
Proof.
  assert (D1 : derived Dates.es_ES
    (mkRow (Some (mkTimestamp 2024 3 5)) (Some "P1") None None
           (Some 2) (Some 100) None (Some 2024) (Some 3) (Some "marzo")))
    by (repeat split).
  assert (D2 : derived Dates.es_ES
       (mkRow (Some (mkTimestamp 2024 4 2)) (Some "P1") None None
              (Some 1) (Some 50) None (Some 2024) (Some 4) (Some "abril")))
    by (repeat split).
  split; [exact D1|]. split; [exact D2|].
  apply (x21_month_name_identifies_month Z Z Dates.es_ES _ _ D1 D2).
  - intros t E. inversion E; subst t. simpl. lia.
  - intros t E. inversion E; subst t. simpl. lia.
Defined.
